(** * PICKL: result summarizer and execution event aggregator

    A shallow embedding of the two reporting components of the PICKL test
    boilerplate:

    - the PR-comment generator (the "Summarizer"): [processStep],
      [determineScenarioStatus], [updateScenarioCounts], [parseTestResults],
      [formatDuration], [generateComment], [generatePRComment];
    - the verbose progress formatter (the "Aggregator"),
      test/support/verbose-formatter.ts: [trackScenarioResult],
      [updateStepCounts], [logTestStepFinished] and the envelope handler;
    - the runner, scripts/run-test.ts: the loop over the command line
      arguments and the command that it builds.

    JavaScript numbers are IEEE 754 binary64 values.  They are modelled with
    the executable specification of the Standard Library ([SpecFloat]), so
    that [/], [*], [+], [<], [%], [Math.floor] and [toFixed] round exactly as
    the program does.  Counters that start at [0] and are only ever
    incremented by [++] stay within the exactly representable naturals and
    are modelled by [nat]. *)

From Stdlib Require Import ZArith NArith String Ascii Lia Reals Lra.
From Stdlib Require Import DecimalString.
From Stdlib Require Import Floats.SpecFloat.
From stdpp Require Import base option list gmap strings.

Local Open Scope string_scope.

(** ** JavaScript numbers *)

Module JsNumber.

Definition prec : Z := 53.
Definition emax : Z := 1024.

Definition number : Type := spec_float.

Definition of_Z (z : Z) : number := binary_normalize prec emax z 0 false.
Definition of_nat (n : nat) : number := of_Z (Z.of_nat n).

Definition add : number -> number -> number := SFadd prec emax.
Definition sub : number -> number -> number := SFsub prec emax.
Definition mul : number -> number -> number := SFmul prec emax.
Definition div : number -> number -> number := SFdiv prec emax.
Definition ltb : number -> number -> bool := SFltb.

(** The well-formed doubles: canonical mantissa and exponent in range. *)
Definition valid (x : number) : bool := valid_binary prec emax x.

(** The signed mantissa of a finite number ([0] for the other values);
    the value of [S754_finite s m e] is [mantissa * 2^e]. *)
Definition mantissa (x : number) : Z :=
  match x with
  | S754_finite s m _ => cond_Zopp s (Z.pos m)
  | _ => 0%Z
  end.

Definition exponent (x : number) : Z :=
  match x with
  | S754_finite _ _ e => e
  | _ => 0%Z
  end.

(** [floorZ x] is the largest integer below or equal to a finite [x]:
    [Z.shiftl] multiplies by [2^e] when [e] is positive and divides,
    rounding down, when it is negative. *)
Definition floorZ (x : number) : Z := Z.shiftl (mantissa x) (exponent x).

(** [Math.floor]: the non-finite values and the zeros are returned as they
    are; the floor of a finite double is itself a double. *)
Definition Math_floor (x : number) : number :=
  match x with
  | S754_finite _ _ _ => of_Z (floorZ x)
  | _ => x
  end.

(** The [%] operator (ECMAScript Number::remainder): the result has the
    sign of the dividend and is computed without rounding. *)
Definition rem (n d : number) : number :=
  match n, d with
  | S754_nan, _ | _, S754_nan => S754_nan
  | S754_infinity _, _ => S754_nan
  | _, S754_infinity _ => n
  | _, S754_zero _ => S754_nan
  | S754_zero _, _ => n
  | S754_finite sn mn en, S754_finite _ md ed =>
      let e := Z.min en ed in
      let a := Z.shiftl (Z.pos mn) (en - e) in
      let b := Z.shiftl (Z.pos md) (ed - e) in
      binary_normalize prec emax (cond_Zopp sn (Z.rem a b)) e sn
  end.

(** A finite number is an integer when its exponent is not negative or
    its mantissa is a multiple of [2^(-e)]. *)
Definition is_integer (x : number) : bool :=
  match x with
  | S754_finite _ m e => (0 <=? e)%Z || (Z.pos m mod 2 ^ (- e) =? 0)%Z
  | S754_zero _ => true
  | _ => false
  end.

(** Decimal digits of a natural number, as [String(n)] prints them. *)
Definition decimal (n : N) : string := NilZero.string_of_uint (N.to_uint n).

Fixpoint zeros (k : nat) : string :=
  match k with
  | O => ""
  | S k' => String "0" (zeros k')
  end.

(** [n / 10^f] printed with exactly [f] digits after the point: the digits
    of [n], left-padded with zeros to [f + 1] characters, with a point
    before the last [f] of them. *)
Definition decimal_fixed (f : nat) (n : N) : string :=
  let scale := (10 ^ N.of_nat f)%N in
  match f with
  | O => decimal n
  | _ =>
      let frac := decimal (n mod scale) in
      decimal (n / scale) +:+ "." +:+ zeros (f - String.length frac) +:+ frac
  end.

(** The integer [n] for which [n / 10^f] is nearest to [m * 2^e], the
    larger one when two are equally near. *)
Definition nearest_scaled (f : nat) (m : positive) (e : Z) : N :=
  let scaled := (Z.pos m * 10 ^ Z.of_nat f)%Z in
  if (0 <=? e)%Z then Z.to_N (scaled * 2 ^ e)
  else Z.to_N ((2 * scaled + 2 ^ (- e)) / 2 ^ (1 - e)).

(** Finite values that are neither integers of magnitude at most [2^53]
    nor below [10^21] in [toFixed] are printed by ECMAScript as the
    shortest decimal that reads back as the same double, in positional or
    exponent notation.  That rendering is a parameter of the development;
    no property below depends on what it prints. *)
Class NumberFormat := shortest_decimal : number -> string.

Section Printing.
Context `{NumberFormat}.

(** [String(x)] and template interpolation of a number. *)
Definition Number_toString (x : number) : string :=
  match x with
  | S754_nan => "NaN"
  | S754_infinity false => "Infinity"
  | S754_infinity true => "-Infinity"
  | S754_zero _ => "0"
  | S754_finite s m e =>
      let z := floorZ (SFabs x) in
      if is_integer x && (z <=? 2 ^ 53)%Z
      then (if s then "-" else "") +:+ decimal (Z.to_N z)
      else shortest_decimal x
  end.

(** [x.toFixed(f)] for [0 <= f <= 100]. *)
Definition toFixed (f : nat) (x : number) : string :=
  match x with
  | S754_nan | S754_infinity _ => Number_toString x
  | S754_zero _ => decimal_fixed f 0
  | S754_finite s m e =>
      (if s then "-" else "") +:+
      (if ltb (SFabs x) (of_Z (10 ^ 21))
       then decimal_fixed f (nearest_scaled f m e)
       else Number_toString (SFabs x))
  end.
End Printing.

End JsNumber.


(** ** The Summarizer: the cucumber JSON report folded into a PR comment *)

Module CucumberStep.
Record Result := {
  status : string;
  duration : option JsNumber.number;
  error_message : option string
}.
Record t := { result : Result }.
End CucumberStep.

Module CucumberTag.
Record t := { name : string }.
End CucumberTag.

Module CucumberScenario.
Record t := {
  name : string;
  type : string;
  steps : list CucumberStep.t;
  tags : option (list CucumberTag.t)
}.
End CucumberScenario.

Module CucumberFeature.
Record t := {
  name : string;
  elements : list CucumberScenario.t
}.
End CucumberFeature.

Module FeatureSummary.
Record t := {
  name : string;
  scenarios : nat;
  passed : nat;
  failed : nat;
  skipped : nat
}.

Definition set_scenarios (v : nat) (s : t) : t :=
  {| name := name s; scenarios := v; passed := passed s;
     failed := failed s; skipped := skipped s |}.
Definition set_passed (v : nat) (s : t) : t :=
  {| name := name s; scenarios := scenarios s; passed := v;
     failed := failed s; skipped := skipped s |}.
Definition set_failed (v : nat) (s : t) : t :=
  {| name := name s; scenarios := scenarios s; passed := passed s;
     failed := v; skipped := skipped s |}.
Definition set_skipped (v : nat) (s : t) : t :=
  {| name := name s; scenarios := scenarios s; passed := passed s;
     failed := failed s; skipped := v |}.
End FeatureSummary.

Module TestResults.
Record t := {
  totalScenarios : nat;
  passedScenarios : nat;
  failedScenarios : nat;
  skippedScenarios : nat;
  totalSteps : nat;
  passedSteps : nat;
  failedSteps : nat;
  skippedSteps : nat;
  duration : JsNumber.number;
  features : list FeatureSummary.t
}.

Definition set_totalScenarios (v : nat) (r : t) : t :=
  {| totalScenarios := v; passedScenarios := passedScenarios r;
     failedScenarios := failedScenarios r; skippedScenarios := skippedScenarios r;
     totalSteps := totalSteps r; passedSteps := passedSteps r;
     failedSteps := failedSteps r; skippedSteps := skippedSteps r;
     duration := duration r; features := features r |}.
Definition set_passedScenarios (v : nat) (r : t) : t :=
  {| totalScenarios := totalScenarios r; passedScenarios := v;
     failedScenarios := failedScenarios r; skippedScenarios := skippedScenarios r;
     totalSteps := totalSteps r; passedSteps := passedSteps r;
     failedSteps := failedSteps r; skippedSteps := skippedSteps r;
     duration := duration r; features := features r |}.
Definition set_failedScenarios (v : nat) (r : t) : t :=
  {| totalScenarios := totalScenarios r; passedScenarios := passedScenarios r;
     failedScenarios := v; skippedScenarios := skippedScenarios r;
     totalSteps := totalSteps r; passedSteps := passedSteps r;
     failedSteps := failedSteps r; skippedSteps := skippedSteps r;
     duration := duration r; features := features r |}.
Definition set_skippedScenarios (v : nat) (r : t) : t :=
  {| totalScenarios := totalScenarios r; passedScenarios := passedScenarios r;
     failedScenarios := failedScenarios r; skippedScenarios := v;
     totalSteps := totalSteps r; passedSteps := passedSteps r;
     failedSteps := failedSteps r; skippedSteps := skippedSteps r;
     duration := duration r; features := features r |}.
Definition set_totalSteps (v : nat) (r : t) : t :=
  {| totalScenarios := totalScenarios r; passedScenarios := passedScenarios r;
     failedScenarios := failedScenarios r; skippedScenarios := skippedScenarios r;
     totalSteps := v; passedSteps := passedSteps r;
     failedSteps := failedSteps r; skippedSteps := skippedSteps r;
     duration := duration r; features := features r |}.
Definition set_passedSteps (v : nat) (r : t) : t :=
  {| totalScenarios := totalScenarios r; passedScenarios := passedScenarios r;
     failedScenarios := failedScenarios r; skippedScenarios := skippedScenarios r;
     totalSteps := totalSteps r; passedSteps := v;
     failedSteps := failedSteps r; skippedSteps := skippedSteps r;
     duration := duration r; features := features r |}.
Definition set_failedSteps (v : nat) (r : t) : t :=
  {| totalScenarios := totalScenarios r; passedScenarios := passedScenarios r;
     failedScenarios := failedScenarios r; skippedScenarios := skippedScenarios r;
     totalSteps := totalSteps r; passedSteps := passedSteps r;
     failedSteps := v; skippedSteps := skippedSteps r;
     duration := duration r; features := features r |}.
Definition set_skippedSteps (v : nat) (r : t) : t :=
  {| totalScenarios := totalScenarios r; passedScenarios := passedScenarios r;
     failedScenarios := failedScenarios r; skippedScenarios := skippedScenarios r;
     totalSteps := totalSteps r; passedSteps := passedSteps r;
     failedSteps := failedSteps r; skippedSteps := v;
     duration := duration r; features := features r |}.
Definition set_duration (v : JsNumber.number) (r : t) : t :=
  {| totalScenarios := totalScenarios r; passedScenarios := passedScenarios r;
     failedScenarios := failedScenarios r; skippedScenarios := skippedScenarios r;
     totalSteps := totalSteps r; passedSteps := passedSteps r;
     failedSteps := failedSteps r; skippedSteps := skippedSteps r;
     duration := v; features := features r |}.
Definition set_features (v : list FeatureSummary.t) (r : t) : t :=
  {| totalScenarios := totalScenarios r; passedScenarios := passedScenarios r;
     failedScenarios := failedScenarios r; skippedScenarios := skippedScenarios r;
     totalSteps := totalSteps r; passedSteps := passedSteps r;
     failedSteps := failedSteps r; skippedSteps := skippedSteps r;
     duration := duration r; features := v |}.
End TestResults.

(** The literal type ['passed' | 'failed' | 'skipped']. *)
Inductive ScenarioStatus := passed | failed | skipped.

Module Summarizer.
Import TestResults.

Definition step_status (step : CucumberStep.t) : string :=
  CucumberStep.status (CucumberStep.result step).

Definition processStep (step : CucumberStep.t) (results : TestResults.t)
  : TestResults.t :=
  let results := set_totalSteps (S (totalSteps results)) results in
  let results :=
    set_duration
      (JsNumber.add (duration results)
         (default (S754_zero false)
            (CucumberStep.duration (CucumberStep.result step))))
      results in
  if String.eqb (step_status step) "passed" then
    set_passedSteps (S (passedSteps results)) results
  else if String.eqb (step_status step) "failed" then
    set_failedSteps (S (failedSteps results)) results
  else if String.eqb (step_status step) "skipped" then
    set_skippedSteps (S (skippedSteps results)) results
  else results.

Definition determineScenarioStatus (steps : list CucumberStep.t)
  : ScenarioStatus :=
  let hasFailed :=
    existsb (fun step => String.eqb (step_status step) "failed") steps in
  if hasFailed then failed
  else
    let hasSkipped :=
      existsb (fun step => String.eqb (step_status step) "skipped") steps in
    if hasSkipped then skipped else passed.

Definition updateScenarioCounts (status : ScenarioStatus)
    (featureSummary : FeatureSummary.t) (results : TestResults.t)
  : FeatureSummary.t * TestResults.t :=
  match status with
  | passed =>
      (FeatureSummary.set_passed (S (FeatureSummary.passed featureSummary))
         featureSummary,
       set_passedScenarios (S (passedScenarios results)) results)
  | failed =>
      (FeatureSummary.set_failed (S (FeatureSummary.failed featureSummary))
         featureSummary,
       set_failedScenarios (S (failedScenarios results)) results)
  | skipped =>
      (FeatureSummary.set_skipped (S (FeatureSummary.skipped featureSummary))
         featureSummary,
       set_skippedScenarios (S (skippedScenarios results)) results)
  end.

(** The fresh [results] object of [parseTestResults]. *)
Definition initialResults : TestResults.t :=
  {| totalScenarios := 0; passedScenarios := 0; failedScenarios := 0;
     skippedScenarios := 0; totalSteps := 0; passedSteps := 0;
     failedSteps := 0; skippedSteps := 0; duration := S754_zero false;
     features := [] |}.

(** One iteration of the inner loop [for (const scenario of
    feature.elements)]. *)
Definition processScenario (acc : FeatureSummary.t * TestResults.t)
    (scenario : CucumberScenario.t) : FeatureSummary.t * TestResults.t :=
  let '(featureSummary, results) := acc in
  if negb (String.eqb (CucumberScenario.type scenario) "scenario") then
    (featureSummary, results)
  else
    let featureSummary :=
      FeatureSummary.set_scenarios
        (S (FeatureSummary.scenarios featureSummary)) featureSummary in
    let results := set_totalScenarios (S (totalScenarios results)) results in
    let results :=
      fold_left (fun results step => processStep step results)
        (CucumberScenario.steps scenario) results in
    let scenarioStatus :=
      determineScenarioStatus (CucumberScenario.steps scenario) in
    updateScenarioCounts scenarioStatus featureSummary results.

(** One iteration of the outer loop [for (const feature of features)]. *)
Definition processFeature (results : TestResults.t)
    (feature : CucumberFeature.t) : TestResults.t :=
  let featureSummary :=
    {| FeatureSummary.name := CucumberFeature.name feature;
       FeatureSummary.scenarios := 0; FeatureSummary.passed := 0;
       FeatureSummary.failed := 0; FeatureSummary.skipped := 0 |} in
  let '(featureSummary, results) :=
    fold_left processScenario (CucumberFeature.elements feature)
      (featureSummary, results) in
  if (0 <? FeatureSummary.scenarios featureSummary)%nat then
    set_features (features results ++ [featureSummary]) results
  else results.

(** The two loops of [parseTestResults], from the decoded document to the
    returned [results]. *)
Definition summarize (features : list CucumberFeature.t) : TestResults.t :=
  fold_left processFeature features initialResults.

End Summarizer.

(** ** The report text *)

Module Report.
Import JsNumber TestResults.

Definition LF : string := String "010" "".
Definition dquote : string := String "034" "".

(** Interpolation of a counter. *)
Definition show (n : nat) : string := decimal (N.of_nat n).

Section WithNumberFormat.
Context `{NumberFormat}.

Definition formatDuration (nanoseconds : number) : string :=
  let seconds := div nanoseconds (of_Z 1000000000) in
  if ltb seconds (of_Z 60) then toFixed 2 seconds +:+ "s"
  else
    let minutes := Math_floor (div seconds (of_Z 60)) in
    let remainingSeconds := Math_floor (rem seconds (of_Z 60)) in
    Number_toString minutes +:+ "m " +:+
    Number_toString remainingSeconds +:+ "s".

(** The local constant [passRate] of [generateComment]. *)
Definition passRate (results : TestResults.t) : string :=
  if (0 <? totalScenarios results)%nat then
    toFixed 1
      (mul (div (of_nat (passedScenarios results))
              (of_nat (totalScenarios results)))
         (of_Z 100))
  else "0.0".

Definition featureRow (feature : FeatureSummary.t) : string :=
  let icon := if (0 <? FeatureSummary.failed feature)%nat then "❌" else "✅" in
  "| " +:+ icon +:+ " " +:+ FeatureSummary.name feature +:+ " | " +:+
  show (FeatureSummary.scenarios feature) +:+ " | " +:+
  show (FeatureSummary.passed feature) +:+ " | " +:+
  show (FeatureSummary.failed feature) +:+ " | " +:+
  show (FeatureSummary.skipped feature) +:+ " |" +:+ LF.

Definition runLink : string :=
  "(https://github.com/${GITHUB_REPOSITORY}/actions/runs/${GITHUB_RUN_ID})".

Definition generateComment (results : TestResults.t) : string :=
  let status := if (failedScenarios results =? 0)%nat then "✅" else "❌" in
  let statusText :=
    if (failedScenarios results =? 0)%nat then "**PASSED**" else "**FAILED**" in
  let comment := "## " +:+ status +:+ " Test Results " +:+ statusText +:+ LF +:+ LF in
  let comment := comment +:+ "### 📊 Summary" +:+ LF +:+ LF in
  let comment := comment +:+ "| Metric | Count |" +:+ LF in
  let comment := comment +:+ "|--------|-------|" +:+ LF in
  let comment :=
    comment +:+ "| **Total Scenarios** | " +:+ show (totalScenarios results) +:+ " |" +:+ LF in
  let comment :=
    comment +:+ "| ✅ Passed | " +:+ show (passedScenarios results) +:+ " |" +:+ LF in
  let comment :=
    comment +:+ "| ❌ Failed | " +:+ show (failedScenarios results) +:+ " |" +:+ LF in
  let comment :=
    comment +:+ "| ⏭️ Skipped | " +:+ show (skippedScenarios results) +:+ " |" +:+ LF in
  let comment :=
    comment +:+ "| **Pass Rate** | " +:+ passRate results +:+ "% |" +:+ LF in
  let comment :=
    comment +:+ "| **Duration** | " +:+ formatDuration (duration results) +:+ " |" +:+ LF +:+ LF in
  let comment :=
    if (0 <? length (features results))%nat then
      let comment := comment +:+ "### 📝 Features" +:+ LF +:+ LF in
      let comment :=
        comment +:+ "| Feature | Scenarios | ✅ Passed | ❌ Failed | ⏭️ Skipped |" +:+ LF in
      let comment :=
        comment +:+ "|---------|-----------|----------|----------|----------|" +:+ LF in
      let comment :=
        fold_left (fun comment feature => comment +:+ featureRow feature)
          (features results) comment in
      comment +:+ LF
    else comment in
  let comment :=
    if (0 <? failedScenarios results)%nat then
      let comment := comment +:+ "### 🔍 Action Required" +:+ LF +:+ LF in
      comment +:+ show (failedScenarios results) +:+
      " scenario(s) failed. Please review the test results and fix the failing tests." +:+
      LF +:+ LF
    else comment in
  let comment := comment +:+ "### 📦 Artifacts" +:+ LF +:+ LF in
  let comment := comment +:+ "- [📄 Full HTML Report]" +:+ runLink +:+ LF in
  let comment := comment +:+ "- [📊 Test Results JSON]" +:+ runLink +:+ LF in
  let comment :=
    if (0 <? failedScenarios results)%nat then
      let comment :=
        comment +:+ "- [📸 Screenshots]" +:+ runLink +:+
        " – open this run and download the " +:+ dquote +:+ "Screenshots" +:+ dquote +:+
        " artifact from the Artifacts section (if available)" +:+ LF in
      comment +:+ "- [🎥 Videos]" +:+ runLink +:+
      " – open this run and download the " +:+ dquote +:+ "Videos" +:+ dquote +:+
      " artifact from the Artifacts section (if available)" +:+ LF
    else comment in
  let comment := comment +:+ LF +:+ "---" +:+ LF in
  let comment := comment +:+ "*Generated by PICKL Test Automation* 🥒" +:+ LF in
  comment.
End WithNumberFormat.
End Report.

(** ** Reading the report and writing the comment *)

Module Script.
Import JsNumber TestResults Summarizer Report.

(** What a path of the file system holds. *)
Inductive Node := File (content : string) | Directory.

(** Thrown values: all of them are [Error] objects carrying a message. *)
Inductive exn :=
| Error (message : string)
| SyntaxError (message : string)
| SystemError (code : string) (message : string).

Definition message (e : exn) : string :=
  match e with
  | Error m | SyntaxError m | SystemError _ m => m
  end.

(** The outside world of the script: the files, and the calls of [debug],
    each with the text it passes.  What the debug package does with a text is
    not part of the world: it prints nothing unless its namespace is enabled,
    and otherwise expands the format directives of the text and adds a
    prefix. *)
Record World := {
  fs : gmap string Node;
  debugCalls : list string
}.

(** A call of [debug]: the text it passes is recorded as it is.  The call
    of the last statement of the script has two arguments, recorded as one
    text with a space between them. *)
Definition debug (line : string) (w : World) : World :=
  {| fs := fs w; debugCalls := debugCalls w ++ [line] |}.

Definition existsSync (files : gmap string Node) (path : string) : bool :=
  bool_decide (is_Some (files !! path)).

Definition readFile (files : gmap string Node) (path : string) : exn + string :=
  match files !! path with
  | Some (File content) => inr content
  | Some Directory =>
      inl (SystemError "EISDIR" "EISDIR: illegal operation on a directory, read")
  | None =>
      inl (SystemError "ENOENT"
             ("ENOENT: no such file or directory, open '" +:+ path +:+ "'"))
  end.

Definition writeFile (path content : string) (files : gmap string Node)
  : exn + gmap string Node :=
  match files !! path with
  | Some Directory =>
      inl (SystemError "EISDIR"
             ("EISDIR: illegal operation on a directory, open '" +:+ path +:+ "'"))
  | _ => inr (<[path := File content]> files)
  end.

Definition reportPath : string := "test-results/cucumber-report.json".

Section WithRuntime.
Context `{NumberFormat}.
(** [JSON.parse] followed by the cast to [CucumberFeature[]]: the decoded
    document, or the [SyntaxError] thrown for a text that is not JSON. *)
Variable JSON_parse : string -> exn + list CucumberFeature.t.

Definition parseTestResults (files : gmap string Node) : exn + TestResults.t :=
  if negb (existsSync files reportPath) then
    inl (Error ("Report file not found: " +:+ reportPath))
  else
    match readFile files reportPath with
    | inl e => inl e
    | inr content =>
        match JSON_parse content with
        | inl e => inl e
        | inr features => inr (summarize features)
        end
    end.

Definition generatePRComment (w : World) : World * (exn + unit) :=
  let w := debug "📊 Parsing test results..." w in
  match parseTestResults (fs w) with
  | inl e => (w, inl e)
  | inr results =>
      let w := debug "📝 Generating PR comment..." w in
      let comment := generateComment results in
      let w := debug comment w in
      match writeFile "test-results/pr-comment.md" comment (fs w) with
      | inl e => (w, inl e)
      | inr files =>
          let w := {| fs := files; debugCalls := debugCalls w |} in
          let w := debug "✅ PR comment generated: test-results/pr-comment.md" w in
          let w :=
            if (0 <? failedScenarios results)%nat then
              debug ("⚠️ Tests have " +:+ show (failedScenarios results) +:+
                     " failed scenario(s).") w
            else w in
          (w, inr ())
      end
  end.

(** The last statement of the script: a rejection is reported and ends
    the process with exit code [1]; otherwise the process is left to end
    normally ([None]). *)
Definition main (w : World) : World * option Z :=
  match generatePRComment w with
  | (w, inl error) =>
      (debug ("❌ Error generating PR comment: " +:+ message error) w, Some 1%Z)
  | (w, inr _) => (w, None)
  end.
End WithRuntime.
End Script.

(** ** The Aggregator: test/support/verbose-formatter.ts *)

(** [messages.TestStepResultStatus]. *)
Inductive TestStepResultStatus :=
  UNKNOWN | PASSED | SKIPPED | PENDING | UNDEFINED | AMBIGUOUS | FAILED.

Module TestStepResult.
Record t := { status : TestStepResultStatus }.
End TestStepResult.

Module TestStep.
Record t := { id : string; pickleStepId : option string }.
End TestStep.

Module PickleStep.
Record t := { id : string; text : string }.
End PickleStep.

Module Pickle.
Record t := { name : string; steps : list PickleStep.t }.
End Pickle.

Module TestCase.
Record t := { testSteps : option (list TestStep.t) }.
End TestCase.

(** What [eventDataCollector.getTestCaseAttempt] returns. *)
Module TestCaseAttempt.
Record t := {
  pickle : Pickle.t;
  testCase : option TestCase.t;
  worstTestStepResult : TestStepResult.t
}.
End TestCaseAttempt.

Module TestCaseStarted.
Record t := { id : string }.
End TestCaseStarted.

Module TestCaseFinished.
Record t := { testCaseStartedId : string }.
End TestCaseFinished.

Module TestStepStarted.
Record t := { testCaseStartedId : string; testStepId : string }.
End TestStepStarted.

Module TestStepFinished.
Record t := {
  testCaseStartedId : string;
  testStepId : string;
  testStepResult : TestStepResult.t
}.
End TestStepFinished.

(** [messages.Envelope]: every field is optional and the handler looks at
    each of them in turn. *)
Module Envelope.
Record t := {
  testRunStarted : option unit;
  testCaseStarted : option TestCaseStarted.t;
  testCaseFinished : option TestCaseFinished.t;
  testStepStarted : option TestStepStarted.t;
  testStepFinished : option TestStepFinished.t;
  testRunFinished : option unit
}.
End Envelope.

Module VerboseFormatter.
Import JsNumber.

(** The private fields of the class, and what [this.log] has written. *)
Record t := {
  passedCount : nat;
  failedCount : nat;
  skippedCount : nat;
  totalSteps : nat;
  startTime : Z;
  scenariosPassed : nat;
  scenariosFailed : nat;
  scenariosSkipped : nat;
  totalScenarios : nat;
  output : list string
}.

Definition initial : t :=
  {| passedCount := 0; failedCount := 0; skippedCount := 0; totalSteps := 0;
     startTime := 0; scenariosPassed := 0; scenariosFailed := 0;
     scenariosSkipped := 0; totalScenarios := 0; output := [] |}.

Definition set_passedCount (v : nat) (f : t) : t :=
  {| passedCount := v; failedCount := failedCount f;
     skippedCount := skippedCount f; totalSteps := totalSteps f;
     startTime := startTime f; scenariosPassed := scenariosPassed f;
     scenariosFailed := scenariosFailed f; scenariosSkipped := scenariosSkipped f;
     totalScenarios := totalScenarios f; output := output f |}.
Definition set_failedCount (v : nat) (f : t) : t :=
  {| passedCount := passedCount f; failedCount := v;
     skippedCount := skippedCount f; totalSteps := totalSteps f;
     startTime := startTime f; scenariosPassed := scenariosPassed f;
     scenariosFailed := scenariosFailed f; scenariosSkipped := scenariosSkipped f;
     totalScenarios := totalScenarios f; output := output f |}.
Definition set_skippedCount (v : nat) (f : t) : t :=
  {| passedCount := passedCount f; failedCount := failedCount f;
     skippedCount := v; totalSteps := totalSteps f;
     startTime := startTime f; scenariosPassed := scenariosPassed f;
     scenariosFailed := scenariosFailed f; scenariosSkipped := scenariosSkipped f;
     totalScenarios := totalScenarios f; output := output f |}.
Definition set_totalSteps (v : nat) (f : t) : t :=
  {| passedCount := passedCount f; failedCount := failedCount f;
     skippedCount := skippedCount f; totalSteps := v;
     startTime := startTime f; scenariosPassed := scenariosPassed f;
     scenariosFailed := scenariosFailed f; scenariosSkipped := scenariosSkipped f;
     totalScenarios := totalScenarios f; output := output f |}.
Definition set_startTime (v : Z) (f : t) : t :=
  {| passedCount := passedCount f; failedCount := failedCount f;
     skippedCount := skippedCount f; totalSteps := totalSteps f;
     startTime := v; scenariosPassed := scenariosPassed f;
     scenariosFailed := scenariosFailed f; scenariosSkipped := scenariosSkipped f;
     totalScenarios := totalScenarios f; output := output f |}.
Definition set_scenariosPassed (v : nat) (f : t) : t :=
  {| passedCount := passedCount f; failedCount := failedCount f;
     skippedCount := skippedCount f; totalSteps := totalSteps f;
     startTime := startTime f; scenariosPassed := v;
     scenariosFailed := scenariosFailed f; scenariosSkipped := scenariosSkipped f;
     totalScenarios := totalScenarios f; output := output f |}.
Definition set_scenariosFailed (v : nat) (f : t) : t :=
  {| passedCount := passedCount f; failedCount := failedCount f;
     skippedCount := skippedCount f; totalSteps := totalSteps f;
     startTime := startTime f; scenariosPassed := scenariosPassed f;
     scenariosFailed := v; scenariosSkipped := scenariosSkipped f;
     totalScenarios := totalScenarios f; output := output f |}.
Definition set_scenariosSkipped (v : nat) (f : t) : t :=
  {| passedCount := passedCount f; failedCount := failedCount f;
     skippedCount := skippedCount f; totalSteps := totalSteps f;
     startTime := startTime f; scenariosPassed := scenariosPassed f;
     scenariosFailed := scenariosFailed f; scenariosSkipped := v;
     totalScenarios := totalScenarios f; output := output f |}.
Definition set_totalScenarios (v : nat) (f : t) : t :=
  {| passedCount := passedCount f; failedCount := failedCount f;
     skippedCount := skippedCount f; totalSteps := totalSteps f;
     startTime := startTime f; scenariosPassed := scenariosPassed f;
     scenariosFailed := scenariosFailed f; scenariosSkipped := scenariosSkipped f;
     totalScenarios := v; output := output f |}.

(** [this.log(text)] appends to the formatter's stream. *)
Definition log (text : string) (f : t) : t :=
  {| passedCount := passedCount f; failedCount := failedCount f;
     skippedCount := skippedCount f; totalSteps := totalSteps f;
     startTime := startTime f; scenariosPassed := scenariosPassed f;
     scenariosFailed := scenariosFailed f; scenariosSkipped := scenariosSkipped f;
     totalScenarios := totalScenarios f; output := output f ++ [text] |}.

Definition LF : string := String "010" "".
Definition CR : string := String "013" "".
Definition ESC : string := String "027" "".

Definition show (n : nat) : string := decimal (N.of_nat n).

(** What a handler can throw. *)
Inductive exn := TypeError (message : string).

(** [eventDataCollector.getTestCaseAttempt(testCaseStartedId)].  The state
    of the event data collector of cucumber is the test case attempts by
    [testCaseStartedId].  The collector reads a property of the entry of the
    identifier, so for an identifier without entry it throws a [TypeError]
    instead of returning [undefined]. *)
Definition getTestCaseAttempt (collector : gmap string TestCaseAttempt.t)
    (testCaseStartedId : string) : exn + TestCaseAttempt.t :=
  match collector !! testCaseStartedId with
  | Some testCase => inr testCase
  | None =>
      inl (TypeError "Cannot read properties of undefined (reading 'testCaseId')")
  end.

(** The formatter after a call of a handler: the one that the call leaves
    when it returns, and the one it was called on when it throws.  The
    handlers can only throw in the lookup of the collector, which comes
    first, before a field is assigned or anything is written. *)
Definition formatterAfter (f : t) (outcome : exn + t) : t :=
  match outcome with
  | inr f' => f'
  | inl _ => f
  end.

(** Truthiness of an optional string: [undefined] and [''] are falsy. *)
Definition truthy (s : option string) : option string :=
  match s with
  | Some "" => None
  | other => other
  end.

(** [testCase.testCase?.testSteps?.find(s => s.id === testStepId)]. *)
Definition findTestStep (testCase : TestCaseAttempt.t) (testStepId : string)
  : option TestStep.t :=
  match TestCaseAttempt.testCase testCase with
  | Some tc =>
      match TestCase.testSteps tc with
      | Some testSteps =>
          find (fun s => String.eqb (TestStep.id s) testStepId) testSteps
      | None => None
      end
  | None => None
  end.

(** [testCase.pickle.steps.find(s => s.id === pickleStepId)]. *)
Definition findGherkinStep (testCase : TestCaseAttempt.t) (pickleStepId : string)
  : option PickleStep.t :=
  find (fun s => String.eqb (PickleStep.id s) pickleStepId)
    (Pickle.steps (TestCaseAttempt.pickle testCase)).

Section WithCollector.
Variable collector : gmap string TestCaseAttempt.t.

(** Each handler that asks the collector is given twice: [_call] is the
    call as it runs, with the error it throws or the formatter it leaves
    when it returns; the handler under its own name is the formatter after
    the call, returned or thrown.  What the collector returns is an object,
    so the test [if (testCase)] that follows the lookup always passes. *)
Definition logTestCaseStarted_call (testCaseStarted : TestCaseStarted.t) (f : t)
  : exn + t :=
  match getTestCaseAttempt collector (TestCaseStarted.id testCaseStarted) with
  | inl error => inl error
  | inr testCase =>
      inr (log (LF +:+ "▶️  Running: " +:+
                Pickle.name (TestCaseAttempt.pickle testCase) +:+ LF) f)
  end.

Definition logTestCaseStarted (testCaseStarted : TestCaseStarted.t) (f : t) : t :=
  formatterAfter f (logTestCaseStarted_call testCaseStarted f).

Definition trackScenarioResult_call (testCaseFinished : TestCaseFinished.t) (f : t)
  : exn + t :=
  match getTestCaseAttempt collector
          (TestCaseFinished.testCaseStartedId testCaseFinished) with
  | inl error => inl error
  | inr testCase =>
      let f := set_totalScenarios (S (totalScenarios f)) f in
      let worstResult := TestCaseAttempt.worstTestStepResult testCase in
      let status := TestStepResult.status worstResult in
      inr match status with
          | PASSED => set_scenariosPassed (S (scenariosPassed f)) f
          | FAILED => set_scenariosFailed (S (scenariosFailed f)) f
          | SKIPPED => set_scenariosSkipped (S (scenariosSkipped f)) f
          | _ => f
          end
  end.

Definition trackScenarioResult (testCaseFinished : TestCaseFinished.t) (f : t) : t :=
  formatterAfter f (trackScenarioResult_call testCaseFinished f).

Definition logTestStepStarted_call (testStepStarted : TestStepStarted.t) (f : t)
  : exn + t :=
  match getTestCaseAttempt collector
          (TestStepStarted.testCaseStartedId testStepStarted) with
  | inl error => inl error
  | inr testCase =>
      let testStep :=
        findTestStep testCase (TestStepStarted.testStepId testStepStarted) in
      match truthy (testStep ≫= TestStep.pickleStepId) with
      | Some pickleStepId =>
          let gherkinStep := findGherkinStep testCase pickleStepId in
          match truthy (PickleStep.text <$> gherkinStep) with
          | Some text => inr (log ("  ⏳ " +:+ text) f)
          | None => inr f
          end
      | None => inr f
      end
  end.

Definition logTestStepStarted (testStepStarted : TestStepStarted.t) (f : t) : t :=
  formatterAfter f (logTestStepStarted_call testStepStarted f).

Definition getStatusIcon (status : TestStepResultStatus) : string :=
  match status with
  | PASSED => "✅"
  | FAILED => "❌"
  | SKIPPED => "⊘"
  | _ => "⚠️"
  end.

Definition updateStepCounts (status : TestStepResultStatus) (f : t) : t :=
  let f := set_totalSteps (S (totalSteps f)) f in
  match status with
  | PASSED => set_passedCount (S (passedCount f)) f
  | FAILED => set_failedCount (S (failedCount f)) f
  | SKIPPED => set_skippedCount (S (skippedCount f)) f
  | _ => f
  end.

Definition logTestStepFinished_call (testStepFinished : TestStepFinished.t) (f : t)
  : exn + t :=
  match getTestCaseAttempt collector
          (TestStepFinished.testCaseStartedId testStepFinished) with
  | inl error => inl error
  | inr testCase =>
      let testStep :=
        findTestStep testCase (TestStepFinished.testStepId testStepFinished) in
      match truthy (testStep ≫= TestStep.pickleStepId) with
      | None => inr f
      | Some pickleStepId =>
          let gherkinStep := findGherkinStep testCase pickleStepId in
          match truthy (PickleStep.text <$> gherkinStep) with
          | None => inr f
          | Some text =>
              let status :=
                TestStepResult.status
                  (TestStepFinished.testStepResult testStepFinished) in
              let icon := getStatusIcon status in
              let f := updateStepCounts status f in
              inr (log (CR +:+ ESC +:+ "[K  " +:+ icon +:+ " " +:+ text +:+ LF) f)
          end
      end
  end.

Definition logTestStepFinished (testStepFinished : TestStepFinished.t) (f : t) : t :=
  formatterAfter f (logTestStepFinished_call testStepFinished f).
End WithCollector.

Section WithNumberFormat.
Context `{NumberFormat}.

(** [now] is what [Date.now()] returns during the call. *)
Definition logTestRunFinished (now : Z) (f : t) : t :=
  let duration :=
    toFixed 3 (div (sub (of_Z now) (of_Z (startTime f))) (of_Z 1000)) in
  let f := log (LF +:+ "Test Execution Summary:") f in
  let f :=
    log (LF +:+ show (totalScenarios f) +:+ " scenarios (" +:+
         show (scenariosPassed f) +:+ " passed") f in
  let f :=
    if (0 <? scenariosFailed f)%nat
    then log (", " +:+ show (scenariosFailed f) +:+ " failed") f else f in
  let f :=
    if (0 <? scenariosSkipped f)%nat
    then log (", " +:+ show (scenariosSkipped f) +:+ " skipped") f else f in
  let f := log (")" +:+ LF) f in
  let f :=
    log (show (totalSteps f) +:+ " steps (" +:+
         show (passedCount f) +:+ " passed") f in
  let f :=
    if (0 <? failedCount f)%nat
    then log (", " +:+ show (failedCount f) +:+ " failed") f else f in
  let f :=
    if (0 <? skippedCount f)%nat
    then log (", " +:+ show (skippedCount f) +:+ " skipped") f else f in
  log (")" +:+ LF +:+ duration +:+ "s" +:+ LF) f.

(** The ['envelope'] listener registered by the constructor, as the
    formatter after it has handled the envelope.  [collector] is the state of
    the event data collector and [now] the clock when the envelope is
    delivered.  An envelope of cucumber carries one message, so that at most
    one handler runs and nothing follows a handler that throws. *)
Definition onEnvelope (collector : gmap string TestCaseAttempt.t) (now : Z)
    (envelope : Envelope.t) (f : t) : t :=
  let f :=
    match Envelope.testRunStarted envelope with
    | Some _ => set_startTime now f
    | None => f
    end in
  let f :=
    match Envelope.testCaseStarted envelope with
    | Some m => logTestCaseStarted collector m f
    | None => f
    end in
  let f :=
    match Envelope.testCaseFinished envelope with
    | Some m => trackScenarioResult collector m f
    | None => f
    end in
  let f :=
    match Envelope.testStepStarted envelope with
    | Some m => logTestStepStarted collector m f
    | None => f
    end in
  let f :=
    match Envelope.testStepFinished envelope with
    | Some m => logTestStepFinished collector m f
    | None => f
    end in
  match Envelope.testRunFinished envelope with
  | Some _ => logTestRunFinished now f
  | None => f
  end.

(** One delivery: the collector, the clock and the envelope. *)
Definition delivery : Type := gmap string TestCaseAttempt.t * Z * Envelope.t.

Definition deliver (f : t) (d : delivery) : t :=
  let '(collector, now, envelope) := d in onEnvelope collector now envelope f.

(** The formatter after a sequence of deliveries. *)
Definition run (events : list delivery) (f : t) : t :=
  fold_left deliver events f.
End WithNumberFormat.
End VerboseFormatter.

(** ** Notions used to state the properties *)

Module Counting.
Import TestResults Summarizer.

(** The feature elements that count: those whose [type] is exactly
    ["scenario"]. *)
Definition countable (scenario : CucumberScenario.t) : Prop :=
  CucumberScenario.type scenario = "scenario".

#[global] Instance countable_dec scenario : Decision (countable scenario).
Proof. unfold countable. apply _. Defined.

Definition countableScenarios (feature : CucumberFeature.t)
  : list CucumberScenario.t :=
  filter countable (CucumberFeature.elements feature).

(** The steps of the countable scenarios of a document, in input order. *)
Definition countedSteps (doc : list CucumberFeature.t) : list CucumberStep.t :=
  doc ≫= (fun feature => countableScenarios feature ≫= CucumberScenario.steps).

(** How many steps carry the status [s]. *)
Definition stepsWithStatus (s : string) (steps : list CucumberStep.t) : nat :=
  length (filter (fun step => step_status step = s) steps).

(** A status outside the three named ones. *)
Definition unrecognized (s : string) : Prop :=
  s ≠ "passed" ∧ s ≠ "failed" ∧ s ≠ "skipped".

(** Durations added from left to right, a missing one counting as [+0]. *)
Definition addDurations (start : JsNumber.number) (steps : list CucumberStep.t)
  : JsNumber.number :=
  fold_left
    (fun total step =>
       JsNumber.add total
         (default (S754_zero false)
            (CucumberStep.duration (CucumberStep.result step))))
    steps start.

#[global] Instance ScenarioStatus_eq_dec : EqDecision ScenarioStatus.
Proof. solve_decision. Defined.

(** How many scenarios of a list are given the status [s]. *)
Definition scenariosWithStatus (s : ScenarioStatus)
    (scenarios : list CucumberScenario.t) : nat :=
  length
    (filter
       (fun scenario =>
          determineScenarioStatus (CucumberScenario.steps scenario) = s)
       scenarios).

(** The breakdown entry of a feature, from its countable scenarios. *)
Definition summaryOf (feature : CucumberFeature.t) : FeatureSummary.t :=
  let counted := countableScenarios feature in
  {| FeatureSummary.name := CucumberFeature.name feature;
     FeatureSummary.scenarios := length counted;
     FeatureSummary.passed := scenariosWithStatus passed counted;
     FeatureSummary.failed := scenariosWithStatus failed counted;
     FeatureSummary.skipped := scenariosWithStatus skipped counted |}.

(** The features that have at least one countable scenario. *)
Definition reported (doc : list CucumberFeature.t) : list CucumberFeature.t :=
  filter (fun feature => countableScenarios feature ≠ []) doc.

(** A feature with its elements that do not count removed. *)
Definition onlyCountable (feature : CucumberFeature.t) : CucumberFeature.t :=
  {| CucumberFeature.name := CucumberFeature.name feature;
     CucumberFeature.elements := countableScenarios feature |}.

(** The counters after the countable scenarios [counted] have been
    processed, in closed form: for the feature under construction and for
    the global results. *)
Definition tallyFeature (counted : list CucumberScenario.t)
    (entry : FeatureSummary.t) : FeatureSummary.t :=
  {| FeatureSummary.name := FeatureSummary.name entry;
     FeatureSummary.scenarios := FeatureSummary.scenarios entry + length counted;
     FeatureSummary.passed :=
       FeatureSummary.passed entry + scenariosWithStatus passed counted;
     FeatureSummary.failed :=
       FeatureSummary.failed entry + scenariosWithStatus failed counted;
     FeatureSummary.skipped :=
       FeatureSummary.skipped entry + scenariosWithStatus skipped counted |}.

Definition tallyResults (counted : list CucumberScenario.t)
    (results : TestResults.t) : TestResults.t :=
  let steps := counted ≫= CucumberScenario.steps in
  {| totalScenarios := totalScenarios results + length counted;
     passedScenarios := passedScenarios results + scenariosWithStatus passed counted;
     failedScenarios := failedScenarios results + scenariosWithStatus failed counted;
     skippedScenarios :=
       skippedScenarios results + scenariosWithStatus skipped counted;
     totalSteps := totalSteps results + length steps;
     passedSteps := passedSteps results + stepsWithStatus "passed" steps;
     failedSteps := failedSteps results + stepsWithStatus "failed" steps;
     skippedSteps := skippedSteps results + stepsWithStatus "skipped" steps;
     duration := addDurations (duration results) steps;
     features := features results |}.

(** [1] when the derived status of a scenario is [s], [0] otherwise. *)
Definition bucket (s status : ScenarioStatus) : nat :=
  if decide (s = status) then 1 else 0.

#[global] Instance unrecognized_dec s : Decision (unrecognized s).
Proof. unfold unrecognized. apply _. Defined.

(** How many steps carry a status outside the three named ones. *)
Definition unrecognizedSteps (steps : list CucumberStep.t) : nat :=
  length (filter (fun step => unrecognized (step_status step)) steps).

Definition sumOf (field : FeatureSummary.t -> nat)
    (breakdown : list FeatureSummary.t) : nat :=
  foldr (fun entry total => field entry + total) 0 breakdown.

End Counting.

Module Tracking.
Import VerboseFormatter.

(** The display text that the identifiers of a step-finished message
    resolve to: the test case attempt of the case identifier, in it the test
    step of the step identifier and its pickle step, and the text of that
    pickle step; [None] as soon as one of them is missing or empty. *)
Definition resolveStepText (collector : gmap string TestCaseAttempt.t)
    (m : TestStepFinished.t) : option string :=
  match getTestCaseAttempt collector (TestStepFinished.testCaseStartedId m) with
  | inl _ => None
  | inr testCase =>
      match truthy (findTestStep testCase (TestStepFinished.testStepId m)
                      ≫= TestStep.pickleStepId) with
      | None => None
      | Some pickleStepId =>
          truthy (PickleStep.text <$> findGherkinStep testCase pickleStepId)
      end
  end.

(** The statuses with a counter of their own. *)
Definition named (status : TestStepResultStatus) : Prop :=
  status = PASSED ∨ status = FAILED ∨ status = SKIPPED.

#[global] Instance TestStepResultStatus_eq_dec : EqDecision TestStepResultStatus.
Proof. solve_decision. Defined.

#[global] Instance named_dec status : Decision (named status).
Proof. unfold named. apply _. Defined.

(** The status of the step that a delivery counts, if it counts one: the
    envelope carries a step-finished message and its identifiers resolve. *)
Definition countedStatus (d : delivery) : option TestStepResultStatus :=
  let '(collector, _, envelope) := d in
  match Envelope.testStepFinished envelope with
  | None => None
  | Some m =>
      match resolveStepText collector m with
      | None => None
      | Some _ => Some (TestStepResult.status (TestStepFinished.testStepResult m))
      end
  end.

(** The statuses of the counted steps of a sequence of deliveries. *)
Definition countedStatuses (events : list delivery) : list TestStepResultStatus :=
  omap countedStatus events.

Definition withStatus (status : TestStepResultStatus)
    (statuses : list TestStepResultStatus) : nat :=
  length (filter (fun s => s = status) statuses).

(** The counted steps whose status is none of passed, failed, skipped. *)
Definition unrecognizedCount (statuses : list TestStepResultStatus) : nat :=
  length (filter (fun s => ¬ named s) statuses).

(** The invariant of the step counters, with [extra] the number of counted
    steps that went to none of the three named counters. *)
Definition stepCountersAddUp (f : VerboseFormatter.t) (extra : nat) : Prop :=
  totalSteps f = passedCount f + failedCount f + skippedCount f + extra.

(** Two states of the formatter with the same step counters. *)
Definition sameStepCounters (f f' : VerboseFormatter.t) : Prop :=
  totalSteps f' = totalSteps f ∧ passedCount f' = passedCount f ∧
  failedCount f' = failedCount f ∧ skippedCount f' = skippedCount f.

(** An envelope that carries a single message. *)
Definition caseFinishedEnvelope (m : TestCaseFinished.t) : Envelope.t :=
  {| Envelope.testRunStarted := None; Envelope.testCaseStarted := None;
     Envelope.testCaseFinished := Some m; Envelope.testStepStarted := None;
     Envelope.testStepFinished := None; Envelope.testRunFinished := None |}.

Definition stepFinishedEnvelope (m : TestStepFinished.t) : Envelope.t :=
  {| Envelope.testRunStarted := None; Envelope.testCaseStarted := None;
     Envelope.testCaseFinished := None; Envelope.testStepStarted := None;
     Envelope.testStepFinished := Some m; Envelope.testRunFinished := None |}.

End Tracking.

(** ** Concrete inputs for the examples *)

Module Examples.
Import JsNumber Script.

(** A rendering for the numbers that need the shortest decimal; none of the
    examples reaches it. *)
Definition unprinted : NumberFormat := fun _ => "".

(** A decoder that accepts no text. *)
Definition rejectAll (text : string) : exn + list CucumberFeature.t :=
  inl (SyntaxError "Unexpected token").

(** A world without any file. *)
Definition emptyWorld : World := {| fs := ∅; debugCalls := [] |}.

Definition stepWith (status : string) (nanoseconds : Z) : CucumberStep.t :=
  {| CucumberStep.result :=
       {| CucumberStep.status := status;
          CucumberStep.duration := Some (of_Z nanoseconds);
          CucumberStep.error_message := None |} |}.

Definition scenarioWith (steps : list CucumberStep.t) : CucumberScenario.t :=
  {| CucumberScenario.name := "a scenario"; CucumberScenario.type := "scenario";
     CucumberScenario.steps := steps; CucumberScenario.tags := None |}.

(** Three scenarios, two passed and one failed. *)
Definition twoOfThree : list CucumberFeature.t :=
  [ {| CucumberFeature.name := "login";
       CucumberFeature.elements :=
         [ scenarioWith [stepWith "passed" 1000; stepWith "passed" 2000];
           scenarioWith [stepWith "passed" 1000; stepWith "failed" 500;
                         stepWith "skipped" 0];
           scenarioWith [stepWith "passed" 3000] ] |} ].

End Examples.

(** ** Notions used to state the rounding of numbers *)

Module Rounding.
Local Open Scope Z_scope.

(** [located m l X]: the real [X] lies in the unit interval that starts at
    [m], at the place that the location [l] tells: on [m], below the middle,
    on the middle, or above it. *)
Definition located (m : Z) (l : location) (X : R) : Prop :=
  match l with
  | loc_Exact => X = IZR m
  | loc_Inexact Lt => (IZR m < X < IZR m + 1/2)%R
  | loc_Inexact Eq => X = (IZR m + 1/2)%R
  | loc_Inexact Gt => (IZR m + 1/2 < X < IZR m + 1)%R
  end.

(** Powers of two with an integer exponent. *)
Definition pow2 (e : Z) : R := powerRZ 2 e.

(** The value of a finite number. *)
Definition F2R (m e : Z) : R := (IZR m * pow2 e)%R.

(** What a correctly rounded operation returns for the exact result [x]:
    a normal number [m * 2^e] within half a unit in the last place of [x],
    and on the right side of every number of its own grid. *)
Definition rounds_to (x : R) (m : positive) (e : Z) : Prop :=
  2 ^ 52 <= Z.pos m < 2 ^ 53 /\
  (- (pow2 e / 2) <= F2R (Z.pos m) e - x <= pow2 e / 2)%R /\
  (forall g : Z, (F2R g e <= x)%R -> g <= Z.pos m) /\
  (forall g : Z, (x <= F2R g e)%R -> Z.pos m <= g).

End Rounding.

(** ** The runner: scripts/run-test.ts *)

Module Runner.

Definition dquote : string := String "034" "".

(** [arg && !arg.startsWith('--')]: the argument is not empty and is not
    an option. *)
Definition isPath (arg : string) : bool :=
  negb (String.eqb arg "") && negb (String.prefix "--" arg).

(** The loop [for (let i = 0; i < args.length; i++)] from the index where
    [args] begins: [arg] is [args[i]] and the head of [rest], if any, is
    [args[i + 1]], which counts as a tag value when it is not empty; the
    index then moves by two, and by one otherwise.  The result is the final
    [featurePath] and [cliTags]. *)
Fixpoint processArguments (args : list string) (featurePath cliTags : string)
  : string * string :=
  match args with
  | [] => (featurePath, cliTags)
  | arg :: rest =>
      let otherwise :=
        if isPath arg then processArguments rest arg cliTags
        else processArguments rest featurePath cliTags in
      match rest with
      | next :: rest' =>
          if String.eqb arg "--tags" && negb (String.eqb next "") then
            processArguments rest' featurePath next
          else otherwise
      | [] => otherwise
      end
  end.

(** [tagsOption]; [TAGS] is [process.env.TAGS], which is not set or a
    string. *)
Definition tagsOption (cliTags : string) (TAGS : option string) : string :=
  if negb (String.eqb cliTags "") then
    "--tags " +:+ dquote +:+ cliTags +:+ dquote
  else
    match TAGS with
    | Some tags =>
        if negb (String.eqb tags "") then "--tags " +:+ dquote +:+ tags +:+ dquote
        else ""
    | None => ""
    end.

Definition command (tagsOption featurePath : string) : string :=
  "cross-env NODE_OPTIONS=" +:+ dquote +:+ "--import tsx --import dotenv/config" +:+
  dquote +:+
  " cucumber-js --config cucumber.js --import 'test/support/**/*.ts' --import 'test/steps/**/*.ts' --format ./test/support/verbose-formatter.ts --format json:test-results/cucumber-report.json " +:+
  tagsOption +:+ " " +:+ featurePath.

(** The command that the script runs for the arguments [args]
    ([process.argv.slice(2)]) and the environment variable [TAGS]. *)
Definition commandFor (args : list string) (TAGS : option string) : string :=
  let '(featurePath, cliTags) := processArguments args "test/features/" "" in
  command (tagsOption cliTags TAGS) featurePath.

End Runner.

(** ** Notions used to state the further properties *)

Module CommandLine.
Import Runner.

(** The arguments that can be taken as the feature path. *)
Definition paths (args : list string) : list string :=
  filter (fun arg => isPath arg = true) args.

End CommandLine.

Module Files.

(** The path of the comment file, as written in [generatePRComment]. *)
Definition commentPath : string := "test-results/pr-comment.md".

End Files.

Module Durations.
Import JsNumber.
Local Open Scope Z_scope.

(** What [processStep] adds to the duration for a step: its [duration], or
    [+0] when it has none. *)
Definition addedDuration (step : CucumberStep.t) : number :=
  default (S754_zero false) (CucumberStep.duration (CucumberStep.result step)).

(** A step that lasted a whole number [d] of nanoseconds (a step without a
    duration lasts [0]). *)
Definition lastsFor (step : CucumberStep.t) (d : Z) : Prop :=
  0 <= d /\ addedDuration step = of_Z d.

Definition total (ds : list Z) : Z := foldr Z.add 0 ds.

End Durations.

Module Severity.

(** The statuses of a scenario from the mildest to the worst. *)
Definition severity (s : ScenarioStatus) : nat :=
  match s with
  | passed => 0
  | skipped => 1
  | failed => 2
  end.

End Severity.

Module ScenarioTracking.
Import VerboseFormatter.

(** The worst step status of the scenario that a delivery counts, if it
    counts one: the envelope carries a case-finished message whose case
    identifier is known to the collector. *)
Definition countedWorst (d : delivery) : option TestStepResultStatus :=
  let '(collector, _, envelope) := d in
  match Envelope.testCaseFinished envelope with
  | None => None
  | Some m =>
      match getTestCaseAttempt collector (TestCaseFinished.testCaseStartedId m) with
      | inl _ => None
      | inr testCase =>
          Some (TestStepResult.status (TestCaseAttempt.worstTestStepResult testCase))
      end
  end.

Definition countedWorsts (events : list delivery) : list TestStepResultStatus :=
  omap countedWorst events.

(** The step-finished message that ends the step of a step-started one. *)
Definition finishing (m : TestStepStarted.t) (result : TestStepResult.t)
  : TestStepFinished.t :=
  {| TestStepFinished.testCaseStartedId := TestStepStarted.testCaseStartedId m;
     TestStepFinished.testStepId := TestStepStarted.testStepId m;
     TestStepFinished.testStepResult := result |}.

(** A delivery that sets the clock of the run. *)
Definition startsRun (d : delivery) : Prop :=
  let '(_, _, envelope) := d in is_Some (Envelope.testRunStarted envelope).

#[global] Instance startsRun_dec d : Decision (startsRun d).
Proof. destruct d as [[? ?] ?]. unfold startsRun. apply _. Defined.




(** The lines that [logTestRunFinished] writes for three counters: the
    total with the passed count, then the failed and the skipped counts
    when they are not zero. *)
Definition countLines (lead : string) (passedOnes failedOnes skippedOnes : nat)
  : list string :=
  [lead +:+ show passedOnes +:+ " passed"] ++
  (if (0 <? failedOnes)%nat then [", " +:+ show failedOnes +:+ " failed"] else []) ++
  (if (0 <? skippedOnes)%nat then [", " +:+ show skippedOnes +:+ " skipped"] else []).

(** Two states of the formatter with the same scenario counters. *)
Definition sameScenarioCounters (f f' : VerboseFormatter.t) : Prop :=
  totalScenarios f' = totalScenarios f ∧ scenariosPassed f' = scenariosPassed f ∧
  scenariosFailed f' = scenariosFailed f ∧ scenariosSkipped f' = scenariosSkipped f.

(** The eight counters of the formatter, none of them smaller in [f']. *)
Definition countersGrow (f f' : VerboseFormatter.t) : Prop :=
  (passedCount f <= passedCount f' ∧ failedCount f <= failedCount f' ∧
   skippedCount f <= skippedCount f' ∧ totalSteps f <= totalSteps f' ∧
   scenariosPassed f <= scenariosPassed f' ∧
   scenariosFailed f <= scenariosFailed f' ∧
   scenariosSkipped f <= scenariosSkipped f' ∧
   totalScenarios f <= totalScenarios f')%nat.

End ScenarioTracking.

Module Samples.
Import JsNumber Script.

(** A feature with one scenario of one passed step that lasted
    [nanoseconds]. *)
Definition lasting (nanoseconds : Z) : CucumberFeature.t :=
  {| CucumberFeature.name := "a feature";
     CucumberFeature.elements :=
       [Examples.scenarioWith [Examples.stepWith "passed" nanoseconds]] |}.

(** A decoder that reads every text as the document [doc]. *)
Definition decodeAs (doc : list CucumberFeature.t) (text : string)
  : exn + list CucumberFeature.t := inr doc.

(** A world whose only file is a report. *)
Definition reportOnly : World :=
  {| fs := {[ reportPath := File "[]" ]}; debugCalls := [] |}.

End Samples.

(** * Properties of the Summarizer *)

Module SummarizerFacts.
Import TestResults Summarizer Counting.

Lemma stepsWithStatus_cons s step steps :
  stepsWithStatus s (step :: steps) =
  (if decide (step_status step = s) then 1 else 0) + stepsWithStatus s steps.
Proof.
  unfold stepsWithStatus. rewrite filter_cons.
  destruct (decide (step_status step = s)); reflexivity.
Qed.

Lemma stepsWithStatus_app s l1 l2 :
  stepsWithStatus s (l1 ++ l2) = stepsWithStatus s l1 + stepsWithStatus s l2.
Proof. unfold stepsWithStatus. by rewrite filter_app, length_app. Qed.

Lemma addDurations_app start l1 l2 :
  addDurations start (l1 ++ l2) = addDurations (addDurations start l1) l2.
Proof. unfold addDurations. apply fold_left_app. Qed.

Lemma scenariosWithStatus_cons s scenario scenarios :
  scenariosWithStatus s (scenario :: scenarios) =
  (if decide (determineScenarioStatus (CucumberScenario.steps scenario) = s)
   then 1 else 0) + scenariosWithStatus s scenarios.
Proof.
  unfold scenariosWithStatus. rewrite filter_cons.
  destruct (decide (_ = s)); reflexivity.
Qed.

(** The three comparisons of [processStep], decided at once. *)
Lemma status_cases (s : string) :
  (s = "passed" ∧ String.eqb s "passed" = true) ∨
  (s = "failed" ∧ String.eqb s "passed" = false ∧ String.eqb s "failed" = true) ∨
  (s = "skipped" ∧ String.eqb s "passed" = false ∧ String.eqb s "failed" = false
   ∧ String.eqb s "skipped" = true) ∨
  (unrecognized s ∧ String.eqb s "passed" = false ∧ String.eqb s "failed" = false
   ∧ String.eqb s "skipped" = false).
Proof.
  unfold unrecognized.
  destruct (String.eqb_spec s "passed") as [-> | Hp]; [by left |].
  destruct (String.eqb_spec s "failed") as [-> | Hf]; [right; by left |].
  destruct (String.eqb_spec s "skipped") as [-> | Hs]; [right; right; by left |].
  right; right; right. done.
Qed.

Ltac status_split s :=
  let E := fresh "E" in
  destruct (status_cases s)
    as [[E ?] | [[E [? ?]] | [[E [? [? ?]]] | [[? [? ?]] [? [? ?]]]]]].

(** The loop over the steps of one scenario, in closed form. *)
Lemma fold_processStep steps : ∀ results,
  fold_left (fun results step => processStep step results) steps results =
  {| totalScenarios := totalScenarios results;
     passedScenarios := passedScenarios results;
     failedScenarios := failedScenarios results;
     skippedScenarios := skippedScenarios results;
     totalSteps := totalSteps results + length steps;
     passedSteps := passedSteps results + stepsWithStatus "passed" steps;
     failedSteps := failedSteps results + stepsWithStatus "failed" steps;
     skippedSteps := skippedSteps results + stepsWithStatus "skipped" steps;
     duration := addDurations (duration results) steps;
     features := features results |}.
Proof.
  induction steps as [| step steps IH]; intros results.
  - destruct results; simpl. unfold stepsWithStatus; simpl.
    f_equal; lia.
  - cbn [fold_left]. rewrite IH. rewrite !stepsWithStatus_cons.
    unfold processStep.
    status_split (step_status step);
      repeat match goal with H : String.eqb _ _ = _ |- _ => rewrite H; clear H end;
      repeat case_decide; try congruence; simpl;
      try (unfold unrecognized in *; tauto);
      f_equal; lia.
Qed.

Lemma tallyFeature_nil entry : tallyFeature [] entry = entry.
Proof.
  destruct entry; unfold tallyFeature, scenariosWithStatus; simpl.
  f_equal; lia.
Qed.

Lemma tallyResults_nil results : tallyResults [] results = results.
Proof.
  destruct results; unfold tallyResults, scenariosWithStatus, stepsWithStatus; simpl.
  f_equal; lia.
Qed.

(** One scenario that counts, in closed form. *)
Lemma processScenario_countable entry results scenario :
  countable scenario →
  processScenario (entry, results) scenario =
  (tallyFeature [scenario] entry, tallyResults [scenario] results).
Proof.
  intros Hc. unfold processScenario.
  replace (String.eqb (CucumberScenario.type scenario) "scenario") with true
    by (symmetry; by apply String.eqb_eq).
  cbn [negb]. rewrite fold_processStep.
  unfold tallyFeature, tallyResults.
  rewrite !scenariosWithStatus_cons.
  cbn [mbind list_bind]. rewrite app_nil_r.
  unfold scenariosWithStatus; cbn [filter list_filter length].
  destruct (determineScenarioStatus (CucumberScenario.steps scenario)) eqn:Hs;
    repeat case_decide; try congruence;
    unfold updateScenarioCounts, FeatureSummary.set_passed,
      FeatureSummary.set_failed, FeatureSummary.set_skipped,
      FeatureSummary.set_scenarios, set_passedScenarios, set_failedScenarios,
      set_skippedScenarios, set_totalScenarios; cbn;
    f_equal; (f_equal; first [reflexivity | lia]).
Qed.

Lemma processScenario_other entry results scenario :
  ¬ countable scenario →
  processScenario (entry, results) scenario = (entry, results).
Proof.
  intros Hc. unfold processScenario.
  destruct (String.eqb_spec (CucumberScenario.type scenario) "scenario"); done.
Qed.

Lemma tallyFeature_app l1 l2 entry :
  tallyFeature (l1 ++ l2) entry = tallyFeature l2 (tallyFeature l1 entry).
Proof.
  unfold tallyFeature, scenariosWithStatus; cbn.
  rewrite !filter_app, !length_app. f_equal; lia.
Qed.

Lemma tallyResults_app l1 l2 results :
  tallyResults (l1 ++ l2) results = tallyResults l2 (tallyResults l1 results).
Proof.
  unfold tallyResults, scenariosWithStatus; cbn.
  rewrite bind_app, !stepsWithStatus_app, addDurations_app.
  rewrite !filter_app, !length_app. f_equal; lia.
Qed.

(** The loop over the elements of one feature, in closed form. *)
Lemma fold_processScenario elements : ∀ entry results,
  fold_left processScenario elements (entry, results) =
  (tallyFeature (filter countable elements) entry,
   tallyResults (filter countable elements) results).
Proof.
  induction elements as [| scenario elements IH]; intros entry results.
  - by rewrite filter_nil, tallyFeature_nil, tallyResults_nil.
  - cbn [fold_left]. rewrite filter_cons.
    destruct (decide (countable scenario)) as [Hc | Hc].
    + rewrite processScenario_countable by done. rewrite IH.
      change (scenario :: filter countable elements)
        with ([scenario] ++ filter countable elements)%list.
      by rewrite tallyFeature_app, tallyResults_app.
    + rewrite processScenario_other by done. apply IH.
Qed.

Lemma summaryOf_tally feature :
  tallyFeature (countableScenarios feature)
    {| FeatureSummary.name := CucumberFeature.name feature;
       FeatureSummary.scenarios := 0; FeatureSummary.passed := 0;
       FeatureSummary.failed := 0; FeatureSummary.skipped := 0 |} =
  summaryOf feature.
Proof. reflexivity. Qed.

(** One feature, in closed form. *)
Lemma processFeature_closed results feature :
  processFeature results feature =
  let results' := tallyResults (countableScenarios feature) results in
  if decide (countableScenarios feature = []) then results'
  else set_features (features results ++ [summaryOf feature]) results'.
Proof.
  unfold processFeature. rewrite fold_processScenario.
  fold (countableScenarios feature). rewrite summaryOf_tally.
  cbn zeta. unfold summaryOf at 1. cbn [FeatureSummary.scenarios].
  destruct (countableScenarios feature) as [| c cs] eqn:Hcs.
  - reflexivity.
  - case_decide; [done |]. reflexivity.
Qed.

(** The outer loop from any starting [results], in closed form. *)
Lemma fold_processFeature doc : ∀ results,
  fold_left processFeature doc results =
  set_features (features results ++ map summaryOf (reported doc))
    (tallyResults (doc ≫= countableScenarios) results).
Proof.
  induction doc as [| feature doc IH]; intros results.
  - cbn. rewrite tallyResults_nil, app_nil_r. by destruct results.
  - cbn [fold_left]. rewrite IH, processFeature_closed. cbn zeta.
    unfold reported. rewrite filter_cons.
    cbn [mbind list_bind]. rewrite tallyResults_app.
    destruct (decide (countableScenarios feature = [])) as [He | He].
    + rewrite decide_False by (intros Hn; by apply Hn).
      reflexivity.
    + rewrite decide_True by done.
      unfold set_features, tallyResults; cbn.
      rewrite <- app_assoc. reflexivity.
Qed.

Lemma countedSteps_bind doc :
  countedSteps doc = (doc ≫= countableScenarios) ≫= CucumberScenario.steps.
Proof.
  unfold countedSteps. induction doc as [| feature doc IH]; [done |].
  rewrite !bind_cons, bind_app. by f_equal.
Qed.

(** The whole document, in closed form. *)
Lemma summarize_closed doc :
  summarize doc =
  let counted := doc ≫= countableScenarios in
  let steps := countedSteps doc in
  {| totalScenarios := length counted;
     passedScenarios := scenariosWithStatus passed counted;
     failedScenarios := scenariosWithStatus failed counted;
     skippedScenarios := scenariosWithStatus skipped counted;
     totalSteps := length steps;
     passedSteps := stepsWithStatus "passed" steps;
     failedSteps := stepsWithStatus "failed" steps;
     skippedSteps := stepsWithStatus "skipped" steps;
     duration := addDurations (S754_zero false) steps;
     features := map summaryOf (reported doc) |}.
Proof.
  unfold summarize. rewrite fold_processFeature.
  rewrite countedSteps_bind.
  unfold set_features, tallyResults, initialResults; cbn. reflexivity.
Qed.

Lemma existsb_status s steps :
  existsb (fun step => String.eqb (step_status step) s) steps = true ↔
  ∃ step, step ∈ steps ∧ step_status step = s.
Proof.
  rewrite existsb_exists. split; intros (step & Hin & Hs); exists step.
  - split; [by apply list_elem_of_In | by apply String.eqb_eq].
  - split; [by apply list_elem_of_In | by apply String.eqb_eq].
Qed.

Lemma existsb_status_false s steps :
  existsb (fun step => String.eqb (step_status step) s) steps = false ↔
  ∀ step, step ∈ steps → step_status step ≠ s.
Proof.
  rewrite <- not_true_iff_false, existsb_status. split.
  - intros Hn step Hin Hs. apply Hn. by exists step.
  - intros Hall (step & Hin & Hs). by apply (Hall step).
Qed.

(** C1. The aggregate status of a scenario is [failed] exactly when one of
    its steps has status "failed", [skipped] exactly when none has failed
    and one has status "skipped", and [passed] exactly when no step has
    failed or was skipped; so a scenario without steps, or whose steps all
    carry a status outside the three named ones, is [passed].  Every
    scenario that counts is added to the bucket of that status, in its
    feature's entry and in the global counters. *)
Theorem determineScenarioStatus_worst_first (steps : list CucumberStep.t) :
  (determineScenarioStatus steps = failed ↔
     ∃ step, step ∈ steps ∧ step_status step = "failed") ∧
  (determineScenarioStatus steps = skipped ↔
     (∀ step, step ∈ steps → step_status step ≠ "failed") ∧
     ∃ step, step ∈ steps ∧ step_status step = "skipped") ∧
  (determineScenarioStatus steps = passed ↔
     ∀ step, step ∈ steps →
       step_status step ≠ "failed" ∧ step_status step ≠ "skipped") ∧
  determineScenarioStatus [] = passed ∧
  ((∀ step, step ∈ steps → unrecognized (step_status step)) →
     determineScenarioStatus steps = passed) ∧
  (∀ scenario entry results,
     CucumberScenario.steps scenario = steps → countable scenario →
     let status := determineScenarioStatus steps in
     let entry' := fst (processScenario (entry, results) scenario) in
     let results' := snd (processScenario (entry, results) scenario) in
     FeatureSummary.passed entry' = FeatureSummary.passed entry + bucket passed status ∧
     FeatureSummary.failed entry' = FeatureSummary.failed entry + bucket failed status ∧
     FeatureSummary.skipped entry' = FeatureSummary.skipped entry + bucket skipped status ∧
     passedScenarios results' = passedScenarios results + bucket passed status ∧
     failedScenarios results' = failedScenarios results + bucket failed status ∧
     skippedScenarios results' = skippedScenarios results + bucket skipped status).
Proof.
  assert (Hf := existsb_status "failed" steps).
  assert (Hs := existsb_status "skipped" steps).
  assert (Hnf := existsb_status_false "failed" steps).
  assert (Hns := existsb_status_false "skipped" steps).
  unfold determineScenarioStatus.
  set (hasFailed :=
         existsb (fun step => String.eqb (step_status step) "failed") steps) in *.
  set (hasSkipped :=
         existsb (fun step => String.eqb (step_status step) "skipped") steps) in *.
  assert (Hpassed :
     (if hasFailed then failed else if hasSkipped then skipped else passed) = passed ↔
     ∀ step, step ∈ steps →
       step_status step ≠ "failed" ∧ step_status step ≠ "skipped").
  { destruct hasFailed.
    - split; [done |]. intros Hall. exfalso.
      destruct (proj1 Hf eq_refl) as (step & Hin & Hst).
      by destruct (Hall step Hin).
    - destruct hasSkipped.
      + split; [done |]. intros Hall. exfalso.
        destruct (proj1 Hs eq_refl) as (step & Hin & Hst).
        by destruct (Hall step Hin).
      + split; [| done]. intros _ step Hin. split.
        * by apply (proj1 Hnf).
        * by apply (proj1 Hns). }
  split; [| split; [| split; [| split; [| split]]]].
  - rewrite <- Hf. destruct hasFailed; [done |].
    destruct hasSkipped; split; done.
  - rewrite <- Hs, <- Hnf.
    destruct hasFailed; [split; [done | by intros [? _]] |].
    destruct hasSkipped; split; try done. by intros [_ ?].
  - exact Hpassed.
  - reflexivity.
  - intros Hall. apply Hpassed. intros step Hin.
    destruct (Hall step Hin) as (_ & ? & ?). done.
  - intros scenario entry results Hsteps Hc.
    rewrite processScenario_countable by done.
    unfold tallyFeature, tallyResults, scenariosWithStatus, bucket; cbn.
    rewrite Hsteps. unfold determineScenarioStatus.
    fold hasFailed hasSkipped.
    repeat case_decide; cbn; repeat split; try lia; congruence.
Qed.

Example worst_first_examples :
  let step s :=
    {| CucumberStep.result :=
         {| CucumberStep.status := s; CucumberStep.duration := None;
            CucumberStep.error_message := None |} |} in
  determineScenarioStatus [step "passed"; step "skipped"; step "passed"] = skipped ∧
  determineScenarioStatus [step "passed"; step "failed"; step "skipped"] = failed ∧
  determineScenarioStatus [step "passed"; step "passed"] = passed ∧
  determineScenarioStatus [step "pending"; step "undefined"] = passed.
Proof. repeat split. Qed.

Lemma length_by_status steps :
  length steps =
  stepsWithStatus "passed" steps + stepsWithStatus "failed" steps +
  stepsWithStatus "skipped" steps + unrecognizedSteps steps.
Proof.
  induction steps as [| step steps IH]; [reflexivity |].
  rewrite !stepsWithStatus_cons. unfold unrecognizedSteps in *.
  rewrite filter_cons. cbn [length]. rewrite IH.
  destruct (decide (unrecognized (step_status step))) as [Hu | Hu];
    unfold unrecognized in Hu; repeat case_decide; cbn [length];
    try lia; try congruence; tauto.
Qed.

(** C2. [processStep] adds one to the total step count, adds the step's
    duration to the total duration (the number [+0] when the step has none),
    and adds one to exactly the counter named by the status; a status
    outside the three named ones leaves the three counters as they are.
    [processStep] is a total function: no status makes it fail.  Summed
    over a document: every step of every countable scenario is counted. *)
Theorem processStep_counts :
  (∀ (step : CucumberStep.t) (results : TestResults.t),
     let results' := processStep step results in
     let s := step_status step in
     totalSteps results' = S (totalSteps results) ∧
     duration results' =
       JsNumber.add (duration results)
         (match CucumberStep.duration (CucumberStep.result step) with
          | Some d => d
          | None => S754_zero false
          end) ∧
     (s = "passed" →
        passedSteps results' = S (passedSteps results) ∧
        failedSteps results' = failedSteps results ∧
        skippedSteps results' = skippedSteps results) ∧
     (s = "failed" →
        passedSteps results' = passedSteps results ∧
        failedSteps results' = S (failedSteps results) ∧
        skippedSteps results' = skippedSteps results) ∧
     (s = "skipped" →
        passedSteps results' = passedSteps results ∧
        failedSteps results' = failedSteps results ∧
        skippedSteps results' = S (skippedSteps results)) ∧
     (unrecognized s →
        passedSteps results' = passedSteps results ∧
        failedSteps results' = failedSteps results ∧
        skippedSteps results' = skippedSteps results) ∧
     totalScenarios results' = totalScenarios results ∧
     passedScenarios results' = passedScenarios results ∧
     failedScenarios results' = failedScenarios results ∧
     skippedScenarios results' = skippedScenarios results ∧
     features results' = features results) ∧
  (∀ doc : list CucumberFeature.t,
     let results := summarize doc in
     let steps := countedSteps doc in
     totalSteps results = length steps ∧
     passedSteps results = stepsWithStatus "passed" steps ∧
     failedSteps results = stepsWithStatus "failed" steps ∧
     skippedSteps results = stepsWithStatus "skipped" steps ∧
     duration results = addDurations (S754_zero false) steps ∧
     totalSteps results =
       passedSteps results + failedSteps results + skippedSteps results +
       unrecognizedSteps steps).
Proof.
  split.
  - intros step results results' s. subst results' s.
    unfold processStep.
    status_split (step_status step);
      repeat match goal with H : String.eqb _ _ = _ |- _ => rewrite H; clear H end;
      cbn; unfold unrecognized; repeat split; intros; try congruence; tauto.
  - intros doc results steps. subst results steps.
    rewrite summarize_closed. cbn.
    repeat split. apply length_by_status.
Qed.

Lemma filter_countable_twice (l : list CucumberScenario.t) :
  filter countable (filter countable l) = filter countable l.
Proof.
  induction l as [| e l IH]; [done |].
  rewrite filter_cons. case_decide; [| done].
  rewrite filter_cons. rewrite decide_True by done. by f_equal.
Qed.

Lemma countableScenarios_onlyCountable feature :
  countableScenarios (onlyCountable feature) = countableScenarios feature.
Proof. apply filter_countable_twice. Qed.

Lemma processFeature_onlyCountable results feature :
  processFeature results (onlyCountable feature) = processFeature results feature.
Proof.
  rewrite !processFeature_closed. cbn zeta.
  replace (summaryOf (onlyCountable feature)) with (summaryOf feature)
    by (unfold summaryOf; by rewrite countableScenarios_onlyCountable).
  by rewrite countableScenarios_onlyCountable.
Qed.

Lemma processFeature_nothing_countable results feature :
  countableScenarios feature = [] → processFeature results feature = results.
Proof.
  intros He. rewrite processFeature_closed. cbn zeta.
  rewrite decide_True by done. rewrite He. apply tallyResults_nil.
Qed.

(** C3. Elements whose [type] is not "scenario" are left out of all
    counting: removing them from every feature gives the same results.  A
    feature without a countable scenario leaves the results as they were (it
    adds nothing to any total and no entry to the breakdown), wherever it
    stands in the document.  The breakdown holds one entry for each feature
    with a countable scenario, in input order. *)
Theorem summarize_counts_scenarios_only (doc : list CucumberFeature.t) :
  summarize doc = summarize (map onlyCountable doc) ∧
  (∀ feature results,
     countableScenarios feature = [] → processFeature results feature = results) ∧
  (∀ feature before after,
     doc = (before ++ feature :: after)%list →
     countableScenarios feature = [] →
     summarize doc = summarize (before ++ after)) ∧
  features (summarize doc) = map summaryOf (reported doc) ∧
  map FeatureSummary.name (features (summarize doc)) =
    map CucumberFeature.name (reported doc) ∧
  (∀ feature, feature ∈ reported doc ↔
     feature ∈ doc ∧ ∃ scenario,
       scenario ∈ CucumberFeature.elements feature ∧
       CucumberScenario.type scenario = "scenario").
Proof.
  split; [| split; [| split; [| split; [| split]]]].
  - unfold summarize. generalize initialResults.
    induction doc as [| feature doc IH]; intros results; [done |].
    cbn [map fold_left]. rewrite processFeature_onlyCountable. apply IH.
  - intros feature results. apply processFeature_nothing_countable.
  - intros feature before after -> He. unfold summarize.
    rewrite !fold_left_app. cbn [fold_left].
    by rewrite processFeature_nothing_countable.
  - by rewrite summarize_closed.
  - rewrite summarize_closed. cbn. rewrite map_map. reflexivity.
  - intros feature. unfold reported. rewrite list_elem_of_filter.
    unfold countableScenarios. split.
    + intros [Hne Hin]. split; [done |].
      destruct (filter countable (CucumberFeature.elements feature))
        as [| scenario l] eqn:Hf; [done |].
      exists scenario.
      assert (Hs : scenario ∈ filter countable (CucumberFeature.elements feature))
        by (rewrite Hf; left).
      apply list_elem_of_filter in Hs. destruct Hs. done.
    + intros [Hin (scenario & Hs & Ht)]. split; [| done].
      intros Hnil.
      assert (Hs' : scenario ∈ filter countable (CucumberFeature.elements feature))
        by (apply list_elem_of_filter; done).
      rewrite Hnil in Hs'. by apply not_elem_of_nil in Hs'.
Qed.

Lemma length_by_scenario_status scenarios :
  length scenarios =
  scenariosWithStatus passed scenarios + scenariosWithStatus failed scenarios +
  scenariosWithStatus skipped scenarios.
Proof.
  induction scenarios as [| scenario scenarios IH]; [reflexivity |].
  rewrite !scenariosWithStatus_cons. cbn [length]. rewrite IH.
  destruct (determineScenarioStatus (CucumberScenario.steps scenario));
    repeat case_decide; try congruence; lia.
Qed.

Lemma scenariosWithStatus_app s l1 l2 :
  scenariosWithStatus s (l1 ++ l2) =
  scenariosWithStatus s l1 + scenariosWithStatus s l2.
Proof. unfold scenariosWithStatus. by rewrite filter_app, length_app. Qed.

(** A sum over the breakdown is the same sum over all countable scenarios:
    the features left out of the breakdown have none. *)
Lemma sumOf_reported (field : FeatureSummary.t → nat)
    (measure : list CucumberScenario.t → nat) doc :
  measure [] = 0 →
  (∀ l1 l2, measure (l1 ++ l2)%list = measure l1 + measure l2) →
  (∀ feature, field (summaryOf feature) = measure (countableScenarios feature)) →
  sumOf field (map summaryOf (reported doc)) = measure (doc ≫= countableScenarios).
Proof.
  intros Hnil Happ Hfield.
  induction doc as [| feature doc IH]; [cbn; by rewrite Hnil |].
  rewrite bind_cons, Happ, <- IH. unfold reported. rewrite filter_cons.
  destruct (decide (countableScenarios feature ≠ [])) as [Hne | He].
  - cbn. by rewrite Hfield.
  - apply dec_stable in He. by rewrite He, Hnil.
Qed.

(** C10. The global scenario counters are the sums of the breakdown's
    entries, counter by counter, and in every entry the scenario count is
    the sum of its passed, failed and skipped counts: each scenario that
    counts is given exactly one of the three statuses. *)
Theorem breakdown_adds_up (doc : list CucumberFeature.t) :
  let results := summarize doc in
  totalScenarios results = sumOf FeatureSummary.scenarios (features results) ∧
  passedScenarios results = sumOf FeatureSummary.passed (features results) ∧
  failedScenarios results = sumOf FeatureSummary.failed (features results) ∧
  skippedScenarios results = sumOf FeatureSummary.skipped (features results) ∧
  Forall
    (fun entry =>
       FeatureSummary.scenarios entry =
       FeatureSummary.passed entry + FeatureSummary.failed entry +
       FeatureSummary.skipped entry)
    (features results) ∧
  totalScenarios results =
    passedScenarios results + failedScenarios results + skippedScenarios results.
Proof.
  intros results. subst results. rewrite summarize_closed. cbn.
  split; [| split; [| split; [| split; [| split]]]].
  - symmetry. apply (sumOf_reported _ length); [done | | done].
    intros. apply length_app.
  - symmetry. apply (sumOf_reported _ (scenariosWithStatus passed)); [done | | done].
    intros. apply scenariosWithStatus_app.
  - symmetry. apply (sumOf_reported _ (scenariosWithStatus failed)); [done | | done].
    intros. apply scenariosWithStatus_app.
  - symmetry. apply (sumOf_reported _ (scenariosWithStatus skipped)); [done | | done].
    intros. apply scenariosWithStatus_app.
  - apply Forall_forall. intros entry Hin.
    apply list_elem_of_fmap in Hin. destruct Hin as (feature & -> & _).
    cbn. apply length_by_scenario_status.
  - apply length_by_scenario_status.
Qed.
End SummarizerFacts.

(** * Properties of the Aggregator *)

Module AggregatorFacts.
Import JsNumber VerboseFormatter Tracking.

(** [logTestStepFinished] in terms of the resolution of its identifiers. *)
Lemma logTestStepFinished_resolve collector m f :
  logTestStepFinished collector m f =
  match resolveStepText collector m with
  | None => f
  | Some text =>
      let status := TestStepResult.status (TestStepFinished.testStepResult m) in
      log (CR +:+ ESC +:+ "[K  " +:+ getStatusIcon status +:+ " " +:+ text +:+ LF)
        (updateStepCounts status f)
  end.
Proof.
  unfold logTestStepFinished, logTestStepFinished_call, resolveStepText.
  destruct (getTestCaseAttempt collector _) as [error | testCase]; [done |].
  destruct (truthy (_ ≫= _)) as [pickleStepId |]; [| done].
  destruct (truthy (_ <$> _)); done.
Qed.

Section Counters.
Context `{NumberFormat}.

Lemma logTestCaseStarted_steps collector m f :
  sameStepCounters f (logTestCaseStarted collector m f).
Proof.
  unfold logTestCaseStarted, logTestCaseStarted_call, sameStepCounters.
  destruct (getTestCaseAttempt collector _); done.
Qed.

Lemma trackScenarioResult_steps collector m f :
  sameStepCounters f (trackScenarioResult collector m f).
Proof.
  unfold trackScenarioResult, trackScenarioResult_call, sameStepCounters.
  destruct (getTestCaseAttempt collector _) as [error | testCase]; [done |].
  by destruct (TestStepResult.status _).
Qed.

Lemma logTestStepStarted_steps collector m f :
  sameStepCounters f (logTestStepStarted collector m f).
Proof.
  unfold logTestStepStarted, logTestStepStarted_call, sameStepCounters.
  destruct (getTestCaseAttempt collector _) as [error | testCase]; [done |].
  destruct (truthy (_ ≫= _)) as [pickleStepId |]; [| done].
  destruct (truthy (_ <$> _)); done.
Qed.

Lemma logTestRunFinished_steps now f :
  sameStepCounters f (logTestRunFinished now f).
Proof.
  unfold logTestRunFinished, sameStepCounters.
  repeat match goal with |- context [if ?b then _ else _] => destruct b end;
    done.
Qed.

Lemma sameStepCounters_trans f1 f2 f3 :
  sameStepCounters f1 f2 → sameStepCounters f2 f3 → sameStepCounters f1 f3.
Proof. unfold sameStepCounters. intros (? & ? & ? & ?) (? & ? & ? & ?). lia. Qed.

Lemma sameStepCounters_refl f : sameStepCounters f f.
Proof. done. Qed.

Lemma stepCountersAddUp_same f f' extra :
  sameStepCounters f f' → stepCountersAddUp f extra → stepCountersAddUp f' extra.
Proof. unfold sameStepCounters, stepCountersAddUp. lia. Qed.

(** The step counters after one counted step. *)
Lemma updateStepCounts_status status f :
  let f' := updateStepCounts status f in
  totalSteps f' = S (totalSteps f) ∧
  passedCount f' = passedCount f + withStatus PASSED [status] ∧
  failedCount f' = failedCount f + withStatus FAILED [status] ∧
  skippedCount f' = skippedCount f + withStatus SKIPPED [status] ∧
  1 = withStatus PASSED [status] + withStatus FAILED [status] +
      withStatus SKIPPED [status] + unrecognizedCount [status].
Proof.
  destruct status;
    repeat match goal with
    | |- context [withStatus ?a [?b]] =>
        let v := eval vm_compute in (withStatus a [b]) in
        change (withStatus a [b]) with v
    | |- context [unrecognizedCount [?b]] =>
        let v := eval vm_compute in (unrecognizedCount [b]) in
        change (unrecognizedCount [b]) with v
    end; cbn; repeat split; lia.
Qed.

(** The step counters after one delivery. *)
Lemma deliver_steps f d :
  let f' := deliver f d in
  let counted := option_list (countedStatus d) in
  totalSteps f' = totalSteps f + length counted ∧
  passedCount f' = passedCount f + withStatus PASSED counted ∧
  failedCount f' = failedCount f + withStatus FAILED counted ∧
  skippedCount f' = skippedCount f + withStatus SKIPPED counted.
Proof.
  destruct d as [[collector now] envelope]. cbn zeta.
  unfold deliver, onEnvelope, countedStatus.
  set (f1 := match Envelope.testRunStarted envelope with
             | Some _ => set_startTime now f | None => f end).
  set (f2 := match Envelope.testCaseStarted envelope with
             | Some m => logTestCaseStarted collector m f1 | None => f1 end).
  set (f3 := match Envelope.testCaseFinished envelope with
             | Some m => trackScenarioResult collector m f2 | None => f2 end).
  set (f4 := match Envelope.testStepStarted envelope with
             | Some m => logTestStepStarted collector m f3 | None => f3 end).
  assert (H4 : sameStepCounters f f4).
  { apply (sameStepCounters_trans _ f3).
    apply (sameStepCounters_trans _ f2).
    apply (sameStepCounters_trans _ f1).
    - subst f1. by destruct (Envelope.testRunStarted envelope).
    - subst f2. destruct (Envelope.testCaseStarted envelope);
        [apply logTestCaseStarted_steps | apply sameStepCounters_refl].
    - subst f3. destruct (Envelope.testCaseFinished envelope);
        [apply trackScenarioResult_steps | apply sameStepCounters_refl].
    - subst f4. destruct (Envelope.testStepStarted envelope);
        [apply logTestStepStarted_steps | apply sameStepCounters_refl]. }
  clearbody f4. clear f1 f2 f3.
  set (f5 := match Envelope.testStepFinished envelope with
             | Some m => logTestStepFinished collector m f4 | None => f4 end).
  assert (H5 : sameStepCounters f5
                 (match Envelope.testRunFinished envelope with
                  | Some _ => logTestRunFinished now f5 | None => f5 end)).
  { destruct (Envelope.testRunFinished envelope);
      [apply logTestRunFinished_steps | apply sameStepCounters_refl]. }
  destruct H5 as (-> & -> & -> & ->). destruct H4 as (E1 & E2 & E3 & E4).
  rewrite <- E1, <- E2, <- E3, <- E4. subst f5.
  destruct (Envelope.testStepFinished envelope) as [m |]; [| cbn; lia].
  rewrite logTestStepFinished_resolve.
  destruct (resolveStepText collector m) as [text |]; [| cbn; lia].
  cbn zeta.
  destruct (updateStepCounts_status
              (TestStepResult.status (TestStepFinished.testStepResult m)) f4)
    as (T & P & F & K & _).
  cbv [option_list option_rect].
  cbn [length log totalSteps passedCount failedCount skippedCount].
  rewrite T, P, F, K. repeat split; lia.
Qed.

Lemma withStatus_app status l1 l2 :
  withStatus status (l1 ++ l2) = withStatus status l1 + withStatus status l2.
Proof. unfold withStatus. by rewrite filter_app, length_app. Qed.

Lemma unrecognizedCount_app l1 l2 :
  unrecognizedCount (l1 ++ l2) = unrecognizedCount l1 + unrecognizedCount l2.
Proof. unfold unrecognizedCount. by rewrite filter_app, length_app. Qed.

Lemma countedStatuses_cons d events :
  countedStatuses (d :: events) =
  (option_list (countedStatus d) ++ countedStatuses events)%list.
Proof. unfold countedStatuses. cbn. by destruct (countedStatus d). Qed.

(** Every counted status goes to one of four groups. *)
Lemma length_by_counted_status statuses :
  length statuses =
  withStatus PASSED statuses + withStatus FAILED statuses +
  withStatus SKIPPED statuses + unrecognizedCount statuses.
Proof.
  induction statuses as [| status statuses IH]; [reflexivity |].
  change (status :: statuses) with ([status] ++ statuses)%list.
  rewrite !withStatus_app, unrecognizedCount_app, length_app, IH.
  destruct (updateStepCounts_status status initial) as (_ & _ & _ & _ & E).
  cbn [length]. lia.
Qed.

(** The step counters after a sequence of deliveries. *)
Lemma run_steps events : ∀ f,
  let f' := run events f in
  let counted := countedStatuses events in
  totalSteps f' = totalSteps f + length counted ∧
  passedCount f' = passedCount f + withStatus PASSED counted ∧
  failedCount f' = failedCount f + withStatus FAILED counted ∧
  skippedCount f' = skippedCount f + withStatus SKIPPED counted.
Proof.
  induction events as [| d events IH]; intros f; cbn zeta.
  - cbn. lia.
  - unfold run. cbn [fold_left]. fold (run events (deliver f d)).
    destruct (IH (deliver f d)) as (T & P & F & K).
    destruct (deliver_steps f d) as (T' & P' & F' & K').
    rewrite countedStatuses_cons, !withStatus_app, length_app. lia.
Qed.

(** C4. From the fresh formatter, after every prefix of every sequence of
    deliveries, the total step counter is the sum of the passed, failed and
    skipped step counters and of the number of counted steps whose status is
    none of the three.  The invariant is kept by every single delivery, and
    by every step-finished message that resolves. *)
Theorem step_counters_add_up (events : list delivery) :
  (∀ n,
     let seen := take n events in
     stepCountersAddUp (run seen initial)
       (unrecognizedCount (countedStatuses seen))) ∧
  (∀ f extra d,
     stepCountersAddUp f extra →
     stepCountersAddUp (deliver f d)
       (extra + unrecognizedCount (option_list (countedStatus d)))) ∧
  (∀ collector m f extra,
     is_Some (resolveStepText collector m) →
     stepCountersAddUp f extra →
     stepCountersAddUp (logTestStepFinished collector m f)
       (extra +
        unrecognizedCount
          [TestStepResult.status (TestStepFinished.testStepResult m)])).
Proof.
  unfold stepCountersAddUp. split; [| split].
  - intros n. set (seen := take n events).
    destruct (run_steps seen initial) as (T & P & F & K).
    rewrite T, P, F, K. cbn [initial totalSteps passedCount failedCount skippedCount].
    rewrite (length_by_counted_status (countedStatuses seen)). lia.
  - intros f extra d Hinv.
    destruct (deliver_steps f d) as (T & P & F & K).
    rewrite T, P, F, K.
    rewrite (length_by_counted_status (option_list (countedStatus d))). lia.
  - intros collector m f extra [text Hr] Hinv.
    rewrite logTestStepFinished_resolve, Hr. cbn zeta.
    destruct (updateStepCounts_status
                (TestStepResult.status (TestStepFinished.testStepResult m)) f)
      as (T & P & F & K & E).
    cbn [log totalSteps passedCount failedCount skippedCount].
    rewrite T, P, F, K. lia.
Qed.
End Counters.

(** C5. A call of [trackScenarioResult] with a case identifier that the
    collector knows returns: it has added one to the total scenario counter
    and one to the passed, failed or skipped scenario counter exactly when
    the worst step status of the case is that status; for any other worst
    status the three counters stay as they are; nothing else has changed.
    With a case identifier that the collector does not know, the lookup of
    the collector throws a [TypeError] before the test [if (testCase)], and
    the handler does not catch it: no counter has changed, but an error is
    raised.  The envelope listener handles a case-finished envelope by this
    call. *)
Theorem trackScenarioResult_counts `{NumberFormat}
    (collector : gmap string TestCaseAttempt.t) (m : TestCaseFinished.t)
    (f : VerboseFormatter.t) :
  let outcome := trackScenarioResult_call collector m f in
  let f' := trackScenarioResult collector m f in
  let known := collector !! TestCaseFinished.testCaseStartedId m in
  (∀ testCase, known = Some testCase →
     let status :=
       TestStepResult.status (TestCaseAttempt.worstTestStepResult testCase) in
     outcome = inr f' ∧
     totalScenarios f' = S (totalScenarios f) ∧
     (status = PASSED →
        scenariosPassed f' = S (scenariosPassed f) ∧
        scenariosFailed f' = scenariosFailed f ∧
        scenariosSkipped f' = scenariosSkipped f) ∧
     (status = FAILED →
        scenariosPassed f' = scenariosPassed f ∧
        scenariosFailed f' = S (scenariosFailed f) ∧
        scenariosSkipped f' = scenariosSkipped f) ∧
     (status = SKIPPED →
        scenariosPassed f' = scenariosPassed f ∧
        scenariosFailed f' = scenariosFailed f ∧
        scenariosSkipped f' = S (scenariosSkipped f)) ∧
     (¬ named status →
        scenariosPassed f' = scenariosPassed f ∧
        scenariosFailed f' = scenariosFailed f ∧
        scenariosSkipped f' = scenariosSkipped f) ∧
     sameStepCounters f f' ∧ output f' = output f ∧
     startTime f' = startTime f) ∧
  (known = None →
     outcome =
       inl (TypeError "Cannot read properties of undefined (reading 'testCaseId')") ∧
     f' = f) ∧
  (∀ now, onEnvelope collector now (caseFinishedEnvelope m) f = f') ∧
  trackScenarioResult_call ∅ {| TestCaseFinished.testCaseStartedId := "unknown" |}
    initial =
    inl (TypeError "Cannot read properties of undefined (reading 'testCaseId')").
Proof.
  cbn zeta.
  unfold trackScenarioResult, trackScenarioResult_call, getTestCaseAttempt,
    sameStepCounters, named.
  split; [| split; [| split]].
  - intros testCase ->.
    destruct (TestStepResult.status _); cbn;
      repeat split; intros; try congruence; try tauto.
  - by intros ->.
  - reflexivity.
  - reflexivity.
Qed.

(** C6. A call of [logTestStepFinished] returns with the formatter as it
    was (all counters and the output) when the step identifier finds no test
    step or the test step has no pickle step, and when the pickle step is not
    found or has no text; it counts and writes only when all of them
    resolve.  With a case identifier that the collector does not know, the
    lookup of the collector throws a [TypeError] before the test
    [if (!testCase)], and the handler does not catch it: the formatter is as
    it was, but the call throws.  The envelope listener handles a
    step-finished envelope by this call. *)
Theorem logTestStepFinished_unresolved `{NumberFormat}
    (collector : gmap string TestCaseAttempt.t) (m : TestStepFinished.t)
    (f : VerboseFormatter.t) :
  let outcome := logTestStepFinished_call collector m f in
  let f' := logTestStepFinished collector m f in
  let status := TestStepResult.status (TestStepFinished.testStepResult m) in
  (collector !! TestStepFinished.testCaseStartedId m = None →
     outcome =
       inl (TypeError "Cannot read properties of undefined (reading 'testCaseId')") ∧
     f' = f) ∧
  (∀ testCase,
     collector !! TestStepFinished.testCaseStartedId m = Some testCase →
     (findTestStep testCase (TestStepFinished.testStepId m) = None →
        outcome = inr f) ∧
     (∀ testStep,
        findTestStep testCase (TestStepFinished.testStepId m) = Some testStep →
        (TestStep.pickleStepId testStep = None → outcome = inr f) ∧
        (TestStep.pickleStepId testStep = Some "" → outcome = inr f) ∧
        (∀ pickleStepId,
           TestStep.pickleStepId testStep = Some pickleStepId →
           pickleStepId ≠ "" →
           (findGherkinStep testCase pickleStepId = None → outcome = inr f) ∧
           (∀ gherkinStep,
              findGherkinStep testCase pickleStepId = Some gherkinStep →
              (PickleStep.text gherkinStep = "" → outcome = inr f) ∧
              (PickleStep.text gherkinStep ≠ "" →
                 outcome =
                 inr (log (CR +:+ ESC +:+ "[K  " +:+ getStatusIcon status +:+ " " +:+
                           PickleStep.text gherkinStep +:+ LF)
                        (updateStepCounts status f))))))) ∧
  f' = formatterAfter f outcome ∧
  (resolveStepText collector m = None → f' = f) ∧
  (f' ≠ f → is_Some (resolveStepText collector m)) ∧
  (∀ now, onEnvelope collector now (stepFinishedEnvelope m) f = f') ∧
  logTestStepFinished_call ∅
    {| TestStepFinished.testCaseStartedId := "unknown";
       TestStepFinished.testStepId := "step";
       TestStepFinished.testStepResult := {| TestStepResult.status := PASSED |} |}
    initial =
    inl (TypeError "Cannot read properties of undefined (reading 'testCaseId')").
Proof.
  cbn zeta. split; [| split; [| split; [| split; [| split; [| split]]]]].
  - intros Hc.
    unfold logTestStepFinished, logTestStepFinished_call, getTestCaseAttempt.
    by rewrite Hc.
  - intros testCase Hc. unfold logTestStepFinished_call, getTestCaseAttempt.
    rewrite Hc. split.
    + by intros ->.
    + intros testStep ->. cbn [mbind option_bind]. split; [| split].
      * by intros ->.
      * by intros ->.
      * intros pickleStepId -> Hne.
        replace (truthy (Some pickleStepId)) with (Some pickleStepId)
          by (by destruct pickleStepId).
        split; [by intros -> |].
        intros gherkinStep ->. cbn [fmap option_fmap option_map].
        split.
        -- by intros ->.
        -- intros Ht.
           replace (truthy (Some (PickleStep.text gherkinStep)))
             with (Some (PickleStep.text gherkinStep))
             by (by destruct (PickleStep.text gherkinStep)).
           reflexivity.
  - reflexivity.
  - intros Hr. by rewrite logTestStepFinished_resolve, Hr.
  - intros Hne. rewrite logTestStepFinished_resolve in Hne.
    destruct (resolveStepText collector m); [by eexists | done].
  - reflexivity.
  - reflexivity.
Qed.
End AggregatorFacts.

(** * Properties of the script *)

Module ScriptFacts.
Import JsNumber TestResults Summarizer Report Script.

(** C9. When the report file is absent, [parseTestResults] throws the error
    "Report file not found" instead of returning results;
    [generatePRComment] does not catch it: it ends with the same error,
    after its first debug line, with no file written; and the script reports
    it and ends the process with exit code 1. *)
Theorem missing_report_is_fatal `{NumberFormat}
    (JSON_parse : string → exn + list CucumberFeature.t) (w : World) :
  fs w !! reportPath = None →
  let error := Error "Report file not found: test-results/cucumber-report.json" in
  let w' := debug "📊 Parsing test results..." w in
  parseTestResults JSON_parse (fs w) = inl error ∧
  generatePRComment JSON_parse w = (w', inl error) ∧
  fs w' = fs w ∧
  main JSON_parse w =
    (debug "❌ Error generating PR comment: Report file not found: test-results/cucumber-report.json" w',
     Some 1%Z).
Proof.
  intros Hmissing error w'.
  assert (Hp : parseTestResults JSON_parse (fs w) = inl error).
  { unfold parseTestResults, existsSync.
    rewrite bool_decide_eq_false_2; [done |].
    rewrite Hmissing. by intros [? ?]. }
  assert (Hg : generatePRComment JSON_parse w = (w', inl error)).
  { unfold generatePRComment. cbn [debug fs]. by rewrite Hp. }
  split; [done |]. split; [done |]. split; [done |].
  unfold main. by rewrite Hg.
Qed.

Lemma missing_report_is_fatal_witness :
  let error := Error "Report file not found: test-results/cucumber-report.json" in
  parseTestResults Examples.rejectAll (fs Examples.emptyWorld) = inl error ∧
  snd (generatePRComment (H := Examples.unprinted) Examples.rejectAll
         Examples.emptyWorld) = inl error ∧
  snd (main (H := Examples.unprinted) Examples.rejectAll Examples.emptyWorld) =
    Some 1%Z.
Proof.
  destruct (missing_report_is_fatal (H := Examples.unprinted) Examples.rejectAll
              Examples.emptyWorld eq_refl) as (Hp & Hg & _ & Hm).
  split; [exact Hp |]. split; [by rewrite Hg | by rewrite Hm].
Defined.

(** When the report is there and decodes, the results are those of the two
    loops. *)
Lemma parseTestResults_found `{NumberFormat}
    (JSON_parse : string → exn + list CucumberFeature.t) files content doc :
  files !! reportPath = Some (File content) →
  JSON_parse content = inr doc →
  parseTestResults JSON_parse files = inr (summarize doc).
Proof.
  intros Hf Hd. unfold parseTestResults, existsSync, readFile.
  rewrite bool_decide_eq_true_2 by (rewrite Hf; by eexists).
  cbn [negb]. by rewrite Hf, Hd.
Qed.
End ScriptFacts.

(** * Rounding of the arithmetic operations *)

Module RoundingFacts.
Import Rounding.
Local Open Scope Z_scope.

(** The operations of [SpecFloat] shift a mantissa to the right one bit at
    a time and keep, in two bits, where the exact value lies between two
    mantissas.  The lemmas of this part follow that location through the
    shifts and through the final rounding to nearest, ties to even. *)

Lemma IZR_xI p : IZR (Z.pos p~1) = (2 * IZR (Z.pos p) + 1)%R.
Proof. rewrite Pos2Z.inj_xI, plus_IZR, mult_IZR. reflexivity. Qed.
Lemma IZR_xO p : IZR (Z.pos p~0) = (2 * IZR (Z.pos p))%R.
Proof. rewrite Pos2Z.inj_xO, mult_IZR. reflexivity. Qed.

(** One shift halves the located value. *)
Lemma shr_1_located mrs X :
  0 <= shr_m mrs ->
  located (shr_m mrs) (loc_of_shr_record mrs) X ->
  located (shr_m (shr_1 mrs)) (loc_of_shr_record (shr_1 mrs)) (X / 2) /\
  0 <= shr_m (shr_1 mrs).
Proof.
  destruct mrs as [m r s]. cbn [shr_m]. intros Hm.
  destruct m as [| p | p]; [| | lia].
  - destruct r, s; cbn; intros HX; split; try lia; lra.
  - destruct p as [p | p |]; destruct r, s; cbn -[IZR];
      try rewrite (IZR_xI p); try rewrite (IZR_xO p);
      intros HX; split; try lia; try lra.
Qed.

Lemma iter_pos_nat {A} (f : A -> A) p : forall x,
  SpecFloat.iter_pos f p x = Nat.iter (Pos.to_nat p) f x.
Proof.
  induction p as [p IH | p IH |]; intros x; cbn [SpecFloat.iter_pos].
  - rewrite !IH, Pos2Nat.inj_xI.
    replace (2 * Pos.to_nat p)%nat with (Pos.to_nat p + Pos.to_nat p)%nat by lia.
    by rewrite Nat.iter_succ_r, Nat.iter_add.
  - rewrite !IH, Pos2Nat.inj_xO.
    replace (2 * Pos.to_nat p)%nat with (Pos.to_nat p + Pos.to_nat p)%nat by lia.
    by rewrite Nat.iter_add.
  - reflexivity.
Qed.

(** [n] shifts divide the located value by [2^n]. *)
Lemma shr_iter_located n : forall mrs X,
  0 <= shr_m mrs ->
  located (shr_m mrs) (loc_of_shr_record mrs) X ->
  located (shr_m (Nat.iter n shr_1 mrs))
    (loc_of_shr_record (Nat.iter n shr_1 mrs)) (X / 2 ^ n) /\
  0 <= shr_m (Nat.iter n shr_1 mrs).
Proof.
  induction n as [| n IH]; intros mrs X Hm HX.
  - cbn. replace (X / 1)%R with X by lra. done.
  - cbn [Nat.iter]. destruct (IH mrs X Hm HX) as [HX' Hm'].
    destruct (shr_1_located _ _ Hm' HX') as [HX'' Hm''].
    split; [| done].
    replace (X / 2 ^ S n)%R with (X / 2 ^ n / 2)%R; [done |].
    cbn [pow]. field. apply pow_nonzero. lra.
Qed.

(** A located value lies in the unit interval of its mantissa. *)
Lemma located_floor m l X :
  located m l X -> (IZR m <= X < IZR m + 1)%R.
Proof. destruct l as [| []]; cbn; lra. Qed.

Lemma shr_record_of_loc_loc m l :
  loc_of_shr_record (shr_record_of_loc m l) = l /\
  shr_m (shr_record_of_loc m l) = m.
Proof. destruct l as [| []]; done. Qed.

(** The number of binary digits of a positive number. *)
Lemma digits2_pos_bounds p :
  2 ^ (Z.pos (digits2_pos p) - 1) <= Z.pos p < 2 ^ Z.pos (digits2_pos p).
Proof.
  induction p as [p IH | p IH |]; cbn [digits2_pos].
  - rewrite Pos2Z.inj_succ.
    replace (Z.succ (Z.pos (digits2_pos p)) - 1) with (Z.succ (Z.pos (digits2_pos p) - 1)) by lia.
    rewrite !Z.pow_succ_r by lia. lia.
  - rewrite Pos2Z.inj_succ.
    replace (Z.succ (Z.pos (digits2_pos p)) - 1) with (Z.succ (Z.pos (digits2_pos p) - 1)) by lia.
    rewrite !Z.pow_succ_r by lia. lia.
  - cbn. lia.
Qed.

Lemma digits2_pos_unique p d :
  2 ^ (d - 1) <= Z.pos p < 2 ^ d -> Z.pos (digits2_pos p) = d.
Proof.
  intros [Hl Hu]. destruct (digits2_pos_bounds p) as [Hl' Hu'].
  assert (0 < d).
  { destruct (Z.lt_trichotomy d 0) as [Hd | [-> | Hd]]; [| | done].
    - rewrite Z.pow_neg_r in Hu by done. lia.
    - cbn in Hu. lia. }
  destruct (Z.lt_trichotomy (Z.pos (digits2_pos p)) d) as [Hlt | [Heq | Hgt]];
    [| done |].
  - assert (2 ^ Z.pos (digits2_pos p) <= 2 ^ (d - 1))
      by (apply Z.pow_le_mono_r; lia). lia.
  - assert (2 ^ d <= 2 ^ (Z.pos (digits2_pos p) - 1))
      by (apply Z.pow_le_mono_r; lia). lia.
Qed.

(** [shr] is [n] times [shr_1]. *)
Lemma shr_nat mrs e n :
  0 <= n -> shr mrs e n = (Nat.iter (Z.to_nat n) shr_1 mrs, e + n).
Proof.
  intros Hn. destruct n as [| p | p]; [| | lia].
  - cbn. by rewrite Z.add_0_r.
  - cbn [shr]. by rewrite iter_pos_nat.
Qed.

Lemma IZR_pow2 (n : nat) : IZR (2 ^ Z.of_nat n) = (2 ^ n)%R.
Proof. by rewrite <- pow_IZR. Qed.

Lemma IZR_pow2_pos k : 0 <= k -> (0 < IZR (2 ^ k))%R.
Proof. intros Hk. apply IZR_lt. by apply Z.pow_pos_nonneg. Qed.

Lemma IZR_pow2_add a b :
  0 <= a -> 0 <= b -> IZR (2 ^ (a + b)) = (IZR (2 ^ a) * IZR (2 ^ b))%R.
Proof. intros Ha Hb. by rewrite Z.pow_add_r, mult_IZR. Qed.

(** Rounding to nearest, ties to even, of a located value [Y]: the result
    is within one half of [Y], and no integer lies strictly between them. *)
Lemma round_nearest_even_located m l Y :
  located m l Y ->
  let m1 := round_nearest_even m l in
  (m1 = m \/ m1 = m + 1) /\ (- (1 / 2) <= IZR m1 - Y <= 1 / 2)%R /\
  (forall g : Z, (IZR g <= Y)%R -> g <= m1) /\
  (forall g : Z, (Y <= IZR g)%R -> m1 <= g).
Proof.
  intros HY m1. subst m1.
  assert (Hg1 : forall g : Z, (IZR g <= Y)%R -> g <= m).
  { intros g Hg. apply located_floor in HY.
    assert (Hlt : (IZR g < IZR (m + 1))%R) by (rewrite plus_IZR; lra).
    apply lt_IZR in Hlt. lia. }
  assert (Hg2 : forall g : Z, (IZR m < Y)%R -> (Y <= IZR g)%R -> m + 1 <= g).
  { intros g Hm Hg. assert (Hlt : (IZR m < IZR g)%R) by lra.
    apply lt_IZR in Hlt. lia. }
  destruct l as [| []]; cbn [located round_nearest_even] in *.
  - subst Y. split; [by left |]. split; [lra |].
    split; [done |]. intros g Hg. by apply le_IZR.
  - destruct (Z.even m).
    + split; [by left |]. split; [lra |].
      split; [done |]. intros g Hg. assert (m + 1 <= g) by (apply Hg2; lra). lia.
    + split; [by right |]. split; [rewrite plus_IZR; lra |].
      split; [| intros g Hg; apply Hg2; lra].
      intros g Hg. specialize (Hg1 g Hg). lia.
  - split; [by left |]. split; [lra |]. split; [done |].
    intros g Hg. assert (m + 1 <= g) by (apply Hg2; lra). lia.
  - split; [by right |]. split; [rewrite plus_IZR; lra |].
    split; [| intros g Hg; apply Hg2; lra].
    intros g Hg. specialize (Hg1 g Hg). lia.
Qed.

(** Outside the subnormal range the exponent is the one of 53 digits. *)
Lemma fexp_normal e : -1074 <= e - 53 -> fexp 53 1024 e = e - 53.
Proof. unfold fexp, emin. lia. Qed.

(** The core of every rounded operation: a mantissa [mx] of at least 53
    digits, located at [X] and in the normal range, is rounded to a normal
    number whose mantissa, on the grid of the new exponent, is nearest to
    [X]: within half a unit, with no grid point strictly in between, and
    exact when [X] is on the grid. *)
Lemma round_core sx mx ex lx X :
  0 < mx -> located mx lx X ->
  let d := Zdigits2 mx in
  53 <= d -> -1074 <= d + ex - 53 -> d + ex <= 1023 ->
  exists m e,
    binary_round_aux 53 1024 sx mx ex lx = S754_finite sx m e /\
    2 ^ 52 <= Z.pos m < 2 ^ 53 /\
    (e = ex + (d - 53) \/ e = ex + (d - 53) + 1) /\
    (- (IZR (2 ^ (e - ex)) / 2) <= IZR (Z.pos m) * IZR (2 ^ (e - ex)) - X
       <= IZR (2 ^ (e - ex)) / 2)%R /\
    (forall g : Z, (IZR g * IZR (2 ^ (e - ex)) <= X)%R -> g <= Z.pos m) /\
    (forall g : Z, (X <= IZR g * IZR (2 ^ (e - ex)))%R -> Z.pos m <= g) /\
    (forall z : Z, X = (IZR z * IZR (2 ^ (d - 53)))%R ->
       Z.pos m = z /\ e = ex + (d - 53)).
Proof.
  intros Hmx HX d Hd Hmin Hmax.
  destruct mx as [| p | p]; [lia | | lia].
  set (n := d - 53). assert (Hn : 0 <= n) by lia.
  set (P := IZR (2 ^ n)).
  assert (HP : (0 < P)%R) by (by apply IZR_pow2_pos).
  (* first shift *)
  unfold binary_round_aux, shr_fexp. fold d.
  rewrite (fexp_normal (d + ex)) by lia.
  replace (d + ex - 53 - ex) with n by lia.
  rewrite shr_nat by done.
  destruct (shr_record_of_loc_loc (Z.pos p) lx) as [Hl0 Hm0].
  destruct (shr_iter_located (Z.to_nat n) (shr_record_of_loc (Z.pos p) lx) X)
    as [HY Hm']; [rewrite Hm0; lia | by rewrite Hm0, Hl0 |].
  set (mrs' := Nat.iter (Z.to_nat n) shr_1 (shr_record_of_loc (Z.pos p) lx)) in *.
  rewrite <- IZR_pow2, Z2Nat.id in HY by done. fold P in HY.
  set (Y := (X / P)%R) in *.
  assert (HXY : X = (Y * P)%R) by (unfold Y; field; lra).
  (* the shifted mantissa has 53 digits *)
  assert (Hdig : 2 ^ (d - 1) <= Z.pos p < 2 ^ d).
  { subst d. cbn [Zdigits2]. apply digits2_pos_bounds. }
  assert (HYb : (IZR (2 ^ 52) <= Y < IZR (2 ^ 53))%R).
  { apply located_floor in HX.
    assert (E1 : IZR (2 ^ (d - 1)) = (IZR (2 ^ 52) * P)%R).
    { replace (d - 1) with (52 + n) by lia. by apply IZR_pow2_add. }
    assert (E2 : IZR (2 ^ d) = (IZR (2 ^ 53) * P)%R).
    { replace d with (53 + n) at 1 by lia. by apply IZR_pow2_add. }
    destruct Hdig as [L U]. apply IZR_le in L.
    assert (U' : (IZR (Z.pos p) + 1 <= IZR (2 ^ d))%R).
    { rewrite <- (plus_IZR _ 1). apply IZR_le. lia. }
    rewrite E1 in L. rewrite E2 in U'. rewrite HXY in HX. split.
    - apply (Rmult_le_reg_r P); [done | lra].
    - apply (Rmult_lt_reg_r P); [done | lra]. }
  set (m' := shr_m mrs') in *. set (l' := loc_of_shr_record mrs') in *.
  assert (Hm'b : 2 ^ 52 <= m' < 2 ^ 53).
  { apply located_floor in HY. split.
    - assert (Hlt : (IZR (2 ^ 52) < IZR (m' + 1))%R) by (rewrite plus_IZR; lra).
      apply lt_IZR in Hlt. lia.
    - apply lt_IZR. lra. }
  destruct (round_nearest_even_located m' l' Y HY) as (Hm1 & Herr & Hg1 & Hg2).
  set (m1 := round_nearest_even m' l') in *.
  assert (Hexact : forall z : Z, X = (IZR z * P)%R -> m1 = z).
  { intros z Hz. assert (HYz : Y = IZR z).
    { apply (Rmult_eq_reg_r P); [lra | lra]. }
    assert (z <= m1) by (apply Hg1; lra).
    assert (m1 <= z) by (apply Hg2; lra). lia. }
  destruct (Z.eq_dec m1 (2 ^ 53)) as [Hcarry | Hnocarry].
  - (* the rounding carried into a 54th digit *)
    rewrite Hcarry. change (Zdigits2 (2 ^ 53)) with 54.
    rewrite (fexp_normal (54 + (ex + n))) by lia.
    replace (54 + (ex + n) - 53 - (ex + n)) with 1 by lia.
    change (shr (shr_record_of_loc (2 ^ 53) loc_Exact) (ex + n) 1)
      with ({| shr_m := 2 ^ 52; shr_r := false; shr_s := false |}, ex + n + 1).
    cbn [shr_m]. change (2 ^ 52) with (Z.pos (2 ^ 52)) at 1.
    cbv iota beta.
    replace (ex + n + 1 <=? 1024 - 53) with true by (symmetry; apply Z.leb_le; lia).
    exists (2 ^ 52)%positive, (ex + n + 1).
    replace (ex + n + 1 - ex) with (n + 1) by lia.
    assert (EP : IZR (2 ^ (n + 1)) = (P * 2)%R).
    { rewrite IZR_pow2_add by lia. reflexivity. }
    rewrite EP. rewrite Hcarry in Herr.
    change (IZR (Z.pos (2 ^ 52))) with (IZR (2 ^ 52)).
    assert (E53 : IZR (2 ^ 53) = (IZR (2 ^ 52) * 2)%R)
      by (rewrite <- mult_IZR; reflexivity).
    split; [done |]. split; [lia |]. split; [right; lia |].
    split; [rewrite HXY; rewrite E53 in Herr; nra |].
    split; [| split].
    + intros g Hg. assert (2 * g <= m1); [| lia].
      apply Hg1. rewrite mult_IZR. apply (Rmult_le_reg_r P); [done | lra].
    + intros g Hg. assert (m1 <= 2 * g); [| lia].
      apply Hg2. rewrite mult_IZR. apply (Rmult_le_reg_r P); [done | lra].
    + intros z Hz. specialize (Hexact z Hz).
      exfalso. assert (HYz : Y = IZR z).
      { apply (Rmult_eq_reg_r P); [lra | lra]. }
      rewrite HYz in HYb. destruct HYb as [_ HYb]. apply lt_IZR in HYb. lia.
  - assert (Hm1b : 2 ^ 52 <= m1 < 2 ^ 53) by lia.
    destruct m1 as [| q | q] eqn:Em1; [lia | | lia].
    assert (Hq : Z.pos (digits2_pos q) = 53)
      by (apply digits2_pos_unique; lia).
    cbn [Zdigits2]. rewrite Hq.
    rewrite (fexp_normal (53 + (ex + n))) by lia.
    replace (53 + (ex + n) - 53 - (ex + n)) with 0 by lia.
    cbn [shr shr_record_of_loc shr_m].
    replace (ex + n <=? 1024 - 53) with true by (symmetry; apply Z.leb_le; lia).
    exists q, (ex + n). replace (ex + n - ex) with n by lia. fold P.
    split; [done |]. split; [lia |]. split; [left; lia |].
    split; [rewrite HXY; nra |].
    split; [| split].
    + intros g Hg. apply Hg1. apply (Rmult_le_reg_r P); [done | lra].
    + intros g Hg. apply Hg2. apply (Rmult_le_reg_r P); [done | lra].
    + intros z Hz. split; [by apply Hexact | lia].
Qed.

(** The location that a division computes from the remainder [r] is the
    place of the exact quotient. *)
Lemma new_location_located b q r :
  0 < b -> 0 <= r < b ->
  located q (new_location b r) (IZR (q * b + r) / IZR b).
Proof.
  intros Hb Hr.
  set (B := IZR b). assert (HB : (0 < B)%R) by (apply IZR_lt; lia).
  set (X := (IZR (q * b + r) / B)%R).
  assert (HX : (X * B = IZR q * B + IZR r)%R).
  { unfold X, B. rewrite plus_IZR, mult_IZR. field. fold B. lra. }
  assert (Hr0 : (0 <= IZR r)%R) by (apply IZR_le; lia).
  assert (Hlt : forall c : comparison, Z.compare (2 * r) b = c -> r <> 0 ->
            located q (loc_Inexact c) X).
  { intros c Hc Hne.
    assert (Hrp : (0 < IZR r)%R) by (apply IZR_lt; lia).
    destruct c; cbn [located].
    - apply Z.compare_eq in Hc. apply (f_equal IZR) in Hc.
      rewrite mult_IZR in Hc. fold B in Hc.
      apply (Rmult_eq_reg_r B); [lra | lra].
    - rewrite Z.compare_lt_iff in Hc. apply IZR_lt in Hc.
      rewrite mult_IZR in Hc. fold B in Hc. split.
      + apply (Rmult_lt_reg_r B); [done | lra].
      + apply (Rmult_lt_reg_r B); [done | lra].
    - rewrite Z.compare_gt_iff in Hc. apply IZR_lt in Hc.
      rewrite mult_IZR in Hc. fold B in Hc.
      assert (Hrb : (IZR r < B)%R) by (apply IZR_lt; lia). split.
      + apply (Rmult_lt_reg_r B); [done | lra].
      + apply (Rmult_lt_reg_r B); [done | lra]. }
  assert (Hexact : r = 0 -> located q loc_Exact X).
  { intros ->. cbn [located]. apply (Rmult_eq_reg_r B); [lra | lra]. }
  unfold new_location.
  destruct (Z.even b) eqn:Heven;
    unfold new_location_even, new_location_odd;
    destruct (Z.eqb_spec r 0) as [Hz | Hne]; try by apply Hexact.
  - by apply Hlt.
  - destruct (Z.compare_spec (2 * r + 1) b) as [Heq | Hl | Hg].
    + apply Hlt; [| done]. apply Z.compare_lt_iff. lia.
    + apply Hlt; [| done]. apply Z.compare_lt_iff. lia.
    + apply Hlt; [| done]. apply Z.compare_gt_iff.
      assert (2 * r <> b); [| lia].
      intros <-. rewrite Z.even_mul in Heven. done.
Qed.

Lemma pow2_pos e : (0 < pow2 e)%R.
Proof. apply powerRZ_lt. lra. Qed.

Lemma pow2_add a b : pow2 (a + b) = (pow2 a * pow2 b)%R.
Proof. apply powerRZ_add. lra. Qed.

Lemma pow2_IZR k : 0 <= k -> pow2 k = IZR (2 ^ k).
Proof.
  intros Hk. unfold pow2. rewrite <- (Z2Nat.id k) at 1 by done.
  rewrite <- pow_powerRZ. rewrite <- (Z2Nat.id k) at 2 by done.
  by rewrite IZR_pow2.
Qed.

Lemma pow2_0 : pow2 0 = 1%R.
Proof. reflexivity. Qed.

Lemma pow2_le a b : a <= b -> (pow2 a <= pow2 b)%R.
Proof.
  intros Hab. replace b with (a + (b - a)) by lia.
  rewrite pow2_add, (pow2_IZR (b - a)) by lia.
  assert (H1 : (1 <= IZR (2 ^ (b - a)))%R).
  { apply IZR_le. assert (0 < 2 ^ (b - a)) by (apply Z.pow_pos_nonneg; lia). lia. }
  assert (Hp := pow2_pos a). nra.
Qed.

(** Shifting a mantissa to the left multiplies it by a power of two. *)
Lemma iter_xO_pow2 p k : Z.pos (Pos.iter xO p k) = Z.pos p * 2 ^ Z.pos k.
Proof.
  induction k as [| k IH] using Pos.peano_ind.
  - cbn. lia.
  - rewrite Pos.iter_succ, Pos2Z.inj_xO, IH, Pos2Z.inj_succ, Z.pow_succ_r by lia.
    lia.
Qed.

(** A mantissa of at most 53 digits is normalised without rounding. *)
Lemma binary_round_exact s p ex :
  let d := Z.pos (digits2_pos p) in
  d <= 53 -> -1074 <= d + ex - 53 -> d + ex <= 1023 ->
  exists m,
    binary_round 53 1024 s p ex = S754_finite s m (ex + d - 53) /\
    Z.pos m = Z.pos p * 2 ^ (53 - d) /\
    2 ^ 52 <= Z.pos m < 2 ^ 53.
Proof.
  intros d Hd Hmin Hmax.
  assert (Hdig := digits2_pos_bounds p). fold d in Hdig.
  unfold binary_round. fold d. rewrite (fexp_normal (d + ex)) by lia.
  assert (Hshl : exists mz,
            shl_align p ex (d + ex - 53) = (mz, ex + d - 53) /\
            Z.pos mz = Z.pos p * 2 ^ (53 - d)).
  { unfold shl_align. replace (d + ex - 53 - ex) with (d - 53) by lia.
    destruct (d - 53) as [| k | k] eqn:Ek; [| lia |].
    - exists p. split; [f_equal; lia |].
      replace (53 - d) with 0 by lia. lia.
    - exists (Pos.iter xO p k). split; [f_equal; lia |].
      rewrite iter_xO_pow2. f_equal. f_equal. lia. }
  destruct Hshl as (mz & -> & Hmz).
  assert (Hmzb : 2 ^ 52 <= Z.pos mz < 2 ^ 53).
  { rewrite Hmz. destruct Hdig as [L U]. split.
    - replace 52 with ((d - 1) + (53 - d)) by lia.
      rewrite Z.pow_add_r by lia. apply Z.mul_le_mono_nonneg_r; [| done].
      apply Z.pow_nonneg. lia.
    - replace 53 with (d + (53 - d)) at 2 by lia.
      rewrite Z.pow_add_r by lia. apply Z.mul_lt_mono_pos_r; [| done].
      apply Z.pow_pos_nonneg; lia. }
  assert (Hdz : Zdigits2 (Z.pos mz) = 53).
  { cbn [Zdigits2]. apply digits2_pos_unique. lia. }
  destruct (round_core s (Z.pos mz) (ex + d - 53) loc_Exact (IZR (Z.pos mz)))
    as (m & e & Hr & Hb & _ & _ & _ & _ & Hex);
    [lia | done | rewrite Hdz; lia | rewrite Hdz; lia | rewrite Hdz; lia |].
  rewrite Hdz in Hex.
  destruct (Hex (Z.pos mz)) as [Em Ee].
  { change (2 ^ (53 - 53)) with 1. lra. }
  exists m. rewrite Hr. split; [f_equal; lia |]. split; lia.
Qed.

(** A mantissa between [2^52] and [2^53] has 53 digits. *)
Lemma digits_53 m : 2 ^ 52 <= Z.pos m < 2 ^ 53 -> Zdigits2 (Z.pos m) = 53.
Proof. intros Hm. cbn [Zdigits2]. apply digits2_pos_unique. lia. Qed.

Lemma digits_between q a b :
  0 <= a -> 2 ^ a <= Z.pos q < 2 ^ b -> a + 1 <= Zdigits2 (Z.pos q) <= b.
Proof.
  intros Ha [L U]. cbn [Zdigits2].
  destruct (digits2_pos_bounds q) as [L' U'].
  set (d := Z.pos (digits2_pos q)) in *. split.
  - destruct (Z.le_gt_cases (a + 1) d) as [| Hlt]; [done |].
    assert (2 ^ d <= 2 ^ a) by (apply Z.pow_le_mono_r; lia). lia.
  - destruct (Z.le_gt_cases d b) as [| Hlt]; [done |].
    assert (2 ^ b <= 2 ^ (d - 1)) by (apply Z.pow_le_mono_r; lia). lia.
Qed.

(** [round_core] in terms of the value of the result. *)
Lemma round_core_rounds_to mx ex lx X x :
  0 < mx -> located mx lx X ->
  let d := Zdigits2 mx in
  53 <= d -> -1074 <= d + ex - 53 -> d + ex <= 1023 ->
  x = (X * pow2 ex)%R ->
  exists m e,
    binary_round_aux 53 1024 false mx ex lx = S754_finite false m e /\
    (e = ex + (d - 53) \/ e = ex + (d - 53) + 1) /\
    rounds_to x m e.
Proof.
  intros Hmx HX d Hd Hmin Hmax Hx.
  destruct (round_core false mx ex lx X Hmx HX Hd Hmin Hmax)
    as (m & e & Hr & Hb & He & Herr & Hg1 & Hg2 & _).
  exists m, e. split; [done |]. split; [done |].
  assert (Hee : 0 <= e - ex) by (fold d in He; lia).
  set (P := IZR (2 ^ (e - ex))) in *.
  assert (HP : pow2 e = (P * pow2 ex)%R).
  { replace e with ((e - ex) + ex) at 1 by lia.
    by rewrite pow2_add, pow2_IZR. }
  assert (Hp := pow2_pos ex).
  unfold rounds_to, F2R. rewrite HP, Hx.
  split; [done |]. split; [nra |]. split.
  - intros g Hg. apply Hg1. apply (Rmult_le_reg_r (pow2 ex)); [done | lra].
  - intros g Hg. apply Hg2. apply (Rmult_le_reg_r (pow2 ex)); [done | lra].
Qed.

(** The quotient of two normal numbers, in range, is a normal number that
    is correctly rounded. *)
Lemma div_normal m1 e1 m2 e2 :
  2 ^ 52 <= Z.pos m1 < 2 ^ 53 -> 2 ^ 52 <= Z.pos m2 < 2 ^ 53 ->
  -1021 <= e1 - e2 <= 1022 ->
  exists m e,
    SFdiv 53 1024 (S754_finite false m1 e1) (S754_finite false m2 e2) =
      S754_finite false m e /\
    (e = e1 - e2 - 53 \/ e = e1 - e2 - 52 \/ e = e1 - e2 - 51) /\
    rounds_to (F2R (Z.pos m1) e1 / F2R (Z.pos m2) e2) m e.
Proof.
  intros H1 H2 He.
  unfold SFdiv, SFdiv_core_binary. rewrite !digits_53 by done.
  rewrite (fexp_normal (53 + e1 - (53 + e2))) by lia.
  replace (Z.min (53 + e1 - (53 + e2) - 53) (e1 - e2)) with (e1 - e2 - 53) by lia.
  replace (e1 - e2 - (e1 - e2 - 53)) with 53 by lia.
  rewrite Z.shiftl_mul_pow2 by lia.
  set (a := Z.pos m1 * 2 ^ 53).
  assert (Hdm := Z_div_mod a (Z.pos m2) eq_refl).
  destruct (Z.div_eucl a (Z.pos m2)) as [q r]. destruct Hdm as [Ha Hr].
  assert (Hq : 2 ^ 52 <= q < 2 ^ 54).
  { subst a. change (2 ^ 54) with (2 * 2 ^ 53). change (2 ^ 53) with (2 * 2 ^ 52) in *.
    split; nia. }
  destruct q as [| q | q]; [lia | | lia].
  assert (Hd := digits_between q 52 54 ltac:(lia) Hq).
  cbn [xorb].
  destruct (round_core_rounds_to (Z.pos q) (e1 - e2 - 53)
              (new_location (Z.pos m2) r)
              (IZR (Z.pos q * Z.pos m2 + r) / IZR (Z.pos m2))
              (F2R (Z.pos m1) e1 / F2R (Z.pos m2) e2))
    as (m & e & Hres & Hexp & Hround); try lia.
  - apply new_location_located; lia.
  - unfold F2R. replace (Z.pos q * Z.pos m2 + r) with a by lia.
    subst a. rewrite mult_IZR, <- (pow2_IZR 53) by lia.
    replace e1 with ((e1 - e2 - 53) + 53 + e2) at 1 by lia.
    rewrite !pow2_add.
    assert (Hp2 := pow2_pos e2). assert (Hp3 := pow2_pos (e1 - e2 - 53)).
    assert (Hm2 : (0 < IZR (Z.pos m2))%R) by (apply IZR_lt; lia).
    field. split; lra.
  - exists m, e. split; [done |]. split; [lia | done].
Qed.

(** The product of two normal numbers, in range, is a normal number that
    is correctly rounded. *)
Lemma mul_normal m1 e1 m2 e2 :
  2 ^ 52 <= Z.pos m1 < 2 ^ 53 -> 2 ^ 52 <= Z.pos m2 < 2 ^ 53 ->
  -1126 <= e1 + e2 <= 917 ->
  exists m e,
    SFmul 53 1024 (S754_finite false m1 e1) (S754_finite false m2 e2) =
      S754_finite false m e /\
    (e = e1 + e2 + 52 \/ e = e1 + e2 + 53 \/ e = e1 + e2 + 54) /\
    rounds_to (F2R (Z.pos m1) e1 * F2R (Z.pos m2) e2) m e.
Proof.
  intros H1 H2 He. unfold SFmul. cbn [xorb].
  assert (Hq : 2 ^ 104 <= Z.pos (m1 * m2) < 2 ^ 106).
  { rewrite Pos2Z.inj_mul.
    change (2 ^ 104) with (2 ^ 52 * 2 ^ 52). change (2 ^ 106) with (2 ^ 53 * 2 ^ 53).
    split; nia. }
  assert (Hd := digits_between (m1 * m2) 104 106 ltac:(lia) Hq).
  destruct (round_core_rounds_to (Z.pos (m1 * m2)) (e1 + e2) loc_Exact
              (IZR (Z.pos (m1 * m2)))
              (F2R (Z.pos m1) e1 * F2R (Z.pos m2) e2))
    as (m & e & Hres & Hexp & Hround); try lia.
  - done.
  - unfold F2R. rewrite Pos2Z.inj_mul, mult_IZR, pow2_add. ring.
  - exists m, e. split; [done |]. split; [lia | done].
Qed.

(** [<] on positive normal numbers compares their values. *)
Lemma ltb_normal m1 e1 m2 e2 :
  2 ^ 52 <= Z.pos m1 < 2 ^ 53 -> 2 ^ 52 <= Z.pos m2 < 2 ^ 53 ->
  SFltb (S754_finite false m1 e1) (S754_finite false m2 e2) = true <->
  (F2R (Z.pos m1) e1 < F2R (Z.pos m2) e2)%R.
Proof.
  intros H1 H2. unfold SFltb, SFcompare, F2R.
  assert (B1 : (IZR (2 ^ 52) <= IZR (Z.pos m1) < IZR (2 ^ 53))%R)
    by (split; [apply IZR_le | apply IZR_lt]; lia).
  assert (B2 : (IZR (2 ^ 52) <= IZR (Z.pos m2) < IZR (2 ^ 53))%R)
    by (split; [apply IZR_le | apply IZR_lt]; lia).
  assert (E53 : IZR (2 ^ 53) = (2 * IZR (2 ^ 52))%R)
    by (rewrite <- mult_IZR; reflexivity).
  assert (P52 : (0 < IZR (2 ^ 52))%R) by (apply IZR_lt; lia).
  assert (Hstep : forall a b, a < b -> (2 * pow2 a <= pow2 b)%R).
  { intros a b Hab.
    replace (2 * pow2 a)%R with (pow2 (a + 1)).
    - apply pow2_le. lia.
    - rewrite pow2_add. rewrite (pow2_IZR 1) by lia. cbn. lra. }
  assert (Hp1 := pow2_pos e1). assert (Hp2 := pow2_pos e2).
  destruct (Z.compare_spec e1 e2) as [-> | Hlt | Hgt].
  - rewrite Pos.compare_cont_spec. cbn [Pos.switch_Eq].
    destruct (Pos.compare_spec m1 m2) as [-> | Hl | Hg].
    + split; [done | lra].
    + split; [intros _ | done].
      assert (IZR (Z.pos m1) < IZR (Z.pos m2))%R by (apply IZR_lt; lia). nra.
    + split; [done |]. intros Hc.
      assert (IZR (Z.pos m2) < IZR (Z.pos m1))%R by (apply IZR_lt; lia). nra.
  - split; [intros _ | done]. specialize (Hstep e1 e2 Hlt). nra.
  - split; [done |]. intros Hc. specialize (Hstep e2 e1 Hgt). nra.
Qed.

(** The floor of a finite number with a negative or null exponent. *)
Lemma shiftl_floor m e :
  e <= 0 ->
  (IZR (Z.shiftl m e) <= F2R m e < IZR (Z.shiftl m e) + 1)%R.
Proof.
  intros He. rewrite Z.shiftl_div_pow2 by done.
  set (G := 2 ^ (- e)). assert (HG : 0 < G) by (apply Z.pow_pos_nonneg; lia).
  assert (Hdm := Z_div_mod_eq_full m G). assert (Hr := Z.mod_pos_bound m G HG).
  unfold F2R.
  assert (HP : (pow2 e * IZR G = 1)%R).
  { unfold G. rewrite <- pow2_IZR by lia. rewrite <- pow2_add.
    replace (e + - e) with 0 by lia. reflexivity. }
  assert (HGr : (0 < IZR G)%R) by (by apply IZR_lt).
  assert (Hm : IZR m = (IZR G * IZR (m / G) + IZR (m mod G))%R).
  { rewrite <- mult_IZR, <- plus_IZR. f_equal. lia. }
  assert (Hr0 : (0 <= IZR (m mod G))%R) by (apply IZR_le; lia).
  assert (Hr1 : (IZR (m mod G) < IZR G)%R) by (apply IZR_lt; lia).
  assert (Hp := pow2_pos e).
  split.
  - apply (Rmult_le_reg_r (IZR G)); [done |].
    replace (IZR m * pow2 e * IZR G)%R with (IZR m * (pow2 e * IZR G))%R by ring.
    rewrite HP. lra.
  - apply (Rmult_lt_reg_r (IZR G)); [done |].
    replace (IZR m * pow2 e * IZR G)%R with (IZR m * (pow2 e * IZR G))%R by ring.
    rewrite HP. lra.
Qed.

(** A real number has one integer part. *)
Lemma floor_unique (z k : Z) (v : R) :
  (IZR z <= v < IZR z + 1)%R -> (IZR k <= v < IZR k + 1)%R -> z = k.
Proof.
  intros [L1 U1] [L2 U2].
  assert (H1 : (IZR z < IZR (k + 1))%R) by (rewrite plus_IZR; lra).
  assert (H2 : (IZR k < IZR (z + 1))%R) by (rewrite plus_IZR; lra).
  apply lt_IZR in H1, H2. lia.
Qed.

End RoundingFacts.

(** * Numbers of the program: integers, printing, durations *)

Module NumberFacts.
Import JsNumber Rounding RoundingFacts Report TestResults.
Local Open Scope string_scope.
Local Open Scope Z_scope.

(** The value of an integer written with a negative or null exponent. *)
Lemma F2R_scaled z e : e <= 0 -> F2R (z * 2 ^ (- e)) e = IZR z.
Proof.
  intros He. unfold F2R. rewrite mult_IZR, <- pow2_IZR by lia.
  rewrite Rmult_assoc, <- pow2_add. replace (- e + e) with 0 by lia.
  rewrite pow2_0. ring.
Qed.

Lemma pow2_lt_inv a b : (pow2 a < pow2 b)%R -> a < b.
Proof.
  intros H. destruct (Z.lt_ge_cases a b) as [| Hge]; [done |].
  apply pow2_le in Hge. lra.
Qed.

(** A positive integer below [2^53] is a number, exactly. *)
Lemma of_Z_normal z :
  0 < z < 2 ^ 53 ->
  exists m e,
    of_Z z = S754_finite false m e /\ 2 ^ 52 <= Z.pos m < 2 ^ 53 /\
    -52 <= e <= 0 /\ Z.pos m = z * 2 ^ (- e) /\ F2R (Z.pos m) e = IZR z.
Proof.
  intros Hz. destruct z as [| p | p]; [lia | | lia].
  unfold of_Z, binary_normalize.
  assert (Hd : 1 <= Zdigits2 (Z.pos p) <= 53)
    by (apply (digits_between p 0 53); lia).
  cbn [Zdigits2] in Hd.
  destruct (binary_round_exact false p 0) as (m & Hr & Hm & Hb); try lia.
  exists m, (0 + Z.pos (digits2_pos p) - 53).
  split; [exact Hr |]. split; [done |]. split; [lia |].
  assert (Em : Z.pos m = Z.pos p * 2 ^ (- (0 + Z.pos (digits2_pos p) - 53))).
  { rewrite Hm. f_equal. f_equal. lia. }
  split; [done |]. rewrite Em. apply F2R_scaled. lia.
Qed.

Section Printing.
Context `{NumberFormat}.

(** A natural number below [2^53] prints as its decimal digits. *)
Lemma Number_toString_of_Z z :
  0 <= z < 2 ^ 53 ->
  Number_toString (of_Z z) = decimal (Z.to_N z).
Proof.
  intros Hz. destruct (Z.eq_dec z 0) as [-> | Hne]; [reflexivity |].
  destruct (of_Z_normal z) as (m & e & -> & Hm & He & Em & _); [lia |].
  unfold Number_toString, is_integer, floorZ. cbn [SFabs mantissa exponent cond_Zopp].
  assert (HG : 0 < 2 ^ (- e)) by (apply Z.pow_pos_nonneg; lia).
  assert (Emod : Z.pos m mod 2 ^ (- e) = 0) by (rewrite Em; apply Z_mod_mult).
  assert (Ediv : Z.shiftl (Z.pos m) e = z).
  { rewrite Z.shiftl_div_pow2 by lia. rewrite Em. apply Z_div_mult. lia. }
  rewrite Emod, Ediv. cbn [Z.eqb]. rewrite orb_true_r. cbn [andb].
  replace (z <=? 2 ^ 53) with true by (symmetry; apply Z.leb_le; lia).
  reflexivity.
Qed.

(** [Math.floor] of a finite number with a negative or null exponent. *)
Lemma Number_toString_floor m e k :
  e <= 0 -> 0 <= k < 2 ^ 53 ->
  (IZR k <= F2R (Z.pos m) e < IZR k + 1)%R ->
  Number_toString (Math_floor (S754_finite false m e)) = decimal (Z.to_N k).
Proof.
  intros He Hk Hv. unfold Math_floor, floorZ. cbn [mantissa exponent cond_Zopp].
  rewrite (floor_unique _ k _ (shiftl_floor (Z.pos m) e He) Hv).
  by apply Number_toString_of_Z.
Qed.
End Printing.

Lemma pow2_opp k : 0 <= k -> (pow2 (- k) * IZR (2 ^ k) = 1)%R.
Proof.
  intros Hk. rewrite <- pow2_IZR, <- pow2_add by done.
  replace (- k + k) with 0 by lia. reflexivity.
Qed.

Lemma pow2_neg e : e <= 0 -> (pow2 e * IZR (2 ^ (- e)) = 1)%R.
Proof.
  intros He. rewrite <- pow2_IZR, <- pow2_add by lia.
  replace (e + - e) with 0 by lia. reflexivity.
Qed.

(** On one grid the values are ordered as the mantissas. *)
Lemma F2R_le_grid (g m e : Z) : g <= m -> (F2R g e <= F2R m e)%R.
Proof.
  intros Hgm. unfold F2R. apply IZR_le in Hgm.
  assert (Hp := pow2_pos e). nra.
Qed.

(** [nanoseconds / 1_000_000_000] for a positive integer count below
    [2^53]: a normal number within [2^-30] of the exact quotient, with the
    same whole seconds. *)
Lemma seconds_normal ns :
  0 < ns < 2 ^ 53 ->
  exists m e,
    div (of_Z ns) (of_Z 1000000000) = S754_finite false m e /\
    e <= -29 /\
    rounds_to (IZR ns / 1000000000) m e /\
    (IZR (ns / 1000000000) <= F2R (Z.pos m) e < IZR (ns / 1000000000) + 1)%R.
Proof.
  intros Hns.
  destruct (of_Z_normal ns Hns) as (mn & en & En & Hmn & Hen & _ & Vn).
  assert (E9 : of_Z 1000000000 = S754_finite false 8388608000000000 (-23))
    by reflexivity.
  assert (V9 : F2R (Z.pos 8388608000000000) (-23) = 1000000000%R).
  { change (Z.pos 8388608000000000) with (1000000000 * 2 ^ (- -23)).
    by rewrite F2R_scaled. }
  rewrite En, E9. unfold div.
  destruct (div_normal mn en 8388608000000000 (-23)) as (m & e & Hd & He & Hr);
    [done | lia | lia |].
  rewrite Vn, V9 in Hr. exists m, e. split; [done |].
  destruct Hr as (Hm & Herr & Hg1 & Hg2).
  set (x := (IZR ns / 1000000000)%R) in *.
  set (v := F2R (Z.pos m) e) in *.
  assert (Hp := pow2_pos e).
  assert (Hx : (0 < x < 9007200)%R).
  { unfold x. assert (0 < IZR ns < IZR (2 ^ 53))%R
      by (split; apply IZR_lt; lia).
    change (2 ^ 53) with 9007199254740992 in *. split.
    - apply Rdiv_lt_0_compat; lra.
    - apply (Rmult_lt_reg_r 1000000000); [lra |].
      unfold Rdiv. rewrite Rmult_assoc, Rinv_l by lra. lra. }
  assert (Hv : (IZR (2 ^ 52) * pow2 e <= v)%R).
  { unfold v, F2R. assert (IZR (2 ^ 52) <= IZR (Z.pos m))%R by (apply IZR_le; lia).
    nra. }
  change (2 ^ 52) with 4503599627370496 in Hv.
  assert (He29 : e <= -29).
  { assert (e < -28); [| lia]. apply pow2_lt_inv.
    assert (H28 := pow2_opp 28 ltac:(lia)).
    change (2 ^ 28) with 268435456 in H28. change (- (28)) with (-28) in H28.
    nra. }
  split; [done |]. split; [done |].
  assert (Hpe : (pow2 e <= pow2 (-29))%R) by (by apply pow2_le).
  assert (H29 := pow2_opp 29 ltac:(lia)).
  change (2 ^ 29) with 536870912 in H29. change (- (29)) with (-29) in H29.
  set (k := ns / 1000000000).
  assert (Hk := Z_div_mod_eq_full ns 1000000000).
  assert (Hj := Z.mod_pos_bound ns 1000000000 ltac:(lia)).
  fold k in Hk.
  assert (Hkx : (IZR k <= x <= IZR k + 1 - / 1000000000)%R).
  { assert (L : (IZR (1000000000 * k) <= IZR ns)%R) by (apply IZR_le; lia).
    assert (U : (IZR ns <= IZR (1000000000 * k + 999999999))%R)
      by (apply IZR_le; lia).
    rewrite plus_IZR, mult_IZR in U. rewrite mult_IZR in L.
    unfold x. split.
    - apply (Rmult_le_reg_r 1000000000); [lra |].
      unfold Rdiv. rewrite Rmult_assoc, Rinv_l by lra. lra.
    - apply (Rmult_le_reg_r 1000000000); [lra |].
      unfold Rdiv. rewrite Rmult_assoc, Rinv_l by lra.
      rewrite Rmult_minus_distr_r, Rinv_l by lra. lra. }
  split.
  - assert (Hg : k * 2 ^ (- e) <= Z.pos m).
    { apply Hg1. rewrite F2R_scaled by lia. lra. }
    apply (F2R_le_grid _ _ e) in Hg. rewrite F2R_scaled in Hg by lia. done.
  - fold v. lra.
Qed.

(** The integer that [toFixed] prints: the nearest one to the scaled value,
    the larger of two equally near. *)
Lemma nearest_scaled_spec f m e :
  e < 0 ->
  let n := Z.of_N (nearest_scaled f m e) in
  (IZR n <= IZR (10 ^ Z.of_nat f) * F2R (Z.pos m) e + 1 / 2 < IZR n + 1)%R.
Proof.
  intros He. unfold nearest_scaled.
  replace (0 <=? e) with false by (symmetry; apply Z.leb_gt; lia).
  set (G := 2 ^ (- e)). assert (HG : 0 < G) by (apply Z.pow_pos_nonneg; lia).
  replace (2 ^ (1 - e)) with (2 * G)
    by (unfold G; replace (1 - e) with (1 + - e) by lia;
        rewrite Z.pow_add_r by lia; reflexivity).
  set (S := Z.pos m * 10 ^ Z.of_nat f).
  assert (HS : 0 <= S).
  { unfold S. apply Z.mul_nonneg_nonneg; [lia |]. apply Z.pow_nonneg. lia. }
  set (q := (2 * S + G) / (2 * G)).
  assert (Hq := Z_div_mod_eq_full (2 * S + G) (2 * G)).
  assert (Hr := Z.mod_pos_bound (2 * S + G) (2 * G) ltac:(lia)).
  fold q in Hq.
  assert (Hq0 : 0 <= q) by (apply Z.div_pos; lia).
  cbn zeta. rewrite Z2N.id by done.
  assert (HGr : (0 < IZR G)%R) by (by apply IZR_lt).
  assert (Hv : (F2R (Z.pos m) e * IZR G = IZR (Z.pos m))%R).
  { unfold F2R. rewrite Rmult_assoc. unfold G. rewrite pow2_neg by lia. ring. }
  set (T := IZR (10 ^ Z.of_nat f)).
  assert (L : (2 * IZR G * IZR q <= 2 * (IZR (Z.pos m) * T) + IZR G)%R).
  { unfold T. rewrite <- !mult_IZR, <- plus_IZR. apply IZR_le. unfold S in *. lia. }
  assert (U : (2 * (IZR (Z.pos m) * T) + IZR G < 2 * IZR G * IZR q + 2 * IZR G)%R).
  { unfold T. rewrite <- !mult_IZR, <- !plus_IZR. apply IZR_lt. unfold S in *. lia. }
  set (v := F2R (Z.pos m) e) in *.
  rewrite <- Hv in L, U.
  split.
  - apply (Rmult_le_reg_r (2 * IZR G)); [lra | nra].
  - apply (Rmult_lt_reg_r (2 * IZR G)); [lra | nra].
Qed.

Section Printing2.
Context `{NumberFormat}.

(** [toFixed] of a positive normal number below [10^21] that has binary
    places. *)
Lemma toFixed_normal f m e :
  e < 0 -> (F2R (Z.pos m) e < 1000000000000000000000)%R ->
  2 ^ 52 <= Z.pos m < 2 ^ 53 ->
  toFixed f (S754_finite false m e) = decimal_fixed f (nearest_scaled f m e).
Proof.
  intros He Hv Hm. unfold toFixed. cbn [SFabs].
  assert (E21 : of_Z (10 ^ 21) = S754_finite false 7629394531250000 17)
    by reflexivity.
  rewrite E21. unfold ltb.
  replace (SFltb (S754_finite false m e) (S754_finite false 7629394531250000 17))
    with true; [reflexivity |].
  symmetry. apply ltb_normal; [done | lia |].
  replace (F2R (Z.pos 7629394531250000) 17) with 1000000000000000000000%R; [done |].
  unfold F2R. rewrite pow2_IZR by lia. rewrite <- mult_IZR. reflexivity.
Qed.
End Printing2.

Lemma of_Z_60 : of_Z 60 = S754_finite false 8444249301319680 (-47).
Proof. reflexivity. Qed.

Lemma F2R_60 : F2R (Z.pos 8444249301319680) (-47) = 60%R.
Proof.
  change (Z.pos 8444249301319680) with (60 * 2 ^ (- -47)). by rewrite F2R_scaled.
Qed.

(** A normal number lies between [2^52] and [2^53] units of its grid. *)
Lemma F2R_bounds m e :
  2 ^ 52 <= Z.pos m < 2 ^ 53 ->
  (4503599627370496 * pow2 e <= F2R (Z.pos m) e < 9007199254740992 * pow2 e)%R.
Proof.
  intros [L U]. apply IZR_le in L. apply IZR_lt in U.
  change (2 ^ 52) with 4503599627370496 in L.
  change (2 ^ 53) with 9007199254740992 in U.
  unfold F2R. assert (Hp := pow2_pos e). nra.
Qed.

Lemma pow2_const_lt e c k :
  0 <= k -> (pow2 e * IZR (2 ^ k) < 1)%R -> c = - k -> e < c.
Proof.
  intros Hk Hlt ->. apply pow2_lt_inv.
  assert (H1 := pow2_opp k Hk). assert (Hp : (0 < IZR (2 ^ k))%R)
    by (by apply IZR_pow2_pos).
  apply (Rmult_lt_reg_r (IZR (2 ^ k))); [done | lra].
Qed.

Lemma pow2_const_gt e c k :
  0 <= k -> (1 < pow2 e * IZR (2 ^ k))%R -> c = - k -> c < e.
Proof.
  intros Hk Hlt ->. apply pow2_lt_inv.
  assert (H1 := pow2_opp k Hk). assert (Hp : (0 < IZR (2 ^ k))%R)
    by (by apply IZR_pow2_pos).
  apply (Rmult_lt_reg_r (IZR (2 ^ k))); [done | lra].
Qed.

Section Minutes.
Context `{NumberFormat}.

(** [Math.floor(seconds / 60)] for a number of at least sixty seconds. *)
Lemma minutes_text m e k :
  2 ^ 52 <= Z.pos m < 2 ^ 53 -> e <= -29 -> 60 <= k ->
  (IZR k <= F2R (Z.pos m) e < IZR k + 1)%R ->
  Number_toString (Math_floor (div (S754_finite false m e) (of_Z 60))) =
  decimal (Z.to_N (k / 60)).
Proof.
  intros Hm He Hk Hv. set (v := F2R (Z.pos m) e) in *.
  assert (Hb := F2R_bounds m e Hm). fold v in Hb.
  assert (Hp := pow2_pos e).
  assert (He47 : -48 < e).
  { apply (pow2_const_gt e (-48) 48); [lia | | lia].
    change (2 ^ 48) with 281474976710656.
    assert (60 <= IZR k)%R by (apply (IZR_le 60); lia). lra. }
  assert (Hk24 : k < 2 ^ 24).
  { assert (Hpe : (pow2 e <= pow2 (-29))%R) by (by apply pow2_le).
    assert (H29 := pow2_opp 29 ltac:(lia)).
    change (2 ^ 29) with 536870912 in H29. change (- (29)) with (-29) in H29.
    apply lt_IZR. change (2 ^ 24) with 16777216. lra. }
  rewrite of_Z_60. unfold div, prec, emax.
  destruct (div_normal m e 8444249301319680 (-47)) as (mq & eq & -> & Heq & Hr);
    [done | lia | lia |].
  rewrite F2R_60 in Hr. fold v in Hr.
  destruct Hr as (Hmq & Herr & Hg1 & _).
  set (q := F2R (Z.pos mq) eq) in *.
  assert (Hbq := F2R_bounds mq eq Hmq). fold q in Hbq.
  assert (Hpq := pow2_pos eq).
  (* the quotient is at least five binary places finer than the dividend *)
  assert (Heq5 : (32 * pow2 eq <= pow2 e)%R).
  { destruct Heq as [-> | [-> | ->]].
    - replace e with ((e - -47 - 53) + 6) at 2 by lia.
      rewrite pow2_add, (pow2_IZR 6) by lia. change (IZR (2 ^ 6)) with 64%R. lra.
    - replace e with ((e - -47 - 52) + 5) at 2 by lia.
      rewrite pow2_add, (pow2_IZR 5) by lia. change (IZR (2 ^ 5)) with 32%R. lra.
    - exfalso.
      assert (Epow : pow2 e = (pow2 (e - -47 - 51) * 16)%R).
      { replace e with ((e - -47 - 51) + 4) at 1 by lia.
        rewrite pow2_add, (pow2_IZR 4) by lia. reflexivity. }
      lra. }
  set (M := k / 60).
  assert (HM := Z_div_mod_eq_full k 60).
  assert (HMr := Z.mod_pos_bound k 60 ltac:(lia)). fold M in HM.
  assert (HM0 : 0 <= M) by (apply Z.div_pos; lia).
  assert (Heq0 : eq <= 0) by lia.
  apply Number_toString_floor; [done | split; [done | lia] |]. fold q.
  split.
  - assert (Hg : M * 2 ^ (- eq) <= Z.pos mq).
    { apply Hg1. rewrite F2R_scaled by done.
      assert (IZR (60 * M) <= IZR k)%R by (apply IZR_le; lia).
      rewrite mult_IZR in *. lra. }
    apply (F2R_le_grid _ _ eq) in Hg. rewrite F2R_scaled in Hg by done. done.
  - (* the dividend is one step of its grid below the next whole minute *)
    assert (Hstep : (v + pow2 e <= 60 * (IZR M + 1))%R).
    { assert (Hlt : Z.pos m < (60 * (M + 1)) * 2 ^ (- e)).
      { apply lt_IZR. apply (Rmult_lt_reg_r (pow2 e)); [done |].
        change (IZR (Z.pos m) * pow2 e)%R with v.
        change (IZR (60 * (M + 1) * 2 ^ (- e)) * pow2 e)%R
          with (F2R (60 * (M + 1) * 2 ^ (- e)) e).
        rewrite F2R_scaled by lia.
        assert (IZR (k + 1) <= IZR (60 * (M + 1)))%R by (apply IZR_le; lia).
        rewrite plus_IZR in *. lra. }
      assert (Hle : Z.pos m + 1 <= (60 * (M + 1)) * 2 ^ (- e)) by lia.
      apply (F2R_le_grid _ _ e) in Hle. rewrite F2R_scaled in Hle by lia.
      unfold F2R in Hle. rewrite plus_IZR, mult_IZR, plus_IZR in Hle.
      unfold v, F2R. lra. }
    lra.
Qed.
End Minutes.

(** The whole seconds that are left after the whole minutes. *)
Lemma mod_mul_div a b c :
  0 < b -> 0 < c -> (a mod (b * c)) / b = (a / b) mod c.
Proof.
  intros Hb Hc. rewrite Z.rem_mul_r by lia.
  rewrite (Z.mul_comm b), Z.div_add by lia.
  rewrite Z.div_small by (apply Z.mod_pos_bound; lia). lia.
Qed.

Section Remaining.
Context `{NumberFormat}.

(** A natural number with a negative or null exponent, normalised and
    floored. *)
Lemma normalize_floor_text r ex :
  0 <= r < 2 ^ 53 -> -1000 <= ex <= 0 ->
  Number_toString (Math_floor (binary_normalize 53 1024 r ex false)) =
  decimal (Z.to_N (r / 2 ^ (- ex))).
Proof.
  intros Hr Hex. destruct r as [| p | p]; [| | lia].
  - cbn [binary_normalize Math_floor]. by rewrite Z.div_0_l by lia.
  - cbn [binary_normalize].
    assert (Hd : 1 <= Zdigits2 (Z.pos p) <= 53)
      by (apply (digits_between p 0 53); lia).
    cbn [Zdigits2] in Hd. set (d := Z.pos (digits2_pos p)) in *.
    destruct (binary_round_exact false p ex) as (m & -> & Em & Hm);
      fold d; try lia.
    assert (Hv : F2R (Z.pos m) (ex + d - 53) = F2R (Z.pos p) ex).
    { unfold F2R. rewrite Em, mult_IZR, <- pow2_IZR by lia.
      rewrite Rmult_assoc, <- pow2_add. f_equal. f_equal. lia. }
    assert (Hk : 0 <= Z.pos p / 2 ^ (- ex) < 2 ^ 53).
    { split; [apply Z.div_pos; [lia | apply Z.pow_pos_nonneg; lia] |].
      apply Z.div_lt_upper_bound; [apply Z.pow_pos_nonneg; lia |].
      assert (1 <= 2 ^ (- ex)); [| nia].
      assert (0 < 2 ^ (- ex)) by (apply Z.pow_pos_nonneg; lia). lia. }
    apply Number_toString_floor; [lia | done |].
    rewrite Hv. rewrite <- Z.shiftl_div_pow2 by lia.
    apply shiftl_floor. lia.
Qed.

(** [Math.floor(seconds % 60)] for a number of at least sixty seconds. *)
Lemma remaining_text m e k :
  2 ^ 52 <= Z.pos m < 2 ^ 53 -> e <= -29 -> 60 <= k ->
  (IZR k <= F2R (Z.pos m) e < IZR k + 1)%R ->
  Number_toString (Math_floor (rem (S754_finite false m e) (of_Z 60))) =
  decimal (Z.to_N (k mod 60)).
Proof.
  intros Hm He Hk Hv. set (v := F2R (Z.pos m) e) in *.
  assert (Hb := F2R_bounds m e Hm). fold v in Hb.
  assert (Hp := pow2_pos e).
  assert (He47 : -48 < e).
  { apply (pow2_const_gt e (-48) 48); [lia | | lia].
    change (2 ^ 48) with 281474976710656.
    assert (60 <= IZR k)%R by (apply (IZR_le 60); lia). lra. }
  rewrite of_Z_60. unfold rem.
  replace (Z.min e (-47)) with (-47) by lia.
  replace (-47 - -47) with 0 by lia. rewrite Z.shiftl_0_r.
  rewrite Z.shiftl_mul_pow2 by lia.
  set (a := Z.pos m * 2 ^ (e - -47)).
  assert (Ha0 : 0 <= a).
  { unfold a. apply Z.mul_nonneg_nonneg; [lia |]. apply Z.pow_nonneg. lia. }
  cbn [cond_Zopp]. rewrite Z.rem_mod_nonneg by lia.
  change (Z.pos 8444249301319680) with (2 ^ 47 * 60).
  assert (Hr := Z.mod_pos_bound a (2 ^ 47 * 60) ltac:(lia)).
  unfold prec, emax. rewrite normalize_floor_text by lia.
  change (- -47) with 47. rewrite mod_mul_div by lia.
  f_equal. f_equal. f_equal.
  (* the whole seconds of the scaled mantissa *)
  replace (a / 2 ^ 47) with (Z.shiftl a (-47))
    by (rewrite Z.shiftl_div_pow2 by lia; reflexivity).
  apply (floor_unique _ k (F2R a (-47))); [apply shiftl_floor; lia |].
  replace (F2R a (-47)) with v; [done |].
  unfold v, a, F2R. rewrite mult_IZR, <- pow2_IZR by lia.
  rewrite Rmult_assoc, <- pow2_add. f_equal. f_equal. lia.
Qed.
End Remaining.

Section Duration.
Context `{NumberFormat}.

(** The two branches of [formatDuration] on a whole number of nanoseconds. *)
Lemma formatDuration_cases (ns : Z) :
  0 <= ns < 2 ^ 53 ->
  (ns < 60000000000 ->
     exists n : N,
       formatDuration (of_Z ns) = decimal_fixed 2 n +:+ "s" /\
       2 * 10 ^ 7 * Z.of_N n - 10 ^ 7 <= 2 * ns <= 2 * 10 ^ 7 * Z.of_N n + 10 ^ 7) /\
  (60000000000 <= ns ->
     formatDuration (of_Z ns) =
     decimal (Z.to_N (ns / 60000000000)) +:+ "m " +:+
     decimal (Z.to_N ((ns / 1000000000) mod 60)) +:+ "s").
Proof.
  intros Hns. destruct (Z.eq_dec ns 0) as [-> | Hne].
  { split; [| lia]. intros _. exists 0%N. split; [reflexivity | lia]. }
  destruct (seconds_normal ns ltac:(lia)) as (m & e & Hdiv & He & Hr & Hfl).
  destruct Hr as (Hm & Herr & _ & _).
  set (k := ns / 1000000000) in *.
  assert (Hk := Z_div_mod_eq_full ns 1000000000).
  assert (Hj := Z.mod_pos_bound ns 1000000000 ltac:(lia)). fold k in Hk.
  set (v := F2R (Z.pos m) e) in *.
  assert (Hlt : ltb (S754_finite false m e) (of_Z 60) = true <-> k < 60).
  { rewrite of_Z_60. unfold ltb. rewrite ltb_normal by (done || lia).
    rewrite F2R_60. fold v. split.
    - intros Hv. apply lt_IZR. lra.
    - intros Hk60. assert (IZR (k + 1) <= 60)%R by (apply IZR_le; lia).
      rewrite plus_IZR in *. lra. }
  unfold formatDuration. rewrite Hdiv.
  split.
  - intros Hsmall. rewrite (proj2 Hlt) by lia.
    assert (Hv60 : (v < 60)%R).
    { assert (IZR (k + 1) <= 60)%R by (apply IZR_le; lia).
      rewrite plus_IZR in *. lra. }
    rewrite toFixed_normal; [| lia | fold v; lra | done].
    exists (nearest_scaled 2 m e). split; [reflexivity |].
    assert (Hn := nearest_scaled_spec 2 m e ltac:(lia)). cbn zeta in Hn.
    fold v in Hn. change (IZR (10 ^ Z.of_nat 2)) with 100%R in Hn.
    set (n := Z.of_N (nearest_scaled 2 m e)) in *.
    (* below sixty seconds the number has at least 47 binary places *)
    assert (Hb := F2R_bounds m e Hm). fold v in Hb.
    assert (Hp := pow2_pos e).
    assert (He47 : e < -46).
    { apply (pow2_const_lt e (-46) 46); [lia | | lia].
      change (2 ^ 46) with 70368744177664. lra. }
    assert (Hpe : (pow2 e <= pow2 (-47))%R) by (apply pow2_le; lia).
    assert (H47 := pow2_opp 47 ltac:(lia)).
    change (2 ^ 47) with 140737488355328 in H47. change (- (47)) with (-47) in H47.
    set (x := (IZR ns / 1000000000)%R) in *.
    assert (Hx : (x * 1000000000 = IZR ns)%R) by (unfold x; field).
    change (10 ^ 7) with 10000000.
    split.
    + apply Z.le_ngt. intros Hc.
      assert (Hc' : (IZR (2 * ns + 1) <= IZR (2 * 10000000 * n - 10000000))%R)
        by (apply IZR_le; lia).
      rewrite plus_IZR, minus_IZR, !mult_IZR in Hc'. lra.
    + apply Z.le_ngt. intros Hc.
      assert (Hc' : (IZR (2 * 10000000 * n + 10000000 + 1) <= IZR (2 * ns))%R)
        by (apply IZR_le; lia).
      rewrite !plus_IZR, !mult_IZR in Hc'. lra.
  - intros Hlarge.
    assert (Hk60 : 60 <= k) by lia.
    replace (ltb (S754_finite false m e) (of_Z 60)) with false
      by (symmetry; apply not_true_is_false; rewrite Hlt; lia).
    rewrite (minutes_text m e k) by done.
    rewrite (remaining_text m e k) by done.
    replace (ns / 60000000000) with (k / 60); [reflexivity |].
    unfold k. rewrite Z.div_div by lia. reflexivity.
Qed.

(** X1. A duration of a whole number [ns] of nanoseconds, below [2^53]:
    under one minute it is printed as seconds with two decimals, [n / 100]
    for an integer [n] within half a hundredth of a second of the duration;
    from one minute on it is printed as the whole minutes and the whole
    seconds left over, [ns / 60000000000] and [(ns / 1000000000) mod 60],
    exactly: the rounding of the divisions never shows. *)
Theorem formatDuration_integer_nanoseconds (ns : Z) :
  0 <= ns < 2 ^ 53 ->
  (ns < 60000000000 ->
     exists n : N,
       formatDuration (of_Z ns) = decimal_fixed 2 n +:+ "s" /\
       2 * 10 ^ 7 * Z.of_N n - 10 ^ 7 <= 2 * ns <= 2 * 10 ^ 7 * Z.of_N n + 10 ^ 7) /\
  (60000000000 <= ns ->
     formatDuration (of_Z ns) =
     decimal (Z.to_N (ns / 60000000000)) +:+ "m " +:+
     decimal (Z.to_N ((ns / 1000000000) mod 60)) +:+ "s").
Proof.
  intros Hns. split; intros Hbranch; by apply (formatDuration_cases ns Hns).
Qed.
End Duration.

Lemma formatDuration_integer_nanoseconds_witness :
  formatDuration (H := Examples.unprinted) (of_Z 125000000000) =
  decimal (Z.to_N (125000000000 / 60000000000)) +:+ "m " +:+
  decimal (Z.to_N ((125000000000 / 1000000000) mod 60)) +:+ "s".
Proof.
  destruct (formatDuration_integer_nanoseconds (H := Examples.unprinted)
              125000000000) as [_ Hm].
  - split; [lia | reflexivity].
  - apply Hm. lia.
Defined.

Lemma of_Z_100 : of_Z 100 = S754_finite false 7036874417766400 (-46).
Proof. reflexivity. Qed.

Lemma F2R_100 : F2R (Z.pos 7036874417766400) (-46) = 100%R.
Proof.
  change (Z.pos 7036874417766400) with (100 * 2 ^ (- -46)). by rewrite F2R_scaled.
Qed.

Section PassRate.
Context `{NumberFormat}.

(** [(p / t * 100).toFixed(1)] for [0 <= p <= t < 2^40]. *)
Lemma percentage_text (p t : Z) :
  0 <= p <= t -> 0 < t < 2 ^ 40 ->
  exists n : N,
    toFixed 1 (mul (div (of_Z p) (of_Z t)) (of_Z 100)) = decimal_fixed 1 n /\
    2 * Z.of_N n * t - t <= 2000 * p <= 2 * Z.of_N n * t + t.
Proof.
  intros Hp Ht.
  destruct (of_Z_normal t ltac:(lia)) as (mt & et & Et & Hmt & Het & _ & Vt).
  destruct (Z.eq_dec p 0) as [-> | Hp0].
  { exists 0%N. rewrite Et. split; [reflexivity | lia]. }
  destruct (of_Z_normal p ltac:(lia)) as (mp & ep & Ep & Hmp & Hep & _ & Vp).
  rewrite Ep, Et, of_Z_100. unfold div, mul, prec, emax.
  destruct (div_normal mp ep mt et) as (m1 & e1 & -> & He1 & Hr1);
    [done | done | lia |].
  rewrite Vp, Vt in Hr1. destruct Hr1 as (Hm1 & Herr1 & _ & _).
  destruct (mul_normal m1 e1 7036874417766400 (-46)) as (m2 & e2 & -> & He2 & Hr2);
    [done | lia | lia |].
  rewrite F2R_100 in Hr2. destruct Hr2 as (Hm2 & Herr2 & _ & _).
  set (v1 := F2R (Z.pos m1) e1) in *. set (v2 := F2R (Z.pos m2) e2) in *.
  assert (Hb1 := F2R_bounds m1 e1 Hm1). assert (Hb2 := F2R_bounds m2 e2 Hm2).
  fold v1 in Hb1. fold v2 in Hb2.
  assert (Hp1 := pow2_pos e1). assert (Hp2 := pow2_pos e2).
  set (P := IZR p) in *. set (T := IZR t) in *.
  assert (HT : (0 < T < 1099511627776)%R).
  { unfold T. split; [apply (IZR_lt 0); lia |].
    apply (IZR_lt t 1099511627776). change 1099511627776 with (2 ^ 40). lia. }
  assert (HP : (0 < P <= T)%R).
  { unfold P, T. split; [apply (IZR_lt 0); lia | apply IZR_le; lia]. }
  set (x := (P / T)%R) in *.
  assert (HxT : (x * T = P)%R) by (unfold x; field; lra).
  assert (Hx : (0 < x <= 1)%R).
  { split.
    - apply Rdiv_lt_0_compat; lra.
    - apply (Rmult_le_reg_r T); [lra | lra]. }
  assert (He2neg : e2 < 0).
  { apply (pow2_const_lt e2 0 0); [lia | | lia]. change (IZR (2 ^ 0)) with 1%R. lra. }
  rewrite toFixed_normal; [| done | fold v2; lra | done].
  exists (nearest_scaled 1 m2 e2). split; [reflexivity |].
  assert (Hn := nearest_scaled_spec 1 m2 e2 He2neg). cbn zeta in Hn.
  fold v2 in Hn. change (IZR (10 ^ Z.of_nat 1)) with 10%R in Hn.
  set (n := Z.of_N (nearest_scaled 1 m2 e2)) in *.
  assert (Heps : (- (/ 2199023255552) <= 10 * v2 - 1000 * x <= / 2199023255552)%R)
    by lra.
  assert (HnT : (IZR n * T <= (10 * v2 + 1 / 2) * T)%R)
    by (apply Rmult_le_compat_r; lra).
  assert (HnT' : ((10 * v2 + 1 / 2) * T < (IZR n + 1) * T)%R)
    by (apply Rmult_lt_compat_r; lra).
  assert (HvT : (- (/ 2199023255552) * T <= (10 * v2 - 1000 * x) * T
                 <= / 2199023255552 * T)%R)
    by (split; apply Rmult_le_compat_r; lra).
  assert (Ex : ((10 * v2 - 1000 * x) * T = 10 * (v2 * T) - 1000 * P)%R)
    by (rewrite <- HxT; ring).
  rewrite Ex in HvT.
  replace ((10 * v2 + 1 / 2) * T)%R with (10 * (v2 * T) + T / 2)%R in HnT, HnT'
    by field.
  replace ((IZR n + 1) * T)%R with (IZR n * T + T)%R in HnT' by ring.
  set (nT := (IZR n * T)%R) in *. set (vT := (v2 * T)%R) in *.
  split.
  - apply Z.le_ngt. intros Hc.
    assert (Hc' : (IZR (2000 * p + 1) <= IZR (2 * n * t - t))%R)
      by (apply IZR_le; lia).
    rewrite plus_IZR, minus_IZR, !mult_IZR in Hc'.
    fold P T in Hc'. rewrite Rmult_assoc in Hc'. fold nT in Hc'. lra.
  - apply Z.le_ngt. intros Hc.
    assert (Hc' : (IZR (2 * n * t + t + 1) <= IZR (2000 * p))%R)
      by (apply IZR_le; lia).
    rewrite !plus_IZR, !mult_IZR in Hc'.
    fold P T in Hc'. rewrite Rmult_assoc in Hc'. fold nT in Hc'. lra.
Qed.

(** X2. With at least one scenario (and fewer than [2^40]), the pass rate
    is printed with one decimal, [n / 10] for an integer [n] within half a
    tenth of a percent of [100 * passed / total]: the rounding of the
    division and of the product never moves it to another tenth than a
    nearest one. *)
Theorem passRate_nearest_tenth (results : TestResults.t) :
  let p := Z.of_nat (passedScenarios results) in
  let t := Z.of_nat (totalScenarios results) in
  0 < t < 2 ^ 40 -> p <= t ->
  exists n : N,
    passRate results = decimal_fixed 1 n /\
    2 * Z.of_N n * t - t <= 2000 * p <= 2 * Z.of_N n * t + t.
Proof.
  intros p t Ht Hp. unfold passRate.
  replace (0 <? totalScenarios results)%nat with true
    by (symmetry; apply Nat.ltb_lt; lia).
  unfold of_nat. fold p t. apply percentage_text; lia.
Qed.
End PassRate.

Lemma passRate_nearest_tenth_witness :
  exists n : N,
    passRate (H := Examples.unprinted) (Summarizer.summarize Examples.twoOfThree) =
      decimal_fixed 1 n /\
    2 * Z.of_N n * 3 - 3 <= 2000 * 2 <= 2 * Z.of_N n * 3 + 3.
Proof.
  apply (passRate_nearest_tenth (H := Examples.unprinted)
           (Summarizer.summarize Examples.twoOfThree)).
  - split; reflexivity.
  - cbn. lia.
Defined.

(** Two normal numbers with the same value are the same number. *)
Lemma normal_unique m e m' e' :
  2 ^ 52 <= Z.pos m < 2 ^ 53 -> 2 ^ 52 <= Z.pos m' < 2 ^ 53 ->
  F2R (Z.pos m) e = F2R (Z.pos m') e' ->
  S754_finite false m e = S754_finite false m' e'.
Proof.
  intros Hm Hm' Hv.
  assert (Hb := F2R_bounds m e Hm). assert (Hb' := F2R_bounds m' e' Hm').
  assert (Hp := pow2_pos e). assert (Hp' := pow2_pos e').
  assert (Hstep : forall a b, a < b -> (2 * pow2 a <= pow2 b)%R).
  { intros a b Hab. replace (2 * pow2 a)%R with (pow2 (a + 1)).
    - apply pow2_le. lia.
    - rewrite pow2_add. rewrite (pow2_IZR 1) by lia. cbn. lra. }
  assert (Ee : e = e').
  { destruct (Z.lt_trichotomy e e') as [Hlt | [-> | Hgt]]; [| done |].
    - specialize (Hstep _ _ Hlt). lra.
    - specialize (Hstep _ _ Hgt). lra. }
  subst e'. f_equal. unfold F2R in Hv.
  apply Rmult_eq_reg_r in Hv; [| lra]. apply eq_IZR in Hv. lia.
Qed.

(** A shift to the left adds as many digits. *)
Lemma digits_scaled p q j :
  0 <= j -> Z.pos q = Z.pos p * 2 ^ j ->
  Z.pos (digits2_pos q) = Z.pos (digits2_pos p) + j.
Proof.
  intros Hj Hq. destruct (digits2_pos_bounds p) as [L U].
  set (d := Z.pos (digits2_pos p)) in *.
  apply digits2_pos_unique. rewrite Hq.
  assert (H2 : 0 < 2 ^ j) by (apply Z.pow_pos_nonneg; lia).
  replace (d + j - 1) with ((d - 1) + j) by lia.
  rewrite !Z.pow_add_r by lia. split; nia.
Qed.

(** An integer of at most 53 significant digits, times a power of two, is
    normalised without rounding. *)
Lemma binary_normalize_value z j ez :
  0 < z < 2 ^ 53 -> 0 <= j -> -1000 <= ez -> ez + j <= 900 ->
  exists m e,
    binary_normalize 53 1024 (z * 2 ^ j) ez false = S754_finite false m e /\
    2 ^ 52 <= Z.pos m < 2 ^ 53 /\
    F2R (Z.pos m) e = (IZR z * pow2 (ez + j))%R.
Proof.
  intros Hz Hj Hez Hmax.
  destruct z as [| p | p]; [lia | | lia].
  assert (H2 : 0 < 2 ^ j) by (apply Z.pow_pos_nonneg; lia).
  destruct (Z.pos p * 2 ^ j) as [| q | q] eqn:Eq; [lia | | lia].
  symmetry in Eq. cbn [binary_normalize].
  assert (Hdp : 1 <= Zdigits2 (Z.pos p) <= 53)
    by (apply (digits_between p 0 53); lia).
  cbn [Zdigits2] in Hdp.
  assert (Hdq := digits_scaled p q j Hj Eq).
  set (d := Z.pos (digits2_pos p)) in *. set (d' := Z.pos (digits2_pos q)) in *.
  destruct (Z.le_gt_cases d' 53) as [Hsmall | Hbig].
  - destruct (binary_round_exact false q ez) as (m & -> & Em & Hm);
      fold d'; try lia.
    exists m, (ez + d' - 53). split; [done |]. split; [done |].
    unfold F2R. rewrite Em, Eq, !mult_IZR, <- !pow2_IZR by lia.
    rewrite !Rmult_assoc, <- !pow2_add. f_equal. f_equal. lia.
  - unfold binary_round. fold d'.
    rewrite (fexp_normal (d' + ez)) by lia.
    unfold shl_align.
    destruct (d' + ez - 53 - ez) as [| k | k] eqn:Ek; [lia | | lia].
    destruct (round_core false (Z.pos q) ez loc_Exact (IZR (Z.pos q)))
      as (m & e & -> & Hm & _ & _ & _ & _ & Hex);
      cbn [Zdigits2]; fold d'; try lia; [done |].
    cbn [Zdigits2] in Hex. fold d' in Hex.
    destruct (Hex (Z.pos p * 2 ^ (53 - d))) as [Em Ee].
    { rewrite Eq, <- mult_IZR. f_equal.
      rewrite <- Z.mul_assoc, <- Z.pow_add_r by lia. f_equal. f_equal. lia. }
    exists m, e. split; [done |]. split; [done |].
    unfold F2R. rewrite Em, Ee, mult_IZR, <- pow2_IZR by lia.
    rewrite Rmult_assoc, <- pow2_add. f_equal. f_equal. lia.
Qed.

(** The mantissa after an alignment to a smaller exponent. *)
Lemma shl_align_fst m e ez :
  ez <= e -> Z.pos (fst (shl_align m e ez)) = Z.pos m * 2 ^ (e - ez).
Proof.
  intros Hle. unfold shl_align.
  destruct (ez - e) as [| k | k] eqn:Ek; cbn [fst].
  - replace (e - ez) with 0 by lia. lia.
  - lia.
  - rewrite iter_xO_pow2. f_equal. f_equal. lia.
Qed.

(** Sums and differences of natural numbers below [2^53] are exact. *)
Lemma add_of_Z a b :
  0 <= a -> 0 <= b -> a + b < 2 ^ 53 -> add (of_Z a) (of_Z b) = of_Z (a + b).
Proof.
  intros Ha Hb Hab.
  destruct (Z.eq_dec a 0) as [-> | Ha0].
  { rewrite Z.add_0_l. change (of_Z 0) with (S754_zero false).
    destruct (Z.eq_dec b 0) as [-> | Hb0]; [reflexivity |].
    destruct (of_Z_normal b ltac:(lia)) as (mb & eb & -> & _). reflexivity. }
  destruct (Z.eq_dec b 0) as [-> | Hb0].
  { rewrite Z.add_0_r. change (of_Z 0) with (S754_zero false).
    destruct (of_Z_normal a ltac:(lia)) as (ma & ea & -> & _). reflexivity. }
  destruct (of_Z_normal a ltac:(lia)) as (ma & ea & Ea & Hma & Hea & Va & _).
  destruct (of_Z_normal b ltac:(lia)) as (mb & eb & Eb & Hmb & Heb & Vb & _).
  destruct (of_Z_normal (a + b) ltac:(lia)) as (ms & es & Es & Hms & Hes & _ & Vs).
  rewrite Ea, Eb, Es. unfold add, SFadd, prec, emax. cbn [cond_Zopp].
  set (ez := Z.min ea eb).
  rewrite !shl_align_fst by lia. rewrite Va, Vb.
  replace (a * 2 ^ (- ea) * 2 ^ (ea - ez) + b * 2 ^ (- eb) * 2 ^ (eb - ez))
    with ((a + b) * 2 ^ (- ez)).
  - destruct (binary_normalize_value (a + b) (- ez) ez) as (m & e & -> & Hm & Hv);
      try lia.
    apply normal_unique; [done | done |].
    rewrite Hv, Vs. replace (ez + - ez) with 0 by lia. rewrite pow2_0. ring.
  - rewrite <- !Z.mul_assoc, <- !Z.pow_add_r by lia.
    replace (- ea + (ea - ez)) with (- ez) by lia.
    replace (- eb + (eb - ez)) with (- ez) by lia. ring.
Qed.

Lemma sub_of_Z a b :
  0 <= b <= a -> a < 2 ^ 53 -> sub (of_Z a) (of_Z b) = of_Z (a - b).
Proof.
  intros Hb Ha.
  destruct (Z.eq_dec b 0) as [-> | Hb0].
  { rewrite Z.sub_0_r. change (of_Z 0) with (S754_zero false).
    destruct (Z.eq_dec a 0) as [-> | Ha0]; [reflexivity |].
    destruct (of_Z_normal a ltac:(lia)) as (ma & ea & -> & _). reflexivity. }
  destruct (of_Z_normal a ltac:(lia)) as (ma & ea & Ea & Hma & Hea & Va & _).
  destruct (of_Z_normal b ltac:(lia)) as (mb & eb & Eb & Hmb & Heb & Vb & _).
  rewrite Ea, Eb. unfold sub, SFsub, prec, emax. cbn [cond_Zopp].
  set (ez := Z.min ea eb).
  rewrite !shl_align_fst by lia. rewrite Va, Vb.
  replace (a * 2 ^ (- ea) * 2 ^ (ea - ez) - b * 2 ^ (- eb) * 2 ^ (eb - ez))
    with ((a - b) * 2 ^ (- ez)).
  - destruct (Z.eq_dec a b) as [-> | Hne].
    { rewrite Z.sub_diag. reflexivity. }
    destruct (of_Z_normal (a - b) ltac:(lia)) as (ms & es & Es & Hms & Hes & _ & Vs).
    rewrite Es.
    destruct (binary_normalize_value (a - b) (- ez) ez) as (m & e & -> & Hm & Hv);
      try lia.
    apply normal_unique; [done | done |].
    rewrite Hv, Vs. replace (ez + - ez) with 0 by lia. rewrite pow2_0. ring.
  - rewrite <- !Z.mul_assoc, <- !Z.pow_add_r by lia.
    replace (- ea + (ea - ez)) with (- ez) by lia.
    replace (- eb + (eb - ez)) with (- ez) by lia. ring.
Qed.

Lemma of_Z_1000 : of_Z 1000 = S754_finite false 8796093022208000 (-43).
Proof. reflexivity. Qed.

Lemma F2R_1000 : F2R (Z.pos 8796093022208000) (-43) = 1000%R.
Proof.
  change (Z.pos 8796093022208000) with (1000 * 2 ^ (- -43)). by rewrite F2R_scaled.
Qed.

Section Elapsed.
Context `{NumberFormat}.

(** [((now - start) / 1000).toFixed(3)] prints the elapsed milliseconds as
    seconds, exactly. *)
Lemma elapsed_text (start now : Z) :
  0 <= start <= now -> now < 2 ^ 52 ->
  toFixed 3 (div (sub (of_Z now) (of_Z start)) (of_Z 1000)) =
  decimal_fixed 3 (Z.to_N (now - start)).
Proof.
  intros Hs Hn. rewrite sub_of_Z by (lia || (change (2 ^ 53) with (2 * 2 ^ 52); lia)).
  set (ms := now - start). assert (Hms : 0 <= ms < 2 ^ 52) by lia.
  destruct (Z.eq_dec ms 0) as [-> | Hne]; [reflexivity |].
  assert (H53 : 2 ^ 53 = 2 * 2 ^ 52) by reflexivity.
  destruct (of_Z_normal ms ltac:(lia)) as (mm & em & -> & Hmm & Hem & _ & Vm).
  rewrite of_Z_1000. unfold div, prec, emax.
  destruct (div_normal mm em 8796093022208000 (-43)) as (m & e & -> & He & Hr);
    [done | lia | lia |].
  rewrite Vm, F2R_1000 in Hr. destruct Hr as (Hm & Herr & _ & _).
  set (v := F2R (Z.pos m) e) in *.
  assert (Hb := F2R_bounds m e Hm). fold v in Hb.
  assert (Hp := pow2_pos e).
  assert (HM : (0 < IZR ms < 4503599627370496)%R).
  { split; [apply (IZR_lt 0); lia |].
    apply (IZR_lt ms 4503599627370496). change 4503599627370496 with (2 ^ 52). lia. }
  set (x := (IZR ms / 1000)%R) in *.
  assert (Hx : (x * 1000 = IZR ms)%R) by (unfold x; field).
  assert (Heneg : e < -9).
  { apply (pow2_const_lt e (-9) 9); [lia | | lia]. change (IZR (2 ^ 9)) with 512%R. lra. }
  assert (Hpe : (pow2 e <= pow2 (-10))%R) by (apply pow2_le; lia).
  assert (H10 := pow2_opp 10 ltac:(lia)).
  change (2 ^ 10) with 1024 in H10. change (- (10)) with (-10) in H10.
  rewrite toFixed_normal; [| lia | fold v; lra | done].
  f_equal.
  assert (Hnn := nearest_scaled_spec 3 m e ltac:(lia)). cbn zeta in Hnn.
  fold v in Hnn. change (IZR (10 ^ Z.of_nat 3)) with 1000%R in Hnn.
  apply N2Z.inj. rewrite Z2N.id by lia.
  set (n := Z.of_N (nearest_scaled 3 m e)) in *.
  assert (H1 : (IZR n < IZR (ms + 1))%R) by (rewrite plus_IZR; lra).
  assert (H2 : (IZR ms < IZR (n + 1))%R) by (rewrite plus_IZR; lra).
  apply lt_IZR in H1, H2. lia.
Qed.
End Elapsed.

End NumberFacts.

(** * Properties of the report text *)

Module ReportFacts.
Import JsNumber TestResults Summarizer Counting Report.
Import SummarizerFacts NumberFacts.
Local Open Scope nat_scope.

(** In the results of a document the passed scenarios are among all. *)
Lemma passed_among_all (doc : list CucumberFeature.t) :
  passedScenarios (summarize doc) ≤ totalScenarios (summarize doc).
Proof.
  rewrite summarize_closed. cbn.
  rewrite (length_by_scenario_status (doc ≫= countableScenarios)). lia.
Qed.

(** C7. The pass rate is "0.0" when no scenario was counted.  Otherwise it
    is the percentage of the passed scenarios among all with one decimal
    digit: the text of [n / 10] for an integer [n] within half a tenth of a
    percent of [100 * passed / total].  This holds for all counters with
    [passed <= total < 2^40], and so for the results of every document with
    fewer than [2^40] scenarios.  With 2 of 3 scenarios passed it is
    "66.7". *)
Theorem passRate_value `{NumberFormat} :
  (∀ results, totalScenarios results = 0 → passRate results = "0.0") ∧
  (∀ results,
     let p := Z.of_nat (passedScenarios results) in
     let t := Z.of_nat (totalScenarios results) in
     (0 < t < 2 ^ 40)%Z → (p <= t)%Z →
     ∃ n : N,
       passRate results = decimal_fixed 1 n ∧
       (2 * Z.of_N n * t - t <= 2000 * p <= 2 * Z.of_N n * t + t)%Z) ∧
  (∀ doc : list CucumberFeature.t,
     let results := summarize doc in
     let p := Z.of_nat (passedScenarios results) in
     let t := Z.of_nat (totalScenarios results) in
     (0 < t < 2 ^ 40)%Z →
     ∃ n : N,
       passRate results = decimal_fixed 1 n ∧
       (2 * Z.of_N n * t - t <= 2000 * p <= 2 * Z.of_N n * t + t)%Z) ∧
  (∀ results,
     totalScenarios results = 3 → passedScenarios results = 2 →
     passRate results = "66.7") ∧
  passRate (summarize Examples.twoOfThree) = "66.7".
Proof.
  assert (Hrule : ∀ results,
            (0 < Z.of_nat (totalScenarios results) < 2 ^ 40)%Z →
            (Z.of_nat (passedScenarios results) <=
             Z.of_nat (totalScenarios results))%Z →
            ∃ n : N,
              passRate results = decimal_fixed 1 n ∧
              (2 * Z.of_N n * Z.of_nat (totalScenarios results) -
               Z.of_nat (totalScenarios results) <=
               2000 * Z.of_nat (passedScenarios results) <=
               2 * Z.of_N n * Z.of_nat (totalScenarios results) +
               Z.of_nat (totalScenarios results))%Z).
  { intros results Ht Hp. unfold passRate.
    replace (0 <? totalScenarios results)%nat with true
      by (symmetry; apply Nat.ltb_lt; lia).
    unfold of_nat. apply percentage_text; lia. }
  split; [| split; [| split; [| split]]].
  - intros results Ht. unfold passRate. by rewrite Ht.
  - intros results p t. apply Hrule.
  - intros doc results p t Ht. apply Hrule; [done |].
    apply inj_le, passed_among_all.
  - intros results Ht Hp. unfold passRate. rewrite Ht, Hp. reflexivity.
  - reflexivity.
Qed.


End ReportFacts.

(** * Further properties of the Summarizer *)

Module SummarizerLaws.
Import JsNumber TestResults Summarizer Counting Durations Severity.
Import SummarizerFacts NumberFacts Samples.
Local Open Scope nat_scope.

(** Whole durations add up without rounding below [2^53]. *)
Lemma addDurations_exact steps ds : ∀ a : Z,
  Forall2 lastsFor steps ds →
  (0 <= a)%Z → (a + total ds < 2 ^ 53)%Z →
  addDurations (of_Z a) steps = of_Z (a + total ds).
Proof.
  intros a Hall. revert a.
  induction Hall as [| step d steps ds [Hd Hstep] Hall IH]; intros a Ha Hlt.
  - cbn. by rewrite Z.add_0_r.
  - cbn [total foldr] in Hlt. fold (total ds) in Hlt.
    assert (Hds : (0 <= total ds)%Z).
    { clear -Hall. induction Hall as [| ? ? ? ? [? _] _ IH]; cbn; [lia |].
      fold (total l'). lia. }
    unfold addDurations. cbn [fold_left].
    fold (addedDuration step). rewrite Hstep.
    rewrite add_of_Z by lia.
    fold (addDurations (of_Z (a + d)) steps).
    rewrite IH by lia. f_equal. cbn [total foldr]. fold (total ds). lia.
Qed.

(** X3. When every counted step lasted a whole number of nanoseconds and
    these add up to less than [2^53], the reported duration is their exact
    sum: no rounding happens on the way. *)
Theorem duration_exact_sum (doc : list CucumberFeature.t) (ds : list Z) :
  Forall2 lastsFor (countedSteps doc) ds →
  (total ds < 2 ^ 53)%Z →
  duration (summarize doc) = of_Z (total ds).
Proof.
  intros Hall Hlt. rewrite summarize_closed. cbn [duration].
  change (S754_zero false) with (of_Z 0).
  by rewrite (addDurations_exact _ ds 0 Hall).
Qed.

Lemma duration_exact_sum_witness :
  duration (summarize Examples.twoOfThree) = of_Z 7500.
Proof.
  apply (duration_exact_sum Examples.twoOfThree [1000; 2000; 1000; 500; 0; 3000]%Z).
  - repeat constructor; vm_compute; congruence.
  - reflexivity.
Defined.

Lemma determineScenarioStatus_app l1 l2 :
  severity (determineScenarioStatus (l1 ++ l2)) =
  severity (determineScenarioStatus l1) `max` severity (determineScenarioStatus l2).
Proof.
  unfold determineScenarioStatus. rewrite !existsb_app.
  repeat match goal with |- context [existsb ?p ?l] => destruct (existsb p l) end;
    reflexivity.
Qed.

(** X9. The status of a scenario is the worst of the statuses of its
    parts: cutting the steps in two and taking the worse of the two
    statuses gives the status of the whole; adding steps never improves a
    status; and the order of the steps does not matter. *)
Theorem determineScenarioStatus_worst_of_parts :
  (∀ l1 l2,
     severity (determineScenarioStatus (l1 ++ l2)) =
     severity (determineScenarioStatus l1) `max`
       severity (determineScenarioStatus l2)) ∧
  (∀ steps more,
     severity (determineScenarioStatus steps) ≤
     severity (determineScenarioStatus (steps ++ more))) ∧
  (∀ l1 l2, l1 ≡ₚ l2 → determineScenarioStatus l1 = determineScenarioStatus l2) ∧
  (∀ s1 s2, severity s1 = severity s2 → s1 = s2).
Proof.
  split; [| split; [| split]].
  - apply determineScenarioStatus_app.
  - intros steps more. rewrite determineScenarioStatus_app. lia.
  - intros l1 l2 Hp.
    assert (He : ∀ s, existsb (fun step => String.eqb (step_status step) s) l1 =
                      existsb (fun step => String.eqb (step_status step) s) l2).
    { intros s. apply eq_true_iff_eq. rewrite !existsb_status.
      by setoid_rewrite Hp. }
    unfold determineScenarioStatus. by rewrite !He.
  - by intros [] [].
Qed.

(** X8. Summarizing two documents one after the other: every counter of
    the whole is the sum of the counters of the two parts, the breakdown is
    the two breakdowns in order, and the duration goes on from the duration
    of the first part with the steps of the second. *)
Theorem summarize_app (d1 d2 : list CucumberFeature.t) :
  let r1 := summarize d1 in
  let r2 := summarize d2 in
  let r := summarize (d1 ++ d2) in
  totalScenarios r = totalScenarios r1 + totalScenarios r2 ∧
  passedScenarios r = passedScenarios r1 + passedScenarios r2 ∧
  failedScenarios r = failedScenarios r1 + failedScenarios r2 ∧
  skippedScenarios r = skippedScenarios r1 + skippedScenarios r2 ∧
  totalSteps r = totalSteps r1 + totalSteps r2 ∧
  passedSteps r = passedSteps r1 + passedSteps r2 ∧
  failedSteps r = failedSteps r1 + failedSteps r2 ∧
  skippedSteps r = skippedSteps r1 + skippedSteps r2 ∧
  features r = (features r1 ++ features r2)%list ∧
  duration r = addDurations (duration r1) (countedSteps d2).
Proof.
  cbn zeta. rewrite !summarize_closed. cbn.
  assert (Hs : countedSteps (d1 ++ d2) = (countedSteps d1 ++ countedSteps d2)%list)
    by (unfold countedSteps; apply bind_app).
  rewrite Hs, bind_app, !scenariosWithStatus_app, !stepsWithStatus_app,
    !length_app, addDurations_app.
  unfold reported. rewrite filter_app, map_app. done.
Qed.

(** X10. The order of the features of the document changes none of the
    eight counters, and the breakdown has the same entries in the order of
    the features; but the duration, a floating-point sum, can depend on the
    order. *)
Theorem summarize_feature_order :
  (∀ doc doc' : list CucumberFeature.t, doc ≡ₚ doc' →
     let r := summarize doc in
     let r' := summarize doc' in
     totalScenarios r = totalScenarios r' ∧
     passedScenarios r = passedScenarios r' ∧
     failedScenarios r = failedScenarios r' ∧
     skippedScenarios r = skippedScenarios r' ∧
     totalSteps r = totalSteps r' ∧
     passedSteps r = passedSteps r' ∧
     failedSteps r = failedSteps r' ∧
     skippedSteps r = skippedSteps r' ∧
     features r ≡ₚ features r') ∧
  (∃ doc doc' : list CucumberFeature.t,
     doc ≡ₚ doc' ∧ duration (summarize doc) ≠ duration (summarize doc')).
Proof.
  split.
  - intros doc doc' Hp. cbn zeta. rewrite !summarize_closed. cbn.
    assert (Hc : doc ≫= countableScenarios ≡ₚ doc' ≫= countableScenarios)
      by (by rewrite Hp).
    assert (Hs : countedSteps doc ≡ₚ countedSteps doc')
      by (unfold countedSteps; by rewrite Hp).
    unfold scenariosWithStatus, stepsWithStatus, reported.
    rewrite Hc, Hs, Hp. done.
  - exists [lasting (2 ^ 53); lasting 1; lasting 1],
           [lasting 1; lasting 1; lasting (2 ^ 53)].
    split.
    + etrans; [apply Permutation_swap |]. apply Permutation_skip, Permutation_swap.
    + vm_compute. discriminate.
Qed.

Lemma stepsWithStatus_exists s steps :
  existsb (fun step => String.eqb (step_status step) s) steps = true →
  1 ≤ stepsWithStatus s steps.
Proof.
  induction steps as [| step steps IH]; [done |].
  cbn [existsb]. rewrite stepsWithStatus_cons. intros Hor.
  apply orb_true_iff in Hor. destruct Hor as [Hs | Hrest].
  - apply String.eqb_eq in Hs. rewrite decide_True by done. lia.
  - apply IH in Hrest. lia.
Qed.

Lemma stepsWithStatus_none s steps :
  existsb (fun step => String.eqb (step_status step) s) steps = false →
  stepsWithStatus s steps = 0.
Proof.
  induction steps as [| step steps IH]; [done |].
  cbn [existsb]. rewrite stepsWithStatus_cons. intros Hor.
  apply orb_false_iff in Hor. destruct Hor as [Hs Hrest].
  apply String.eqb_neq in Hs. rewrite decide_False by done. by rewrite IH.
Qed.

Lemma scenarios_below_steps (scenarios : list CucumberScenario.t) :
  scenariosWithStatus failed scenarios ≤
    stepsWithStatus "failed" (scenarios ≫= CucumberScenario.steps) ∧
  scenariosWithStatus skipped scenarios ≤
    stepsWithStatus "skipped" (scenarios ≫= CucumberScenario.steps) ∧
  (scenariosWithStatus failed scenarios = 0 →
   stepsWithStatus "failed" (scenarios ≫= CucumberScenario.steps) = 0).
Proof.
  induction scenarios as [| sc l (IHf & IHs & IHz)]; [done |].
  rewrite bind_cons, !stepsWithStatus_app, !scenariosWithStatus_cons.
  unfold determineScenarioStatus.
  destruct (existsb (fun step => String.eqb (step_status step) "failed")
              (CucumberScenario.steps sc)) eqn:Hf.
  - apply stepsWithStatus_exists in Hf.
    rewrite decide_True by done. rewrite decide_False by done.
    repeat split; lia.
  - apply stepsWithStatus_none in Hf. rewrite Hf.
    destruct (existsb (fun step => String.eqb (step_status step) "skipped")
                (CucumberScenario.steps sc)) eqn:Hs.
    + apply stepsWithStatus_exists in Hs.
      rewrite decide_False by done. rewrite decide_True by done.
      repeat split; lia.
    + rewrite !decide_False by done. repeat split; lia.
Qed.

(** X16. The scenario counters and the step counters agree: there are at
    most as many failed scenarios as failed steps and as many skipped
    scenarios as skipped steps, and no scenario has failed exactly when no
    counted step has failed. *)
Theorem scenarios_and_steps_agree (doc : list CucumberFeature.t) :
  let r := summarize doc in
  failedScenarios r ≤ failedSteps r ∧
  skippedScenarios r ≤ skippedSteps r ∧
  (failedScenarios r = 0 ↔ failedSteps r = 0).
Proof.
  cbn zeta. rewrite summarize_closed. cbn. rewrite countedSteps_bind.
  destruct (scenarios_below_steps (doc ≫= countableScenarios)) as (Hf & Hs & Hz).
  repeat split; [done | done | done | lia].
Qed.

End SummarizerLaws.

(** * Further properties of the report text *)

Module ReportLaws.
Import JsNumber TestResults Summarizer Counting Report.
Import SummarizerFacts.
Local Open Scope nat_scope.

Lemma prefix_append (p rest : string) : String.prefix p (p +:+ rest) = true.
Proof.
  induction p as [| c p IH]; [by destruct rest |].
  change (String c p +:+ rest) with (String c (p +:+ rest)).
  cbn [String.prefix]. destruct (Ascii.ascii_dec c c); [done | congruence].
Qed.

Lemma append_associative (a b c : string) : (a +:+ b) +:+ c = a +:+ (b +:+ c).
Proof.
  induction a as [| x a IH]; [done |].
  change (String x ((a +:+ b) +:+ c) = String x (a +:+ (b +:+ c))).
  by rewrite IH.
Qed.

(** What starts with [p] still does after more text is added. *)
Lemma begins_append (p s t : string) :
  (∃ rest, s = p +:+ rest) → ∃ rest, s +:+ t = p +:+ rest.
Proof.
  intros [rest ->]. exists (rest +:+ t). apply append_associative.
Qed.

Lemma begins_fold {A} (p : string) (g : A → string) (l : list A) : ∀ s,
  (∃ rest, s = p +:+ rest) →
  ∃ rest, fold_left (fun comment x => comment +:+ g x) l s = p +:+ rest.
Proof.
  induction l as [| x l IH]; intros s Hs; [done |].
  cbn [fold_left]. apply IH. by apply begins_append.
Qed.

Lemma begins_self (p : string) : ∃ rest, p = p +:+ rest.
Proof.
  exists "". induction p as [| c p IH]; [done |].
  change (String c p = String c (p +:+ "")). by rewrite <- IH.
Qed.

Section Badge.
Context `{NumberFormat}.

(** The first line of the comment. *)
Lemma generateComment_first_line results :
  ∃ rest,
    generateComment results =
    ("## " +:+ (if (failedScenarios results =? 0)%nat then "✅" else "❌") +:+
     " Test Results " +:+
     (if (failedScenarios results =? 0)%nat then "**PASSED**" else "**FAILED**") +:+
     LF +:+ LF) +:+ rest.
Proof.
  unfold generateComment. cbn zeta.
  repeat first
    [ apply begins_self
    | apply begins_append
    | match goal with
      | |- ∃ rest, (if ?b then _ else _) = _ => destruct b
      end
    | apply (begins_fold _ featureRow) ].
Qed.

(** No scenario of a list is given the status [failed] exactly when none
    of them has a failed step. *)
Lemma no_failed_scenario (scenarios : list CucumberScenario.t) :
  scenariosWithStatus failed scenarios = 0 ↔
  ∀ scenario step,
    scenario ∈ scenarios → step ∈ CucumberScenario.steps scenario →
    step_status step ≠ "failed".
Proof.
  induction scenarios as [| sc l IH].
  - split; [| done]. intros _ scenario step Hin. by apply elem_of_nil in Hin.
  - rewrite scenariosWithStatus_cons.
    assert (Hd : determineScenarioStatus (CucumberScenario.steps sc) = failed ↔
                 ∃ step, step ∈ CucumberScenario.steps sc ∧ step_status step = "failed").
    { rewrite <- existsb_status. unfold determineScenarioStatus.
      destruct (existsb _ (CucumberScenario.steps sc)); [done |].
      split; [| done]. by destruct (existsb _ _). }
    split.
    + intros Hz scenario step Hin Hstep Hf.
      destruct (decide (determineScenarioStatus (CucumberScenario.steps sc) = failed))
        as [Hyes | Hno]; [lia |].
      apply elem_of_cons in Hin. destruct Hin as [-> | Hin].
      * apply Hno, Hd. by exists step.
      * assert (Hl : scenariosWithStatus failed l = 0) by lia.
        by apply (proj1 IH Hl scenario step).
    + intros Hall.
      rewrite decide_False.
      * apply IH. intros scenario step Hin. apply Hall. by right.
      * rewrite Hd. intros (step & Hin & Hf).
        apply (Hall sc step); [by left | done | done].
Qed.

(** X15. The first line of the comment is the FAILED headline when a
    scenario that counts has a failed step, and the PASSED headline
    otherwise: skipped scenarios, and steps with a status outside the named
    ones, do not turn the headline to FAILED.  The headline is PASSED
    exactly when every row of the breakdown has no failed scenario. *)
Theorem generateComment_headline (doc : list CucumberFeature.t) :
  let comment := generateComment (summarize doc) in
  let someStepFailed :=
    ∃ feature scenario step,
      feature ∈ doc ∧ scenario ∈ CucumberFeature.elements feature ∧
      CucumberScenario.type scenario = "scenario" ∧
      step ∈ CucumberScenario.steps scenario ∧ step_status step = "failed" in
  (String.prefix "## ❌ Test Results **FAILED**" comment = true ↔ someStepFailed) ∧
  (String.prefix "## ✅ Test Results **PASSED**" comment = true ↔ ¬ someStepFailed) ∧
  (String.prefix "## ✅ Test Results **PASSED**" comment = true ↔
   Forall (fun entry => FeatureSummary.failed entry = 0)
     (features (summarize doc))).
Proof.
  cbn zeta.
  set (someStepFailed := ∃ feature scenario step, _).
  assert (Hz : failedScenarios (summarize doc) = 0 ↔ ¬ someStepFailed).
  { rewrite summarize_closed. cbn [failedScenarios]. rewrite no_failed_scenario.
    subst someStepFailed. split.
    - intros Hall (feature & scenario & step & Hf & Hs & Ht & Hstep & Hfailed).
      apply (Hall scenario step); [| done | done].
      apply list_elem_of_bind. exists feature. split; [| done].
      unfold countableScenarios. by apply list_elem_of_filter.
    - intros Hn scenario step Hin Hstep Hfailed. apply Hn.
      apply list_elem_of_bind in Hin. destruct Hin as (feature & Hs & Hf).
      unfold countableScenarios in Hs. apply list_elem_of_filter in Hs.
      destruct Hs as [Ht Hs]. by exists feature, scenario, step. }
  assert (Hrows : failedScenarios (summarize doc) = 0 ↔
                  Forall (fun entry => FeatureSummary.failed entry = 0)
                    (features (summarize doc))).
  { rewrite summarize_closed. cbn [failedScenarios features].
    rewrite <- (sumOf_reported FeatureSummary.failed (scenariosWithStatus failed) doc);
      [| done | intros; apply scenariosWithStatus_app | done].
    generalize (map summaryOf (reported doc)). intros rows.
    induction rows as [| row rows IH]; [done |].
    rewrite Forall_cons. cbn [sumOf foldr]. fold (sumOf FeatureSummary.failed rows).
    rewrite <- IH. lia. }
  destruct (generateComment_first_line (summarize doc)) as [rest ->].
  destruct (failedScenarios (summarize doc)) as [| n] eqn:Hn.
  - cbn [Nat.eqb].
    assert (Hnone : ¬ someStepFailed) by (by apply Hz).
    split; [| split].
    + split; [discriminate | done].
    + split; [done | reflexivity].
    + rewrite <- Hrows. split; [done | reflexivity].
  - cbn [Nat.eqb].
    assert (Hsome : ¬ ¬ someStepFailed) by (rewrite <- Hz; lia).
    split; [| split].
    + split; [| reflexivity]. intros _.
      rewrite summarize_closed in Hn. cbn [failedScenarios] in Hn.
      unfold scenariosWithStatus in Hn.
      destruct (filter _ (doc ≫= countableScenarios)) as [| sc l] eqn:Hf in Hn;
        [done |].
      assert (Hin : sc ∈ filter
                (fun scenario =>
                   determineScenarioStatus (CucumberScenario.steps scenario) = failed)
                (doc ≫= countableScenarios)) by (rewrite Hf; left).
      apply list_elem_of_filter in Hin. destruct Hin as [Hst Hin].
      apply list_elem_of_bind in Hin. destruct Hin as (feature & Hs & Hfe).
      unfold countableScenarios in Hs. apply list_elem_of_filter in Hs.
      destruct Hs as [Ht Hs].
      assert (He : existsb (fun step => String.eqb (step_status step) "failed")
                     (CucumberScenario.steps sc) = true).
      { unfold determineScenarioStatus in Hst.
        destruct (existsb _ (CucumberScenario.steps sc)); [done |].
        by destruct (existsb _ _). }
      apply existsb_status in He. destruct He as (step & Hstep & Hfailed).
      by exists feature, sc, step.
    + split; [discriminate | done].
    + rewrite <- Hrows. split; [discriminate | done].
Qed.

End Badge.
End ReportLaws.

(** * Further properties of the script *)

Module ScriptLaws.
Import JsNumber TestResults Summarizer Report Script Files Samples.
Import ScriptFacts.
Local Open Scope nat_scope.

Section Runs.
Context `{NumberFormat}.
Variable JSON_parse : string → exn + list CucumberFeature.t.

(** What [parseTestResults] returns only depends on the report file. *)
Lemma parseTestResults_same_report files files' :
  files' !! reportPath = files !! reportPath →
  parseTestResults JSON_parse files' = parseTestResults JSON_parse files.
Proof.
  intros He. unfold parseTestResults, existsSync, readFile. by rewrite He.
Qed.

(** X5. When the report is a file that decodes, and the comment path is
    not a directory, [generatePRComment] ends normally: the comment of the
    summarized document is written to [test-results/pr-comment.md],
    replacing what was there, every other path is as before (the report
    among them), and the script does not set an exit code, failed scenarios
    or not. *)
Theorem generatePRComment_writes_comment (w : World) (content : string)
    (doc : list CucumberFeature.t) :
  fs w !! reportPath = Some (File content) →
  JSON_parse content = inr doc →
  fs w !! commentPath ≠ Some Directory →
  let results := summarize doc in
  let comment := generateComment results in
  let w' := fst (generatePRComment JSON_parse w) in
  snd (generatePRComment JSON_parse w) = inr () ∧
  fs w' = <[commentPath := File comment]> (fs w) ∧
  fs w' !! commentPath = Some (File comment) ∧
  (∀ path, path ≠ commentPath → fs w' !! path = fs w !! path) ∧
  fs w' !! reportPath = Some (File content) ∧
  main JSON_parse w = (w', None).
Proof.
  intros Hreport Hdoc Hdir. cbn zeta.
  assert (Hw : ∀ (files : gmap string Node) text,
            files !! commentPath ≠ Some Directory →
            writeFile "test-results/pr-comment.md" text files =
            inr (<[commentPath := File text]> files)).
  { intros files text Hd. unfold writeFile. fold commentPath.
    destruct (files !! commentPath) as [[|] |]; done. }
  assert (Hg : generatePRComment JSON_parse w =
               (let w1 := debug "✅ PR comment generated: test-results/pr-comment.md"
                            {| fs := <[commentPath := File (generateComment (summarize doc))]> (fs w);
                               debugCalls :=
                                 ((debugCalls w ++ ["📊 Parsing test results..."]) ++
                                  ["📝 Generating PR comment..."]) ++
                                 [generateComment (summarize doc)] |} in
                if (0 <? failedScenarios (summarize doc))%nat
                then debug ("⚠️ Tests have " +:+ show (failedScenarios (summarize doc)) +:+
                            " failed scenario(s).") w1
                else w1, inr ())).
  { unfold generatePRComment. cbn [debug fs debugCalls].
    rewrite (parseTestResults_found JSON_parse _ content doc Hreport Hdoc).
    by rewrite Hw. }
  unfold main. rewrite Hg. cbn zeta.
  destruct (0 <? failedScenarios (summarize doc))%nat;
    cbn [fst snd debug fs debugCalls];
    (split; [done |]); (split; [done |]);
    (split; [apply lookup_insert_eq |]);
    (split; [intros path Hp; by apply lookup_insert_ne |]);
    (split; [rewrite lookup_insert_ne; done |]);
    done.
Qed.

(** X6. The outcome of [generatePRComment], case by case: a missing
    report, a report that is a directory, a report that does not decode and a
    comment path that is a directory each end it with their own error, and
    nothing else does.  After an error no file has changed and the script
    logs the message of the error and exits with code 1; without an error it
    sets no exit code. *)
Theorem generatePRComment_outcome (w : World) :
  let run := generatePRComment JSON_parse w in
  match fs w !! reportPath with
  | None =>
      snd run = inl (Error "Report file not found: test-results/cucumber-report.json")
  | Some Directory =>
      snd run = inl (SystemError "EISDIR"
                       "EISDIR: illegal operation on a directory, read")
  | Some (File content) =>
      match JSON_parse content with
      | inl e => snd run = inl e
      | inr doc =>
          match fs w !! commentPath with
          | Some Directory =>
              snd run =
              inl (SystemError "EISDIR"
                     "EISDIR: illegal operation on a directory, open 'test-results/pr-comment.md'")
          | _ => snd run = inr ()
          end
      end
  end ∧
  (∀ e, snd run = inl e →
     fs (fst run) = fs w ∧
     main JSON_parse w =
       (debug ("❌ Error generating PR comment: " +:+ message e) (fst run),
        Some 1%Z)) ∧
  (snd run = inr () → main JSON_parse w = (fst run, None)).
Proof.
  cbn zeta. split; [| split].
  - unfold generatePRComment, parseTestResults, existsSync, readFile, writeFile.
    cbn [debug fs debugCalls]. fold commentPath.
    destruct (fs w !! reportPath) as [[content |] |] eqn:Hr.
    + rewrite bool_decide_eq_true_2 by (by eexists). cbn [negb].
      destruct (JSON_parse content) as [e | doc]; [done |].
      destruct (fs w !! commentPath) as [[|] |]; done.
    + rewrite bool_decide_eq_true_2 by (by eexists). done.
    + rewrite bool_decide_eq_false_2 by (by intros [? ?]). done.
  - intros e He. unfold main.
    destruct (generatePRComment JSON_parse w) as [w' [e' | []]] eqn:Hg;
      cbn [fst snd] in *; [| done].
    injection He as ->. split; [| done].
    unfold generatePRComment in Hg. cbn [debug fs debugCalls] in Hg.
    destruct (parseTestResults JSON_parse (fs w)) as [e1 | results].
    + by injection Hg as <- _.
    + destruct (writeFile _ _ _) as [e2 | files].
      * by injection Hg as <- _.
      * by destruct (0 <? failedScenarios results)%nat.
  - intros Hok. unfold main.
    destruct (generatePRComment JSON_parse w) as [w' [e' | []]];
      cbn [fst snd] in *; done.
Qed.

(** X7. Running [generatePRComment] again on what the first run left gives
    the same outcome and the same files: a second run writes the same
    comment over the first one. *)
Theorem generatePRComment_again (w : World) :
  let first := generatePRComment JSON_parse w in
  let second := generatePRComment JSON_parse (fst first) in
  snd second = snd first ∧ fs (fst second) = fs (fst first).
Proof.
  cbn zeta.
  assert (Hstep : ∀ w0,
            match parseTestResults JSON_parse (fs w0) with
            | inl e =>
                snd (generatePRComment JSON_parse w0) = inl e ∧
                fs (fst (generatePRComment JSON_parse w0)) = fs w0
            | inr results =>
                match fs w0 !! commentPath with
                | Some Directory =>
                    snd (generatePRComment JSON_parse w0) =
                      inl (SystemError "EISDIR"
                             "EISDIR: illegal operation on a directory, open 'test-results/pr-comment.md'") ∧
                    fs (fst (generatePRComment JSON_parse w0)) = fs w0
                | _ =>
                    snd (generatePRComment JSON_parse w0) = inr () ∧
                    fs (fst (generatePRComment JSON_parse w0)) =
                      <[commentPath := File (generateComment results)]> (fs w0)
                end
            end).
  { intros w0. unfold generatePRComment, writeFile. cbn [debug fs debugCalls].
    fold commentPath.
    destruct (parseTestResults JSON_parse (fs w0)) as [e | results]; [done |].
    destruct (fs w0 !! commentPath) as [[|] |];
      try destruct (0 <? failedScenarios results)%nat; done. }
  pose proof (Hstep w) as H1.
  pose proof (Hstep (fst (generatePRComment JSON_parse w))) as H2.
  destruct (parseTestResults JSON_parse (fs w)) as [e | results] eqn:Hp.
  - destruct H1 as [Ho Hf]. rewrite Hf, Hp in H2. destruct H2 as [Ho2 Hf2].
    by rewrite Ho, Ho2, Hf2.
  - destruct (fs w !! commentPath) as [[content |] |] eqn:Hc.
    + destruct H1 as [Ho Hf].
      rewrite (parseTestResults_same_report (fs w)) in H2
        by (rewrite Hf; by apply lookup_insert_ne).
      rewrite Hp in H2. rewrite Hf, lookup_insert_eq in H2.
      destruct H2 as [Ho2 Hf2]. rewrite Ho, Ho2, Hf2, Hf.
      split; [done |]. by rewrite insert_insert_eq.
    + destruct H1 as [Ho Hf]. rewrite Hf, Hp, Hc in H2. destruct H2 as [Ho2 Hf2].
      by rewrite Ho, Ho2, Hf2.
    + destruct H1 as [Ho Hf].
      rewrite (parseTestResults_same_report (fs w)) in H2
        by (rewrite Hf; by apply lookup_insert_ne).
      rewrite Hp in H2. rewrite Hf, lookup_insert_eq in H2.
      destruct H2 as [Ho2 Hf2]. rewrite Ho, Ho2, Hf2, Hf.
      split; [done |]. by rewrite insert_insert_eq.
Qed.

End Runs.

Lemma generatePRComment_writes_comment_witness :
  snd (generatePRComment (H := Examples.unprinted)
         (decodeAs Examples.twoOfThree) reportOnly) = inr () ∧
  snd (main (H := Examples.unprinted) (decodeAs Examples.twoOfThree) reportOnly) =
    None.
Proof.
  destruct (generatePRComment_writes_comment (H := Examples.unprinted)
              (decodeAs Examples.twoOfThree) reportOnly "[]" Examples.twoOfThree)
    as (Hs & _ & _ & _ & _ & Hm).
  - apply lookup_singleton_eq.
  - reflexivity.
  - unfold reportOnly. cbn [fs]. rewrite lookup_singleton_ne; done.
  - split; [exact Hs | by rewrite Hm].
Defined.

End ScriptLaws.

(** * Further properties of the Aggregator *)

Module AggregatorLaws.
Import JsNumber VerboseFormatter Tracking ScenarioTracking.
Import AggregatorFacts NumberFacts.
Local Open Scope nat_scope.

Section Traces.
Context `{NumberFormat}.

Lemma sameScenarioCounters_trans f1 f2 f3 :
  sameScenarioCounters f1 f2 → sameScenarioCounters f2 f3 →
  sameScenarioCounters f1 f3.
Proof.
  unfold sameScenarioCounters. intros (? & ? & ? & ?) (? & ? & ? & ?).
  repeat split; congruence.
Qed.

Lemma logTestCaseStarted_scenarios collector m f :
  sameScenarioCounters f (logTestCaseStarted collector m f).
Proof.
  unfold logTestCaseStarted, logTestCaseStarted_call, sameScenarioCounters.
  destruct (getTestCaseAttempt collector _); done.
Qed.

Lemma logTestStepStarted_scenarios collector m f :
  sameScenarioCounters f (logTestStepStarted collector m f).
Proof.
  unfold logTestStepStarted, logTestStepStarted_call, sameScenarioCounters.
  destruct (getTestCaseAttempt collector _) as [error | testCase]; [done |].
  destruct (truthy (_ ≫= _)) as [pickleStepId |]; [| done].
  destruct (truthy (_ <$> _)); done.
Qed.

Lemma logTestStepFinished_scenarios collector m f :
  sameScenarioCounters f (logTestStepFinished collector m f).
Proof.
  rewrite logTestStepFinished_resolve. unfold sameScenarioCounters.
  destruct (resolveStepText collector m); [| done].
  by destruct (TestStepResult.status _).
Qed.

(** [logTestRunFinished] only writes. *)
Lemma logTestRunFinished_keeps now f :
  sameScenarioCounters f (logTestRunFinished now f) ∧
  startTime (logTestRunFinished now f) = startTime f.
Proof.
  unfold logTestRunFinished, sameScenarioCounters.
  repeat
    (cbn [log output totalScenarios scenariosPassed scenariosFailed
          scenariosSkipped totalSteps passedCount failedCount skippedCount];
     match goal with
     | |- context [(0 <? ?g f)%nat] => destruct (0 <? g f)%nat
     end).
  all: done.
Qed.

Lemma logTestRunFinished_scenarios now f :
  sameScenarioCounters f (logTestRunFinished now f).
Proof. apply logTestRunFinished_keeps. Qed.

(** The scenario counters after one resolved case-finished message. *)
Lemma trackScenarioResult_status collector m f :
  let f' := trackScenarioResult collector m f in
  let counted :=
    option_list
      (countedWorst (collector, 0%Z, caseFinishedEnvelope m)) in
  totalScenarios f' = totalScenarios f + length counted ∧
  scenariosPassed f' = scenariosPassed f + withStatus PASSED counted ∧
  scenariosFailed f' = scenariosFailed f + withStatus FAILED counted ∧
  scenariosSkipped f' = scenariosSkipped f + withStatus SKIPPED counted.
Proof.
  cbn zeta. unfold trackScenarioResult, trackScenarioResult_call, countedWorst.
  cbn [caseFinishedEnvelope Envelope.testCaseFinished].
  destruct (getTestCaseAttempt collector _) as [error | testCase]; [cbn; lia |].
  cbn [formatterAfter].
  cbv [option_list option_rect].
  destruct (TestStepResult.status _);
    repeat match goal with
    | |- context [withStatus ?a [?b]] =>
        let v := eval vm_compute in (withStatus a [b]) in
        change (withStatus a [b]) with v
    end; cbn; lia.
Qed.

(** The scenario counters after one delivery. *)
Lemma deliver_scenarios f d :
  let f' := deliver f d in
  let counted := option_list (countedWorst d) in
  totalScenarios f' = totalScenarios f + length counted ∧
  scenariosPassed f' = scenariosPassed f + withStatus PASSED counted ∧
  scenariosFailed f' = scenariosFailed f + withStatus FAILED counted ∧
  scenariosSkipped f' = scenariosSkipped f + withStatus SKIPPED counted.
Proof.
  destruct d as [[collector now] envelope]. cbn zeta.
  unfold deliver, onEnvelope.
  set (f1 := match Envelope.testRunStarted envelope with
             | Some _ => set_startTime now f | None => f end).
  set (f2 := match Envelope.testCaseStarted envelope with
             | Some m => logTestCaseStarted collector m f1 | None => f1 end).
  assert (H2 : sameScenarioCounters f f2).
  { apply (sameScenarioCounters_trans _ f1).
    - subst f1. by destruct (Envelope.testRunStarted envelope).
    - subst f2. destruct (Envelope.testCaseStarted envelope);
        [apply logTestCaseStarted_scenarios | done]. }
  clearbody f2. clear f1.
  set (f3 := match Envelope.testCaseFinished envelope with
             | Some m => trackScenarioResult collector m f2 | None => f2 end).
  set (f4 := match Envelope.testStepStarted envelope with
             | Some m => logTestStepStarted collector m f3 | None => f3 end).
  set (f5 := match Envelope.testStepFinished envelope with
             | Some m => logTestStepFinished collector m f4 | None => f4 end).
  set (f6 := match Envelope.testRunFinished envelope with
             | Some _ => logTestRunFinished now f5 | None => f5 end).
  assert (H6 : sameScenarioCounters f3 f6).
  { apply (sameScenarioCounters_trans _ f5).
    apply (sameScenarioCounters_trans _ f4).
    - subst f4. destruct (Envelope.testStepStarted envelope);
        [apply logTestStepStarted_scenarios | done].
    - subst f5. destruct (Envelope.testStepFinished envelope);
        [apply logTestStepFinished_scenarios | done].
    - subst f6. destruct (Envelope.testRunFinished envelope);
        [apply logTestRunFinished_scenarios | done]. }
  destruct H6 as (-> & -> & -> & ->). destruct H2 as (E1 & E2 & E3 & E4).
  rewrite <- E1, <- E2, <- E3, <- E4. subst f3.
  unfold countedWorst.
  destruct (Envelope.testCaseFinished envelope) as [m |]; [| cbn; lia].
  apply (trackScenarioResult_status collector m f2).
Qed.

Lemma countedWorsts_cons d events :
  countedWorsts (d :: events) =
  (option_list (countedWorst d) ++ countedWorsts events)%list.
Proof. unfold countedWorsts. cbn. by destruct (countedWorst d). Qed.

(** The scenario counters after a sequence of deliveries. *)
Lemma run_scenarios events : ∀ f,
  let f' := run events f in
  let counted := countedWorsts events in
  totalScenarios f' = totalScenarios f + length counted ∧
  scenariosPassed f' = scenariosPassed f + withStatus PASSED counted ∧
  scenariosFailed f' = scenariosFailed f + withStatus FAILED counted ∧
  scenariosSkipped f' = scenariosSkipped f + withStatus SKIPPED counted.
Proof.
  induction events as [| d events IH]; intros f; cbn zeta.
  - cbn. lia.
  - unfold run. cbn [fold_left]. fold (run events (deliver f d)).
    destruct (IH (deliver f d)) as (T & P & F & K).
    destruct (deliver_scenarios f d) as (T' & P' & F' & K').
    rewrite countedWorsts_cons, !withStatus_app, length_app. lia.
Qed.


(** X13. The line written when a step starts and the line written when
    it finishes go together: for the same case and step identifiers, the
    pending line is written exactly when the finished step is counted, and
    both show the same text; otherwise neither is written. *)
Theorem step_lines_agree (collector : gmap string TestCaseAttempt.t)
    (m : TestStepStarted.t) (result : TestStepResult.t)
    (f : VerboseFormatter.t) :
  let finished := finishing m result in
  let status := TestStepResult.status result in
  match resolveStepText collector finished with
  | Some text =>
      logTestStepStarted collector m f = log ("  ⏳ " +:+ text) f ∧
      logTestStepFinished collector finished f =
        log (CR +:+ ESC +:+ "[K  " +:+ getStatusIcon status +:+ " " +:+ text +:+ LF)
          (updateStepCounts status f) ∧
      text ≠ ""
  | None =>
      logTestStepStarted collector m f = f ∧
      logTestStepFinished collector finished f = f
  end.
Proof.
  cbn zeta. rewrite logTestStepFinished_resolve.
  unfold logTestStepStarted, logTestStepStarted_call, resolveStepText, finishing.
  cbn [TestStepFinished.testCaseStartedId TestStepFinished.testStepId
       TestStepFinished.testStepResult].
  destruct (getTestCaseAttempt collector _) as [error | testCase]; [done |].
  destruct (truthy (_ ≫= _)) as [pickleStepId |]; [| done].
  destruct (truthy (_ <$> _)) as [text |] eqn:Ht; [| done].
  split; [done |]. split; [done |].
  intros ->. by destruct (_ <$> _) as [[|] |].
Qed.

(** What [logTestRunFinished] writes, with the elapsed time as the
    program computes it. *)
Lemma logTestRunFinished_written (now : Z) (f : VerboseFormatter.t) :
  output (logTestRunFinished now f) =
    (output f ++ [LF +:+ "Test Execution Summary:"] ++
     countLines (LF +:+ show (totalScenarios f) +:+ " scenarios (")
       (scenariosPassed f) (scenariosFailed f) (scenariosSkipped f) ++
     [")" +:+ LF] ++
     countLines (show (totalSteps f) +:+ " steps (")
       (passedCount f) (failedCount f) (skippedCount f) ++
     [")" +:+ LF +:+
      toFixed 3 (div (sub (of_Z now) (of_Z (startTime f))) (of_Z 1000)) +:+
      "s" +:+ LF])%list.
Proof.
  unfold logTestRunFinished, countLines.
  rewrite !(ReportLaws.append_associative LF), !(ReportLaws.append_associative (show _)).
  repeat
    (cbn [log output totalScenarios scenariosPassed scenariosFailed
          scenariosSkipped totalSteps passedCount failedCount skippedCount];
     match goal with
     | |- context [(0 <? ?g f)%nat] => destruct (0 <? g f)%nat
     end).
  all: cbn [log output]; rewrite <- ?app_assoc; reflexivity.
Qed.

(** X4. At the end of a run that started at [startTime] and ends at [now]
    (milliseconds, below [2^52]), [logTestRunFinished] writes the headline,
    the scenario counts, the step counts, the failed and skipped counts
    only when they are not zero, and last the elapsed time as seconds with
    exactly the three digits of the milliseconds; it changes no counter. *)
Theorem logTestRunFinished_summary (now : Z) (f : VerboseFormatter.t) :
  (0 <= startTime f <= now)%Z → (now < 2 ^ 52)%Z →
  let f' := logTestRunFinished now f in
  output f' =
    (output f ++ [LF +:+ "Test Execution Summary:"] ++
     countLines (LF +:+ show (totalScenarios f) +:+ " scenarios (")
       (scenariosPassed f) (scenariosFailed f) (scenariosSkipped f) ++
     [")" +:+ LF] ++
     countLines (show (totalSteps f) +:+ " steps (")
       (passedCount f) (failedCount f) (skippedCount f) ++
     [")" +:+ LF +:+ decimal_fixed 3 (Z.to_N (now - startTime f)) +:+ "s" +:+ LF])%list ∧
  sameStepCounters f f' ∧ sameScenarioCounters f f' ∧ startTime f' = startTime f.
Proof.
  intros Hstart Hnow. cbn zeta.
  rewrite logTestRunFinished_written, elapsed_text by done.
  split; [done |]. split; [apply logTestRunFinished_steps |].
  apply logTestRunFinished_keeps.
Qed.



Lemma logTestRunFinished_output now f :
  output f `prefix_of` output (logTestRunFinished now f).
Proof.
  unfold logTestRunFinished.
  repeat
    (cbn [log output totalScenarios scenariosPassed scenariosFailed
          scenariosSkipped totalSteps passedCount failedCount skippedCount];
     match goal with
     | |- context [(0 <? ?g f)%nat] => destruct (0 <? g f)%nat
     end).
  all: cbn [log output]; repeat apply prefix_app_r; done.
Qed.


(** The output and the clock after one delivery. *)
Lemma deliver_output f d :
  output f `prefix_of` output (deliver f d) ∧
  startTime (deliver f d) = (if decide (startsRun d) then d.1.2 else startTime f).
Proof.
  destruct d as [[collector now] envelope].
  unfold deliver, onEnvelope. cbn [fst snd].
  set (f1 := match Envelope.testRunStarted envelope with
             | Some _ => set_startTime now f | None => f end).
  assert (H1 : output f `prefix_of` output f1 ∧
               startTime f1 =
               (if decide (startsRun (collector, now, envelope))
                then now else startTime f)).
  { subst f1. destruct (decide (startsRun _)) as [Hs | Hs]; unfold startsRun in Hs.
    - by destruct Hs as [[] ->].
    - destruct (Envelope.testRunStarted envelope); [| done].
      exfalso. apply Hs. by eexists. }
  destruct H1 as [H1 <-]. clearbody f1.
  set (f2 := match Envelope.testCaseStarted envelope with
             | Some m => logTestCaseStarted collector m f1 | None => f1 end).
  assert (H2 : output f1 `prefix_of` output f2 ∧ startTime f2 = startTime f1).
  { subst f2. destruct (Envelope.testCaseStarted envelope) as [m |]; [| done].
    unfold logTestCaseStarted, logTestCaseStarted_call.
    destruct (getTestCaseAttempt collector _); [done |].
    split; [by apply prefix_app_r | done]. }
  destruct H2 as [H2 <-]. clearbody f2.
  set (f3 := match Envelope.testCaseFinished envelope with
             | Some m => trackScenarioResult collector m f2 | None => f2 end).
  assert (H3 : output f2 `prefix_of` output f3 ∧ startTime f3 = startTime f2).
  { subst f3. destruct (Envelope.testCaseFinished envelope) as [m |]; [| done].
    unfold trackScenarioResult, trackScenarioResult_call.
    destruct (getTestCaseAttempt collector _); [done |].
    by destruct (TestStepResult.status _). }
  destruct H3 as [H3 <-]. clearbody f3.
  set (f4 := match Envelope.testStepStarted envelope with
             | Some m => logTestStepStarted collector m f3 | None => f3 end).
  assert (H4 : output f3 `prefix_of` output f4 ∧ startTime f4 = startTime f3).
  { subst f4. destruct (Envelope.testStepStarted envelope) as [m |]; [| done].
    unfold logTestStepStarted, logTestStepStarted_call.
    destruct (getTestCaseAttempt collector _) as [error | testCase]; [done |].
    destruct (truthy (_ ≫= _)) as [pickleStepId |]; [| done].
    destruct (truthy (_ <$> _)); [| done].
    split; [by apply prefix_app_r | done]. }
  destruct H4 as [H4 <-]. clearbody f4.
  set (f5 := match Envelope.testStepFinished envelope with
             | Some m => logTestStepFinished collector m f4 | None => f4 end).
  assert (H5 : output f4 `prefix_of` output f5 ∧ startTime f5 = startTime f4).
  { subst f5. destruct (Envelope.testStepFinished envelope) as [m |]; [| done].
    rewrite logTestStepFinished_resolve.
    destruct (resolveStepText collector m); [| done]. cbn zeta.
    destruct (TestStepResult.status _);
      (split; [by apply prefix_app_r | done]). }
  destruct H5 as [H5 <-]. clearbody f5.
  assert (H6 : output f5 `prefix_of`
                 output (match Envelope.testRunFinished envelope with
                         | Some _ => logTestRunFinished now f5 | None => f5 end) ∧
               startTime (match Envelope.testRunFinished envelope with
                          | Some _ => logTestRunFinished now f5 | None => f5 end) =
               startTime f5).
  { destruct (Envelope.testRunFinished envelope); [| done].
    split; [apply logTestRunFinished_output | apply logTestRunFinished_keeps]. }
  destruct H6 as [H6 ->]. split; [| done].
  repeat (etrans; [eassumption |]). done.
Qed.

Lemma run_output events : ∀ f, output f `prefix_of` output (run events f).
Proof.
  induction events as [| d events IH]; intros f; [done |].
  unfold run. cbn [fold_left]. fold (run events (deliver f d)).
  etrans; [apply (deliver_output f d) | apply IH].
Qed.

(** X12. Deliveries only add: what the formatter has written stays, as
    the beginning of the output after any further deliveries, and none of
    the eight counters ever gets smaller. *)
Theorem run_only_adds (events : list delivery) (f : VerboseFormatter.t) :
  output f `prefix_of` output (run events f) ∧ countersGrow f (run events f).
Proof.
  split; [apply run_output |].
  destruct (run_steps events f) as (T & P & F & K).
  destruct (run_scenarios events f) as (T' & P' & F' & K').
  unfold countersGrow. lia.
Qed.




End Traces.

Lemma logTestRunFinished_summary_witness :
  List.last (output (logTestRunFinished (H := Examples.unprinted) 2500 initial)) "" =
  ")" +:+ LF +:+ "2.500" +:+ "s" +:+ LF.
Proof.
  destruct (logTestRunFinished_summary (H := Examples.unprinted) 2500 initial)
    as (-> & _).
  - cbn. lia.
  - reflexivity.
  - reflexivity.
Defined.


End AggregatorLaws.

(** * Properties of the runner *)

Module RunnerLaws.
Import Runner CommandLine.
Local Open Scope nat_scope.

Lemma processArguments_skip arg rest featurePath cliTags :
  arg ≠ "--tags" →
  processArguments (arg :: rest) featurePath cliTags =
  if isPath arg then processArguments rest arg cliTags
  else processArguments rest featurePath cliTags.
Proof.
  intros Hne. cbn [processArguments].
  replace (String.eqb arg "--tags") with false
    by (symmetry; by apply String.eqb_neq).
  cbn [andb]. by destruct rest.
Qed.

Lemma processArguments_tag value rest featurePath cliTags :
  value ≠ "" →
  processArguments ("--tags" :: value :: rest) featurePath cliTags =
  processArguments rest featurePath value.
Proof.
  intros Hne. cbn [processArguments].
  replace (String.eqb value "") with false
    by (symmetry; by apply String.eqb_neq).
  reflexivity.
Qed.

Lemma last_cons_default {A} (a d : A) (l : list A) :
  List.last (a :: l) d = List.last l a.
Proof.
  revert a d. induction l as [| b l IH]; intros a d; [done |].
  change (List.last (a :: b :: l) d) with (List.last (b :: l) d).
  by rewrite (IH b), (IH b).
Qed.

Lemma paths_cons arg args :
  paths (arg :: args) = if isPath arg then arg :: paths args else paths args.
Proof.
  unfold paths. rewrite filter_cons.
  destruct (isPath arg); [by rewrite decide_True | by rewrite decide_False].
Qed.

Lemma processArguments_no_tags args : ∀ featurePath cliTags,
  "--tags" ∉ args →
  processArguments args featurePath cliTags =
  (List.last (paths args) featurePath, cliTags).
Proof.
  induction args as [| arg args IH]; intros featurePath cliTags Hno; [done |].
  apply not_elem_of_cons in Hno. destruct Hno as [Hne Hno].
  rewrite processArguments_skip by done. rewrite paths_cons.
  destruct (isPath arg); rewrite IH by done; [| done].
  by rewrite last_cons_default.
Qed.

Lemma processArguments_before before value after : ∀ featurePath cliTags,
  "--tags" ∉ before → value ≠ "" →
  processArguments (before ++ "--tags" :: value :: after) featurePath cliTags =
  processArguments after (List.last (paths before) featurePath) value.
Proof.
  induction before as [| arg before IH]; intros featurePath cliTags Hno Hv.
  - by apply processArguments_tag.
  - apply not_elem_of_cons in Hno. destruct Hno as [Hne Hno].
    rewrite <- app_comm_cons, processArguments_skip by done. rewrite paths_cons.
    destruct (isPath arg); rewrite IH by done; [| done].
    by rewrite last_cons_default.
Qed.

(** What the loop returns, whatever the arguments: the path is the one it
    started with or an argument that can be a path, and the tags are the
    ones it started with or the argument that follows a [--tags]. *)
Lemma processArguments_sound (n : nat) : ∀ args featurePath cliTags,
  length args ≤ n →
  let result := processArguments args featurePath cliTags in
  (result.1 = featurePath ∨ (result.1 ∈ args ∧ isPath result.1 = true)) ∧
  (result.2 = cliTags ∨
   (result.2 ≠ "" ∧
    ∃ i, args !! i = Some "--tags" ∧ args !! S i = Some result.2)).
Proof.
  induction n as [| n IH]; intros args featurePath cliTags Hlen; cbn zeta.
  { destruct args; [| cbn in Hlen; lia]. cbn. by split; left. }
  destruct args as [| arg rest]; [cbn; by split; left |].
  cbn [length] in Hlen.
  assert (Hother :
    let result :=
      if isPath arg then processArguments rest arg cliTags
      else processArguments rest featurePath cliTags in
    (result.1 = featurePath ∨ (result.1 ∈ arg :: rest ∧ isPath result.1 = true)) ∧
    (result.2 = cliTags ∨
     (result.2 ≠ "" ∧
      ∃ i, (arg :: rest) !! i = Some "--tags" ∧
           (arg :: rest) !! S i = Some result.2))).
  { cbn zeta. destruct (isPath arg) eqn:Hp.
    - destruct (IH rest arg cliTags ltac:(lia)) as [Hpath Htags]. split.
      + right. destruct Hpath as [-> | [Hin Hq]]; [by split; [left |] |].
        split; [by right | done].
      + destruct Htags as [-> | (Hne & i & Hi & Hsi)]; [by left |].
        right. split; [done |]. by exists (S i).
    - destruct (IH rest featurePath cliTags ltac:(lia)) as [Hpath Htags]. split.
      + destruct Hpath as [-> | [Hin Hq]]; [by left |].
        right. split; [by right | done].
      + destruct Htags as [-> | (Hne & i & Hi & Hsi)]; [by left |].
        right. split; [done |]. by exists (S i). }
  cbn [processArguments]. destruct rest as [| next rest']; [exact Hother |].
  destruct (String.eqb arg "--tags" && negb (String.eqb next "")) eqn:Htag;
    [| exact Hother].
  apply andb_true_iff in Htag. destruct Htag as [Harg Hnext].
  apply String.eqb_eq in Harg. subst arg.
  apply negb_true_iff, String.eqb_neq in Hnext.
  cbn [length] in Hlen.
  destruct (IH rest' featurePath next ltac:(lia)) as [Hpath Htags]. split.
  - destruct Hpath as [-> | [Hin Hq]]; [by left |].
    right. split; [by do 2 right | done].
  - right. destruct Htags as [-> | (Hne & i & Hi & Hsi)].
    + split; [done |]. by exists 0.
    + split; [done |]. by exists (S (S i)).
Qed.

(** X19. Whatever the arguments, the feature path of the command can be a
    path (it is not empty and does not start with [--]): it is
    [test/features/] or one of the arguments; the tags given on the command
    line, if any, are an argument that is not empty and follows a [--tags];
    and the JSON report that the command asks for is the file that the
    comment script reads. *)
Theorem commandFor_arguments (args : list string) (TAGS : option string) :
  (∃ path tags,
     commandFor args TAGS = command (tagsOption tags TAGS) path ∧
     isPath path = true ∧
     (path = "test/features/" ∨ path ∈ args) ∧
     (tags = "" ∨
      (tags ≠ "" ∧ ∃ i, args !! i = Some "--tags" ∧ args !! S i = Some tags))) ∧
  (∃ head, ∀ tags path,
     command tags path =
     head +:+ "--format json:" +:+ Script.reportPath +:+ " " +:+ tags +:+ " " +:+
     path).
Proof.
  split.
  - unfold commandFor.
    pose proof (processArguments_sound (length args) args "test/features/" ""
                  (le_n _)) as [Hpath Htags].
    destruct (processArguments args "test/features/" "") as [path tags].
    cbn [fst snd] in *. exists path, tags. split; [done |].
    split; [| split; [| done]].
    + by destruct Hpath as [-> | [_ Hq]].
    + destruct Hpath as [-> | [Hin _]]; [by left | by right].
  - exists ("cross-env NODE_OPTIONS=" +:+ dquote +:+
            "--import tsx --import dotenv/config" +:+ dquote +:+
            " cucumber-js --config cucumber.js --import 'test/support/**/*.ts' --import 'test/steps/**/*.ts' --format ./test/support/verbose-formatter.ts ").
    intros tags path. vm_compute. reflexivity.
Qed.

(** X17. Without [--tags] among the arguments, the feature path of the
    command is the last argument that is not empty and is not an option,
    and [test/features/] when there is none; the tags come from the
    environment variable [TAGS], and there are none when it is not set or
    empty. *)
Theorem commandFor_last_path (args : list string) (TAGS : option string) :
  "--tags" ∉ args →
  commandFor args TAGS =
  command
    (match TAGS with
     | Some tags =>
         if String.eqb tags "" then ""
         else "--tags " +:+ dquote +:+ tags +:+ dquote
     | None => ""
     end)
    (List.last (paths args) "test/features/").
Proof.
  intros Hno. unfold commandFor. rewrite processArguments_no_tags by done.
  unfold tagsOption. cbn [String.eqb negb].
  destruct TAGS as [tags |]; [| reflexivity].
  by destruct (String.eqb tags "").
Qed.

Lemma commandFor_last_path_witness :
  commandFor ["test/features/login.feature"; "--verbose"] (Some "@smoke") =
  command ("--tags " +:+ dquote +:+ "@smoke" +:+ dquote)
    "test/features/login.feature".
Proof.
  apply (commandFor_last_path ["test/features/login.feature"; "--verbose"]
           (Some "@smoke")).
  vm_compute. intros Hin. by repeat (apply elem_of_cons in Hin as [? | Hin]; [done |]);
    apply elem_of_nil in Hin.
Defined.

(** X18. With one [--tags] followed by a value that is not empty, the
    value becomes the tags of the command, in double quotes, whatever the
    environment variable [TAGS] holds; the value is not taken as the feature
    path, which is the last path among the other arguments. *)
Theorem commandFor_cli_tags (before after : list string) (value : string)
    (TAGS : option string) :
  "--tags" ∉ before → "--tags" ∉ after → value ≠ "" →
  commandFor (before ++ "--tags" :: value :: after) TAGS =
  command ("--tags " +:+ dquote +:+ value +:+ dquote)
    (List.last (paths (before ++ after)) "test/features/").
Proof.
  intros Hb Ha Hv. unfold commandFor.
  rewrite processArguments_before, processArguments_no_tags by done.
  unfold tagsOption.
  replace (String.eqb value "") with false
    by (symmetry; by apply String.eqb_neq).
  cbn [negb]. f_equal.
  unfold paths. rewrite filter_app.
  generalize (filter (fun arg => isPath arg = true) after) as l.
  generalize (filter (fun arg => isPath arg = true) before) as k.
  intros k l. revert k. induction l as [| x l IH] using rev_ind; intros k.
  - by rewrite app_nil_r.
  - by rewrite app_assoc, !last_last.
Qed.

Lemma commandFor_cli_tags_witness :
  commandFor ["test/features/login.feature"; "--tags"; "@smoke"] (Some "@slow") =
  command ("--tags " +:+ dquote +:+ "@smoke" +:+ dquote)
    (List.last (paths (["test/features/login.feature"] ++ [])) "test/features/").
Proof.
  apply (commandFor_cli_tags ["test/features/login.feature"] [] "@smoke"
           (Some "@slow")).
  - intros Hin. apply elem_of_cons in Hin as [? | Hin]; [done |].
    by apply elem_of_nil in Hin.
  - apply not_elem_of_nil.
  - done.
Defined.

End RunnerLaws.
